(** * The dining-hall traffic simulator (main.py), embedded in Rocq.

    The development follows the source top to bottom: the constants and the
    facility catalogue, the helpers ([in_bounds], [convert_loc_to_coords],
    [time_to_minutes], [is_open]), the random module, [Person], the
    schedule index built in [main], and [SimState] with its tick [iterate]
    and the driver loop.

    Conventions of the embedding.
    - Python floats are idealised as exact rationals ([Q]); ints are [Z],
      list indices and lengths are [nat].
    - [math.acos]/[math.atan2] are not computable here, so the two geodesic
      methods of [Person] ([get_distance], [move_towards_fast]) are Section
      variables: every statement holds for every such pair of functions.
    - The global generator of the [random] module is a stream of raw
      variates with a read position; each call reads one variate.
    - A raised exception is an explicit result. *)

From Stdlib Require Import ZArith QArith Qround Qminmax Qabs List String Ascii Bool Lia Lqa Arith.
Import ListNotations.

Local Open Scope nat_scope.

(** ** Exceptions and fallible results *)

Inductive Exn : Type :=
| KeyError
| ValueError
| IndexError
| TypeError.

Inductive Result (A : Type) : Type :=
| Ok (a : A)
| Raise (e : Exn).

Arguments Ok {A} a.
Arguments Raise {A} e.

Definition bind {A B : Type} (m : Result A) (k : A -> Result B) : Result B :=
  match m with
  | Ok a => k a
  | Raise e => Raise e
  end.

Notation "x <- m ;; k" := (bind m (fun x => k))
  (at level 61, m at next level, right associativity).
Notation "' pat <- m ;; k" := (bind m (fun x => match x with pat => k end))
  (at level 61, pat pattern, m at next level, right associativity).

(** ** Numbers *)

(** [int(x)] on a float: truncation toward zero. *)
Definition py_int (x : Q) : Z := Z.quot (Qnum x) (Zpos (Qden x)).

(** [range(n)] has [n] elements for positive [n] and none otherwise. *)
Definition range_len (n : Z) : nat := Z.to_nat n.

Definition Qlt_bool (x y : Q) : bool := negb (Qle_bool y x).

(** ** Constants *)

Definition DAY_START_TIME : Z := 7 * 60.
Definition DAY_END_TIME : Z := 22 * 60.

Definition CONVERSION_RATE : Q := 2 # 5.
Definition DINNER_CONVERSION_RATE : Q := 1 # 2.

(** A location is [[lat, lon]]. *)
Definition Loc : Type := (Q * Q)%type.

Definition lat (l : Loc) : Q := fst l.
Definition lon (l : Loc) : Q := snd l.

Definition loc_eqb (a b : Loc) : bool :=
  Qeq_bool (lat a) (lat b) && Qeq_bool (lon a) (lon b).

(** [BOUNDING_BOX = [-117.71845, -117.70245, 34.09391, 34.10705]]. *)
Definition BOUNDING_BOX : Q * Q * Q * Q :=
  (-(11771845 # 100000), -(11770245 # 100000), 3409391 # 100000, 3410705 # 100000)%Q.

Definition in_bounds (l : Loc) : bool :=
  let '(b0, b1, b2, b3) := BOUNDING_BOX in
  Qle_bool b0 (lon l) && Qle_bool (lon l) b1 &&
  Qle_bool b2 (lat l) && Qle_bool (lat l) b3.

Definition SCREEN_WIDTH : Z := 800.
Definition SCREEN_HEIGHT : Z := 800.

(** [convert_loc_to_coords]: the pixel of a location, the vertical
    coordinate flipped so that north is up. *)
Definition convert_loc_to_coords (l : Loc) : Z * Z :=
  let '(b0, b1, b2, b3) := BOUNDING_BOX in
  let x := py_int ((lon l - b0) / (b1 - b0) * inject_Z SCREEN_WIDTH) in
  let y := py_int ((lat l - b2) / (b3 - b2) * inject_Z SCREEN_HEIGHT) in
  (x, (SCREEN_HEIGHT - y)%Z).

(** ** The facility catalogue [DINING_HALLS] *)

Inductive Hall : Type :=
| HochShanahan
| Malott
| Collins
| McConnell
| Frary
| Frank.

Definition Hall_eqb (a b : Hall) : bool :=
  match a, b with
  | HochShanahan, HochShanahan | Malott, Malott | Collins, Collins
  | McConnell, McConnell | Frary, Frary | Frank, Frank => true
  | _, _ => false
  end.

(** Iteration order of the dict literal. *)
Definition DINING_HALLS : list Hall :=
  [HochShanahan; Malott; Collins; McConnell; Frary; Frank].

Definition hall_location (h : Hall) : Loc :=
  match h with
  | HochShanahan => (3410574 # 100000, -(11770980 # 100000))
  | Malott => (3410284 # 100000, -(11771064 # 100000))
  | Collins => (3410160 # 100000, -(11770899 # 100000))
  | McConnell => (3410291 # 100000, -(11770562 # 100000))
  | Frary => (3410040 # 100000, -(11771073 # 100000))
  | Frank => (3409614 # 100000, -(11771145 # 100000))
  end%Q.

Record Timing : Type := {
  breakfast : Q * Q;
  lunch : Q * Q;
  dinner : Q * Q
}.

Definition hall_timing (h : Hall) : Timing :=
  match h with
  | HochShanahan =>
      {| breakfast := (7, 9); lunch := (47 # 4, 13); dinner := (17, 19) |}
  | Malott =>
      {| breakfast := (15 # 2, 10); lunch := (11, 14); dinner := (17, 19) |}
  | Collins =>
      {| breakfast := (15 # 2, 21 # 2); lunch := (11, 14); dinner := (33 # 2, 39 # 2) |}
  | McConnell =>
      {| breakfast := (15 # 2, 10); lunch := (11, 27 # 2); dinner := (17, 39 # 2) |}
  | Frary =>
      {| breakfast := (15 # 2, 10); lunch := (11, 27 # 2); dinner := (17, 39 # 2) |}
  | Frank =>
      {| breakfast := (15 # 2, 19 # 2); lunch := (21 # 2, 27 # 2); dinner := (17, 39 # 2) |}
  end%Q.

Definition within (t : Q) (w : Q * Q) : bool :=
  Qle_bool (fst w) t && Qle_bool t (snd w).

(** [is_open(current_time, dining_hall)]: the minute is converted to hours
    and tested against the three windows, bounds included. *)
Definition is_open (current_time : Q) (h : Hall) : bool :=
  let hours := (current_time / 60)%Q in
  if within hours (breakfast (hall_timing h)) then true
  else if within hours (lunch (hall_timing h)) then true
  else if within hours (dinner (hall_timing h)) then true
  else false.

Definition open_halls (current_minute : Q) : list Hall :=
  filter (is_open current_minute) DINING_HALLS.

(** ** The [random] module *)

Record Rng : Type := {
  draws : nat -> Q;
  pos : nat
}.

Definition rng_next (r : Rng) : Rng :=
  {| draws := draws r; pos := S (pos r) |}.

Definition rng_peek (r : Rng) : Q := draws r (pos r).

(** [random.random()]: the next variate. *)
Definition random_random (r : Rng) : Q * Rng := (rng_peek r, rng_next r).

(** [random.gauss(mu, sigma)] is [mu + z * sigma] for the next variate [z]. *)
Definition random_gauss (mu sigma : Q) (r : Rng) : Q * Rng :=
  ((mu + rng_peek r * sigma)%Q, rng_next r).

(** [itertools.accumulate]: running sums. *)
Fixpoint accumulate_from (acc : Q) (ws : list Q) : list Q :=
  match ws with
  | [] => []
  | w :: ws' => (acc + w)%Q :: accumulate_from (acc + w)%Q ws'
  end.

Definition accumulate (ws : list Q) : list Q :=
  match ws with
  | [] => []
  | w :: ws' => w :: accumulate_from w ws'
  end.

(** [bisect.bisect_right(a, x, lo, hi)], the binary search as written in
    the library; [fuel] bounds the number of halvings. *)
Fixpoint bisect_loop (fuel : nat) (a : list Q) (x : Q) (lo hi : nat) : nat :=
  match fuel with
  | O => lo
  | S fuel' =>
      if lo <? hi then
        let mid := (lo + hi) / 2 in
        if Qlt_bool x (nth mid a 0%Q)
        then bisect_loop fuel' a x lo mid
        else bisect_loop fuel' a x (S mid) hi
      else lo
  end.

Definition bisect (a : list Q) (x : Q) (lo hi : nat) : nat :=
  bisect_loop (S (List.length a)) a x lo hi.

(** [random.choices(population, weights=weights, k=1)[0]] for a non-empty
    population (CPython 3.9 and later): the cumulative weights are summed,
    a total that is not positive raises [ValueError], otherwise one variate
    selects the element by bisection. *)
Definition random_choices {A : Type} (population : list A) (weights : list Q)
    (r : Rng) : Result (A * Rng) :=
  let cum_weights := accumulate weights in
  if negb (List.length cum_weights =? List.length population) then Raise ValueError
  else
    let total := (last cum_weights 0 + 0)%Q in
    if Qle_bool total 0 then Raise ValueError
    else
      let hi := List.length population - 1 in
      let '(u, r') := random_random r in
      match nth_error population (bisect cum_weights (u * total)%Q 0 hi) with
      | Some a => Ok (a, r')
      | None => Raise IndexError
      end.

(** ** Insertion-ordered dicts *)

(** The keys of a Python dict iterate in insertion order; a dict is an
    association list with unique keys. *)
Section Dict.
Context {K V : Type}.
Variable key_eqb : K -> K -> bool.

Fixpoint dict_get (k : K) (d : list (K * V)) : option V :=
  match d with
  | [] => None
  | (k', v) :: d' => if key_eqb k k' then Some v else dict_get k d'
  end.

(** [if k not in d: d[k] = dflt] followed by the in-place update [f] of
    [d[k]]. *)
Fixpoint dict_upd (k : K) (f : V -> V) (dflt : V) (d : list (K * V))
    : list (K * V) :=
  match d with
  | [] => [(k, f dflt)]
  | (k', v) :: d' =>
      if key_eqb k k' then (k', f v) :: d'
      else (k', v) :: dict_upd k f dflt d'
  end.
End Dict.

(** ** The schedule index built in [main] *)

Record TimingEntry : Type := {
  days : list string;
  end_time : string;
  school : string;
  building : string
}.

Record Course : Type := {
  seats_taken : Z;
  timing : list TimingEntry
}.

(** [{"course": course, "timing": timing}] *)
Record Slot : Type := {
  slot_course : Course;
  slot_timing : TimingEntry
}.

(** An entry of an [end_times] bucket. *)
Record EndEntry : Type := {
  entry_timing : TimingEntry;
  location_string : string;
  people : Z
}.

Definition EndTimes : Type := list (Z * list EndEntry).

(** [s.split(":")] *)
Fixpoint split_colon_from (cur : string) (s : string) : list string :=
  match s with
  | EmptyString => [cur]
  | String c s' =>
      if Ascii.eqb c ":"%char
      then cur :: split_colon_from EmptyString s'
      else split_colon_from (cur ++ String c EmptyString)%string s'
  end.

Definition split_colon (s : string) : list string :=
  split_colon_from EmptyString s.

Definition digit_of (c : ascii) : option Z :=
  let n := Z.of_N (N_of_ascii c) in
  if ((48 <=? n) && (n <=? 57))%Z then Some (n - 48)%Z else None.

(** The blanks [int] strips: the characters Python counts as white space
    among the code points below 256, the control characters 28 to 31
    excepted, which [int] does not strip. *)
Definition is_space (c : ascii) : bool :=
  let n := Z.of_N (N_of_ascii c) in
  ((9 <=? n) && (n <=? 13) || (n =? 32) || (n =? 133) || (n =? 160))%Z.

Fixpoint skip_blanks (s : string) : string :=
  match s with
  | EmptyString => EmptyString
  | String c s' => if is_space c then skip_blanks s' else s
  end.

Fixpoint all_space (s : string) : bool :=
  match s with
  | EmptyString => true
  | String c s' => is_space c && all_space s'
  end.

(** What follows the first digit of a numeral: digits, single underscores
    each between two digits, and blanks at the very end. *)
Fixpoint digits_from (acc : Z) (s : string) : option Z :=
  match s with
  | EmptyString => Some acc
  | String c s' =>
      match digit_of c with
      | Some d => digits_from (acc * 10 + d)%Z s'
      | None =>
          if Ascii.eqb c "_"%char then
            match s' with
            | EmptyString => None
            | String c' s'' =>
                match digit_of c' with
                | Some d => digits_from (acc * 10 + d)%Z s''
                | None => None
                end
            end
          else if all_space s then Some acc else None
      end
  end.

(** A numeral without its sign: it starts with a digit. *)
Definition unsigned_of_string (s : string) : option Z :=
  match s with
  | EmptyString => None
  | String c s' =>
      match digit_of c with
      | Some d => digits_from d s'
      | None => None
      end
  end.

(** [int(s)] on a string of code points below 256: blanks around, an
    optional sign, then decimal digits, with single underscores allowed
    between digits; anything else raises [ValueError]. The limit that
    recent versions of CPython put on the number of digits (4300 by
    default) is not modelled. *)
Definition int_of_string (s : string) : Result Z :=
  let body := skip_blanks s in
  let parsed :=
    match body with
    | String c rest =>
        if Ascii.eqb c "+"%char then unsigned_of_string rest
        else if Ascii.eqb c "-"%char
             then option_map Z.opp (unsigned_of_string rest)
             else unsigned_of_string body
    | EmptyString => None
    end in
  match parsed with
  | Some z => Ok z
  | None => Raise ValueError
  end.

Definition index_str (l : list string) (i : nat) : Result string :=
  match nth_error l i with
  | Some s => Ok s
  | None => Raise IndexError
  end.

(** [time_to_minutes]: [int(h) * 60 + int(m)] of an ["HH:MM:SS"] string. *)
Definition time_to_minutes (time : string) : Result Z :=
  h <- index_str (split_colon time) 0 ;;
  hh <- int_of_string h ;;
  m <- index_str (split_colon time) 1 ;;
  mm <- int_of_string m ;;
  Ok (hh * 60 + mm)%Z.

(** Step one of [main]: the slots grouped by building. *)
Definition add_slot (c : Course) (acc : list (string * list Slot))
    (t : TimingEntry) : list (string * list Slot) :=
  dict_upd String.eqb (building t)
    (fun l => l ++ [{| slot_course := c; slot_timing := t |}]) [] acc.

Definition schedule_by_classroom (courses : list Course)
    : list (string * list Slot) :=
  fold_left (fun acc c => fold_left (add_slot c) (timing c) acc) courses [].

Definition ByDay : Type := list (string * list (string * list Slot)).

Definition empty_week : ByDay :=
  [("Monday", []); ("Tuesday", []); ("Wednesday", []); ("Thursday", []);
   ("Friday", [])]%string.

(** Step two: per day, per classroom, the slots taught that day. *)
Definition add_day (classroom : string) (sl : Slot) (acc : ByDay)
    (day : string) : ByDay :=
  dict_upd String.eqb day
    (dict_upd String.eqb classroom (fun l => l ++ [sl]) []) [] acc.

Definition group_by_day (by_classroom : list (string * list Slot)) : ByDay :=
  fold_left
    (fun acc '(classroom, slots) =>
       fold_left
         (fun acc sl => fold_left (add_day classroom sl) (days (slot_timing sl)) acc)
         slots acc)
    by_classroom empty_week.

(** [list.sort(key=end_time)]: a stable sort on the string key. *)
Fixpoint insert_slot (sl : Slot) (l : list Slot) : list Slot :=
  match l with
  | [] => [sl]
  | x :: l' =>
      if String.leb (end_time (slot_timing sl)) (end_time (slot_timing x))
      then sl :: l
      else x :: insert_slot sl l'
  end.

Definition sort_slots (l : list Slot) : list Slot :=
  fold_right insert_slot [] l.

Definition schedule_by_day (courses : list Course) : ByDay :=
  map (fun '(day, rooms) => (day, map (fun '(room, l) => (room, sort_slots l)) rooms))
    (group_by_day (schedule_by_classroom courses)).

(** Step three: every slot of every day and classroom is appended to the
    bucket of its end minute. The day is not part of the key. *)
Definition add_end_time (acc : Result EndTimes) (sl : Slot) : Result EndTimes :=
  et <- acc ;;
  tm <- time_to_minutes (end_time (slot_timing sl)) ;;
  Ok (dict_upd Z.eqb tm
        (fun l => l ++ [{| entry_timing := slot_timing sl;
                           location_string :=
                             (school (slot_timing sl) ++ "-" ++ building (slot_timing sl))%string;
                           people := seats_taken (slot_course sl) |}])
        [] et).

Definition build_end_times (courses : list Course) : Result EndTimes :=
  fold_left
    (fun acc '(_, rooms) =>
       fold_left (fun acc '(_, slots) => fold_left add_end_time slots acc) rooms acc)
    (schedule_by_day courses) (Ok []).

(** ** Replacing and popping by index *)

(** [l[i] = v]. Python raises [IndexError] past the end; every caller
    below has just read [l[i]], and the list is left as it is otherwise. *)
Fixpoint list_set {A : Type} (i : nat) (v : A) (l : list A) {struct l}
    : list A :=
  match l, i with
  | [], _ => []
  | _ :: l', O => v :: l'
  | x :: l', S i' => x :: list_set i' v l'
  end.

(** [l.pop(i)], keeping the list only. Python raises [IndexError] past
    the end; the callers pass the index of an element they have just seen
    ([pop_all_marked] below), and the list is left as it is otherwise. *)
Fixpoint list_pop {A : Type} (i : nat) (l : list A) {struct l} : list A :=
  match l, i with
  | [], _ => []
  | _ :: l', O => l'
  | x :: l', S i' => x :: list_pop i' l'
  end.

(** ** Person *)

Record Person : Type := {
  loc : Loc;
  speed : Q;
  destination : option Hall
}.

(** [Person(loc, speed)] *)
Definition new_person (l : Loc) (v : Q) : Person :=
  {| loc := l; speed := v; destination := None |}.

Definition set_destination (p : Person) (d : option Hall) : Person :=
  {| loc := loc p; speed := speed p; destination := d |}.

Definition set_loc (p : Person) (l : Loc) : Person :=
  {| loc := l; speed := speed p; destination := destination p |}.

(** ** SimState *)

(** The parsed command line. [arg_days] is only ever measured and indexed
    for file names; [walk_speed] is [args.speed]. *)
Record Args : Type := {
  arg_days : string;
  time_interval : Z;
  eating_time : Z;
  line_time : Z;
  walk_speed : Q
}.

(** A value of [location_data]: the two coordinate strings, each given by
    what [float] makes of it ([None] when it raises [ValueError], as on
    the empty string). *)
Definition RawLoc : Type := (option Q * option Q)%type.

Definition LocationData : Type := list (string * RawLoc).

(** [convert_str_to_loc] *)
Definition convert_str_to_loc (raw : RawLoc) : Loc :=
  match raw with
  | (Some a, Some b) => (a, b)
  | _ => (0, 0)%Q
  end.

(** [people_in_dining_halls[hall]] *)
Record Queues : Type := {
  in_line : list Q;
  eating : list Q
}.

Definition empty_queues : Queues := {| in_line := []; eating := [] |}.

(** [people_in_dining_halls]: a dict with the six keys of the catalogue,
    from [__init__] on. [halls h] reads [halls[h]]. *)
Record HallMap : Type := {
  at_hoch_shanahan : Queues;
  at_malott : Queues;
  at_collins : Queues;
  at_mcconnell : Queues;
  at_frary : Queues;
  at_frank : Queues
}.

Definition hall_queues (m : HallMap) (h : Hall) : Queues :=
  match h with
  | HochShanahan => at_hoch_shanahan m
  | Malott => at_malott m
  | Collins => at_collins m
  | McConnell => at_mcconnell m
  | Frary => at_frary m
  | Frank => at_frank m
  end.

Coercion hall_queues : HallMap >-> Funclass.

(** [halls[h] = q] *)
Definition set_queues (m : HallMap) (h : Hall) (q : Queues) : HallMap :=
  {| at_hoch_shanahan := if Hall_eqb HochShanahan h then q else m HochShanahan;
     at_malott := if Hall_eqb Malott h then q else m Malott;
     at_collins := if Hall_eqb Collins h then q else m Collins;
     at_mcconnell := if Hall_eqb McConnell h then q else m McConnell;
     at_frary := if Hall_eqb Frary h then q else m Frary;
     at_frank := if Hall_eqb Frank h then q else m Frank |}.

(** Every hall with both lists empty, as [__init__] and [get_next_day]
    build it. *)
Definition empty_halls : HallMap :=
  {| at_hoch_shanahan := empty_queues;
     at_malott := empty_queues;
     at_collins := empty_queues;
     at_mcconnell := empty_queues;
     at_frary := empty_queues;
     at_frank := empty_queues |}.

(** One logged row: the minute, the outside count, and per hall the
    lengths of its two queues. *)
Record Snapshot : Type := {
  minute : Q;
  outside : nat;
  hall_counts : list (Hall * (nat * nat))
}.

Record SimState : Type := {
  end_times : EndTimes;
  location_data : LocationData;
  args : Args;
  current_minute : Q;
  current_day : option nat;
  outside_people : list Person;
  people_in_dining_halls : HallMap;
  log : list (list Snapshot);
  rng : Rng
}.

(** [SimState.__init__]; [seed] is the state of the [random] module when
    the simulation starts. *)
Definition init (et : EndTimes) (ld : LocationData) (a : Args) (seed : Rng)
    : SimState :=
  {| end_times := et;
     location_data := ld;
     args := a;
     current_minute := inject_Z (DAY_START_TIME - 1);
     current_day := Some 0;
     outside_people := [];
     people_in_dining_halls := empty_halls;
     log := [];
     rng := seed |}.

(** What [iterate] returns: [True] or [None], with the state it leaves. *)
Inductive Tick : Type :=
| Running (s : SimState)
| Done (s : SimState).

(** [self.current_minute in self.end_times]: an int key is found by a
    float of the same value. *)
Fixpoint end_times_get (m : Q) (et : EndTimes) : option (list EndEntry) :=
  match et with
  | [] => None
  | (k, bucket) :: et' =>
      if Qeq_bool m (inject_Z k) then Some bucket else end_times_get m et'
  end.

(** The rate chosen inside the spawning loop. *)
Definition conversion_rate (current_minute : Q) : Q :=
  if Qle_bool (inject_Z (17 * 60)) current_minute
  then DINNER_CONVERSION_RATE else CONVERSION_RATE.

(** [enumerate] loop of the service steps: every entry is decremented and
    the indices of the entries that are [<= 0] afterwards are collected. *)
Fixpoint decrement_from (index : nat) (delta : Q) (l : list Q)
    : list Q * list nat :=
  match l with
  | [] => ([], [])
  | t :: l' =>
      let t' := (t - delta)%Q in
      let '(rest, to_remove) := decrement_from (S index) delta l' in
      (t' :: rest, if Qle_bool t' 0 then index :: to_remove else to_remove)
  end.

(** [for index in to_remove: l.pop(index - total_removed); total_removed += 1].
    The indices were collected in increasing order, so the difference is
    never negative. *)
Fixpoint pop_all {A : Type} (to_remove : list nat) (total_removed : nat)
    (l : list A) : list A :=
  match to_remove with
  | [] => l
  | index :: rest =>
      pop_all rest (S total_removed) (list_pop (index - total_removed) l)
  end.

Section Simulation.

(** [get_distance self_loc other]: great-circle metres between the
    person's location and [other]. *)
Variable get_distance : Loc -> Loc -> Q.

(** [move_towards_fast self_loc dest_loc delta_meters]: the location
    reached after [delta_meters] along the initial bearing. *)
Variable move_towards_fast : Loc -> Loc -> Q -> Loc.

(** [Person.in_dining_hall] *)
Definition in_dining_hall (p : Person) (h : Hall) : bool :=
  Qle_bool (get_distance (loc p) (hall_location h)) 100.

Definition dest_weights (p : Person) (choices : list Hall) : list Q :=
  map (fun h => get_distance (loc p) (hall_location h)) choices.

(** [Person.choose_dest]: nothing happens on an empty [choices];
    otherwise the destination is drawn with the distances as weights. *)
Definition choose_dest (p : Person) (choices : list Hall) (r : Rng)
    : Result (Person * Rng) :=
  match choices with
  | [] => Ok (p, r)
  | _ :: _ =>
      '(h, r') <- random_choices choices (dest_weights p choices) r ;;
      Ok (set_destination p (Some h), r')
  end.

(** [Person.move_towards_fast]: [DINING_HALLS[self.destination]] raises
    [KeyError] when the destination is [None]. *)
Definition person_move (p : Person) (delta_meters : Q) : Result Person :=
  match destination p with
  | None => Raise KeyError
  | Some h =>
      Ok (set_loc p (move_towards_fast (loc p) (hall_location h) delta_meters))
  end.


(** *** Step 1: people spawn outside classrooms *)

(** One round of [for i in range(num_spawned)]. *)
Definition spawn_one (a : Args) (l : Loc) (open_dining_halls : list Hall)
    (people : list Person) (r : Rng) : Result (list Person * Rng) :=
  let '(g, r1) := random_gauss (walk_speed a) 1 r in
  let person := new_person l (Qmax g (1 # 5)) in
  match open_dining_halls with
  | [] => Ok (people ++ [person], r1)
  | _ :: _ =>
      '(person', r2) <- choose_dest person open_dining_halls r1 ;;
      Ok (people ++ [person'], r2)
  end.

Fixpoint spawn_many (n : nat) (a : Args) (l : Loc) (open_dining_halls : list Hall)
    (people : list Person) (r : Rng) : Result (list Person * Rng) :=
  match n with
  | O => Ok (people, r)
  | S n' =>
      '(people', r') <- spawn_one a l open_dining_halls people r ;;
      spawn_many n' a l open_dining_halls people' r'
  end.

Definition num_spawned (current_minute : Q) (course : EndEntry) : Z :=
  py_int (inject_Z (people course) * conversion_rate current_minute)%Q.

(** The body of [for course in self.end_times[self.current_minute]]. *)
Definition spawn_course (a : Args) (ld : LocationData) (current_minute : Q)
    (open_dining_halls : list Hall) (course : EndEntry)
    (people : list Person) (r : Rng) : Result (list Person * Rng) :=
  match dict_get String.eqb (location_string course) ld with
  | None => Raise KeyError
  | Some raw =>
      let l := convert_str_to_loc raw in
      if loc_eqb l (0, 0)%Q || negb (in_bounds l) then Ok (people, r)
      else
        spawn_many (range_len (num_spawned current_minute course)) a l
          open_dining_halls people r
  end.

Fixpoint spawn_courses (a : Args) (ld : LocationData) (current_minute : Q)
    (open_dining_halls : list Hall) (courses : list EndEntry)
    (people : list Person) (r : Rng) : Result (list Person * Rng) :=
  match courses with
  | [] => Ok (people, r)
  | course :: rest =>
      '(people', r') <-
        spawn_course a ld current_minute open_dining_halls course people r ;;
      spawn_courses a ld current_minute open_dining_halls rest people' r'
  end.

Definition spawn_step (et : EndTimes) (a : Args) (ld : LocationData)
    (current_minute : Q) (open_dining_halls : list Hall)
    (people : list Person) (r : Rng) : Result (list Person * Rng) :=
  match end_times_get current_minute et with
  | None => Ok (people, r)
  | Some courses =>
      spawn_courses a ld current_minute open_dining_halls courses people r
  end.

(** *** Step 2: people move towards dining halls *)

(** [for person in self.outside_people] over a list that the body may
    shorten: the iterator holds an index, stops when the index is past the
    end, and [remove(person)] deletes the element it is standing on
    (persons compare by identity). [fuel] is the length at loop entry. *)
Fixpoint move_loop (fuel : nat) (i : nat) (a : Args)
    (open_dining_halls : list Hall) (people : list Person) (r : Rng)
    : Result (list Person * Rng) :=
  match fuel with
  | O => Ok (people, r)
  | S fuel' =>
      match nth_error people i with
      | None => Ok (people, r)
      | Some person =>
          match destination person, open_dining_halls with
          | None, [] =>
              let '(u, r') := random_random r in
              if Qlt_bool u CONVERSION_RATE
              then move_loop fuel' (S i) a open_dining_halls (list_pop i people) r'
              else move_loop fuel' (S i) a open_dining_halls people r'
          | None, _ :: _ =>
              '(person1, r') <- choose_dest person open_dining_halls r ;;
              person2 <- person_move person1
                           (inject_Z (time_interval a) * speed person1)%Q ;;
              move_loop fuel' (S i) a open_dining_halls (list_set i person2 people) r'
          | Some _, _ =>
              person2 <- person_move person
                           (inject_Z (time_interval a) * speed person)%Q ;;
              move_loop fuel' (S i) a open_dining_halls (list_set i person2 people) r
          end
      end
  end.

Definition move_step (a : Args) (open_dining_halls : list Hall)
    (people : list Person) (r : Rng) : Result (list Person * Rng) :=
  move_loop (List.length people) 0 a open_dining_halls people r.

(** *** Step 3: people enter dining halls and enter line *)

(** The wait pushed for a person entering a line of the given length. *)
Definition time_in_line (a : Args) (queue_length : nat) (r : Rng) : Q * Rng :=
  let base := inject_Z (Z.of_nat queue_length * line_time a) in
  let '(g, r') := random_gauss base 10 r in
  (Qmin (Qmax g 0 / 60) 60, r').

Definition push_line (halls : HallMap) (h : Hall) (t : Q) : HallMap :=
  set_queues halls h
    {| in_line := in_line (halls h) ++ [t]; eating := eating (halls h) |}.

(** The [enumerate] loop over the outside people: the first hall of the
    catalogue the person is in receives a wait, and the index is noted. *)
Fixpoint arrive_loop (index : nat) (a : Args) (people : list Person)
    (halls : HallMap) (r : Rng) : HallMap * Rng * list nat :=
  match people with
  | [] => (halls, r, [])
  | person :: rest =>
      match find (in_dining_hall person) DINING_HALLS with
      | Some h =>
          let '(t, r') := time_in_line a (List.length (in_line (halls h))) r in
          let '(halls', r'', to_remove) :=
            arrive_loop (S index) a rest (push_line halls h t) r' in
          (halls', r'', index :: to_remove)
      | None => arrive_loop (S index) a rest halls r
      end
  end.

Definition arrive_step (a : Args) (people : list Person) (halls : HallMap)
    (r : Rng) : list Person * HallMap * Rng :=
  let '(halls', r', to_remove) := arrive_loop 0 a people halls r in
  (pop_all to_remove 0 people, halls', r').

(** *** Steps 4 and 5: from line to eating, from eating to gone *)

(** [for index in to_remove]: the served entry is popped from the line and
    a fresh eating time is appended to the eating list. *)
Fixpoint seat_all (to_remove : list nat) (total_removed : nat) (a : Args)
    (line eat : list Q) (r : Rng) : list Q * list Q * Rng :=
  match to_remove with
  | [] => (line, eat, r)
  | index :: rest =>
      let line' := list_pop (index - total_removed) line in
      let '(g, r') := random_gauss (inject_Z (eating_time a)) 2000 r in
      let time_eating := (Qmax g 0 / 60)%Q in
      seat_all rest (S total_removed) a line' (eat ++ [time_eating]) r'
  end.

(** The body of [for dining_hall in DINING_HALLS]. *)
Definition serve_hall (delta_minutes : Q) (a : Args) (q : Queues) (r : Rng)
    : Queues * Rng :=
  let '(line1, to_remove) := decrement_from 0 delta_minutes (in_line q) in
  let '(line2, eat1, r') := seat_all to_remove 0 a line1 (eating q) r in
  let '(eat2, to_remove') := decrement_from 0 delta_minutes eat1 in
  ({| in_line := line2; eating := pop_all to_remove' 0 eat2 |}, r').

Fixpoint serve_halls (hs : list Hall) (delta_minutes : Q) (a : Args)
    (halls : HallMap) (r : Rng) : HallMap * Rng :=
  match hs with
  | [] => (halls, r)
  | h :: hs' =>
      let '(q, r') := serve_hall delta_minutes a (halls h) r in
      serve_halls hs' delta_minutes a (set_queues halls h q) r'
  end.

Definition service_step (delta_minutes : Q) (a : Args) (halls : HallMap)
    (r : Rng) : HallMap * Rng :=
  serve_halls DINING_HALLS delta_minutes a halls r.

(** *** Logging *)

Definition take_snapshot (current_minute : Q) (people : list Person)
    (halls : HallMap) : Snapshot :=
  {| minute := current_minute;
     outside := List.length people;
     hall_counts :=
       map (fun h => (h, (List.length (in_line (halls h)),
                          List.length (eating (halls h))))) DINING_HALLS |}.

(** [if self.current_day == len(self.log): self.log.append([])] and
    [self.log[self.current_day].append(to_append)]. *)
Definition append_log (day : option nat) (snap : Snapshot)
    (lg : list (list Snapshot)) : Result (list (list Snapshot)) :=
  match day with
  | None => Raise TypeError
  | Some d =>
      let lg' := if d =? List.length lg then lg ++ [[]] else lg in
      match nth_error lg' d with
      | None => Raise IndexError
      | Some day_log => Ok (list_set d (day_log ++ [snap]) lg')
      end
  end.

(** *** The tick *)

(** [get_next_day], on the fields it touches: the day index, the outside
    people and the queues. *)
Definition get_next_day (a : Args) (day : option nat)
    : Result (option nat * list Person * HallMap) :=
  match day with
  | None => Raise TypeError
  | Some d =>
      let d' := S d in
      Ok (if String.length (arg_days a) <=? d' then None else Some d',
          [], empty_halls)
  end.

Definition with_clock (s : SimState) (m : Q) (day : option nat)
    (people : list Person) (halls : HallMap) : SimState :=
  {| end_times := end_times s;
     location_data := location_data s;
     args := args s;
     current_minute := m;
     current_day := day;
     outside_people := people;
     people_in_dining_halls := halls;
     log := log s;
     rng := rng s |}.

(** The part of [iterate] after the day change: steps 1 to 5 and the log. *)
Definition run_steps (delta_minutes : Q) (s : SimState) : Result Tick :=
  let a := args s in
  let open_dining_halls := open_halls (current_minute s) in
  '(people1, r1) <-
    spawn_step (end_times s) a (location_data s) (current_minute s)
      open_dining_halls (outside_people s) (rng s) ;;
  '(people2, r2) <- move_step a open_dining_halls people1 r1 ;;
  let '(people3, halls3, r3) :=
    arrive_step a people2 (people_in_dining_halls s) r2 in
  let '(halls4, r4) := service_step delta_minutes a halls3 r3 in
  lg <- append_log (current_day s)
          (take_snapshot (current_minute s) people3 halls4) (log s) ;;
  Ok (Running
        {| end_times := end_times s;
           location_data := location_data s;
           args := a;
           current_minute := current_minute s;
           current_day := current_day s;
           outside_people := people3;
           people_in_dining_halls := halls4;
           log := lg;
           rng := r4 |}).

(** [self.current_minute += self.args.time_interval / 60]; the sum is kept
    in lowest terms, so that equal minutes are equal terms. *)
Definition advance (old_time : Q) (interval : Z) : Q :=
  Qred (old_time + inject_Z interval / 60).

(** [SimState.iterate] *)
Definition iterate (s : SimState) : Result Tick :=
  let old_time := current_minute s in
  let m := advance old_time (time_interval (args s)) in
  let delta_minutes := (m - old_time)%Q in
  if Qle_bool (inject_Z DAY_END_TIME) m then
    '(day, people, halls) <- get_next_day (args s) (current_day s) ;;
    let s' := with_clock s (inject_Z DAY_START_TIME) day people halls in
    match day with
    | None => Ok (Done s')
    | Some _ => run_steps delta_minutes s'
    end
  else
    run_steps delta_minutes
      (with_clock s m (current_day s) (outside_people s)
         (people_in_dining_halls s)).

(** The driver loop of [main], for at most [n] ticks: it stops at the
    first [None]. *)
Fixpoint run (n : nat) (s : SimState) : Result SimState :=
  match n with
  | O => Ok s
  | S n' =>
      t <- iterate s ;;
      match t with
      | Running s' => run n' s'
      | Done s' => Ok s'
      end
  end.

(** * Vocabulary of the statements *)

(** ** Queues and removals *)

(** The indices, counted from [index], of the entries that satisfy [f]. *)
Fixpoint marked_from {A : Type} (f : A -> bool) (index : nat) (l : list A)
    : list nat :=
  match l with
  | [] => []
  | x :: l' =>
      if f x then index :: marked_from f (S index) l'
      else marked_from f (S index) l'
  end.

(** The removal test of the service steps, and its negation. *)
Definition expired (t : Q) : bool := Qle_bool t 0.
Definition alive (t : Q) : bool := negb (expired t).

(** The generator after [n] more calls. *)
Fixpoint rng_skip (n : nat) (r : Rng) : Rng :=
  match n with
  | O => r
  | S n' => rng_skip n' (rng_next r)
  end.

(** The eating times sampled by the next [n] calls of [random.gauss]. *)
Fixpoint fresh_eating (n : nat) (a : Args) (r : Rng) : list Q :=
  match n with
  | O => []
  | S n' =>
      (Qmax (fst (random_gauss (inject_Z (eating_time a)) 2000 r)) 0 / 60)%Q
        :: fresh_eating n' a (rng_next r)
  end.

(** The first hall of the catalogue the person is within 100 m of. *)
Definition first_hall (p : Person) : option Hall :=
  find (in_dining_hall p) DINING_HALLS.

(** The person is within 100 m of some hall of the catalogue. *)
Definition arrived (p : Person) : bool :=
  match first_hall p with
  | Some _ => true
  | None => false
  end.

(** [h] is the hall whose line the person joins. *)
Definition arrives_at (h : Hall) (p : Person) : bool :=
  match first_hall p with
  | Some h' => Hall_eqb h' h
  | None => false
  end.

(** The wait of a person who finds [queue_length] people in the line,
    when the generator's variate is [z]: the base
    [queue_length * line_time] seconds, the noise [10 * z] added, then the
    clamp at zero, the conversion to minutes and the cap of an hour. *)
Definition wait_of (a : Args) (queue_length : nat) (z : Q) : Q :=
  Qmin (Qmax (inject_Z (Z.of_nat queue_length * line_time a) + z * 10) 0 / 60) 60.

(** The waits the arrival step appends to the line of [h], in order, when
    that line has [n] entries and the generator stands at [r] before the
    first of [people] is looked at: every arrival, at whichever hall, reads
    the next variate, and an arrival at [h] makes the line one longer. *)
Fixpoint line_waits (a : Args) (h : Hall) (n : nat) (r : Rng)
    (people : list Person) : list Q :=
  match people with
  | [] => []
  | p :: ps =>
      match first_hall p with
      | Some h' =>
          if Hall_eqb h' h
          then wait_of a n (rng_peek r) :: line_waits a h (S n) (rng_next r) ps
          else line_waits a h n (rng_next r) ps
      | None => line_waits a h n r ps
      end
  end.

(** The total of the weights. *)
Fixpoint Qsum (ws : list Q) : Q :=
  match ws with
  | [] => 0
  | w :: ws' => w + Qsum ws'
  end.

(** The condition under which spawning at [l] returns: no hall is open,
    or the open halls are at a positive total distance from [l]. *)
Definition can_choose (l : Loc) (open_dining_halls : list Hall) : Prop :=
  open_dining_halls = [] \/
  (0 < Qsum (map (fun h => get_distance l (hall_location h)) open_dining_halls))%Q.

(** ** The clock and the runs *)

(** [m] lies in [[DAY_START_TIME, DAY_END_TIME)]. *)
Definition in_day (m : Q) : Prop :=
  (inject_Z DAY_START_TIME <= m /\ m < inject_Z DAY_END_TIME)%Q.

(** The states the driver can observe: the initial one and those returned
    with [True] by a tick from an observed state. *)
Inductive reachable (s0 : SimState) : SimState -> Prop :=
| reach_init : reachable s0 s0
| reach_tick (s s' : SimState) :
    reachable s0 s -> iterate s = Ok (Running s') -> reachable s0 s'.

(** The row logged when nobody is anywhere. *)
Definition empty_snapshot (m : Q) : Snapshot :=
  {| minute := m;
     outside := 0;
     hall_counts := map (fun h => (h, (0, 0))) DINING_HALLS |}.

(** One step of [p] toward the hall [h]: what [move_towards_fast] makes
    of a person bound for [h]. *)
Definition step_toward (a : Args) (p : Person) (h : Hall) : Person :=
  set_loc p
    (move_towards_fast (loc p) (hall_location h)
       (inject_Z (time_interval a) * speed p)%Q).

(** What the loop of step 2 does while no hall is open, read off the
    index-based loop: a person bound for a hall walks one step; a person
    without a destination reads one variate, and a variate below
    [CONVERSION_RATE] deletes the person under the iterator; the iterator
    then steps over the person that slid into that place ([skip]), who is
    neither drawn for nor moved in this pass. *)
Fixpoint closed_pass (skip : bool) (a : Args) (people : list Person) (r : Rng)
    : list Person * Rng :=
  match people with
  | [] => ([], r)
  | p :: ps =>
      if skip then
        let '(kept, r') := closed_pass false a ps r in (p :: kept, r')
      else
        match destination p with
        | Some h =>
            let '(kept, r') := closed_pass false a ps r in
            (step_toward a p h :: kept, r')
        | None =>
            let '(u, r') := random_random r in
            if Qlt_bool u CONVERSION_RATE then closed_pass true a ps r'
            else
              let '(kept, r'') := closed_pass false a ps r' in (p :: kept, r'')
        end
  end.




(** ** Head counts *)

(** The people standing in a line, over all halls. *)
Definition queued (halls : HallMap) : nat :=
  list_sum (map (fun h => List.length (in_line (halls h))) DINING_HALLS).

(** The people eating, over all halls. *)
Definition seated (halls : HallMap) : nat :=
  list_sum (map (fun h => List.length (eating (halls h))) DINING_HALLS).

(** Everybody the state holds: outside, in a line, or eating. *)
Definition population (s : SimState) : nat :=
  List.length (outside_people s)
  + queued (people_in_dining_halls s)
  + seated (people_in_dining_halls s).

(** The state a tick leaves, whatever it returned. *)
Definition tick_state (t : Tick) : SimState :=
  match t with
  | Running s => s
  | Done s => s
  end.

(** The row that describes a state. *)
Definition row_of (s : SimState) : Snapshot :=
  take_snapshot (current_minute s) (outside_people s) (people_in_dining_halls s).

(** The state on which steps 1 to 5 run: the clock has advanced or, at the
    end of a day that is not the last, been reset with the populations. *)
Definition after_clock (s : SimState) : SimState :=
  let m := advance (current_minute s) (time_interval (args s)) in
  if Qle_bool (inject_Z DAY_END_TIME) m then
    match current_day s with
    | Some d =>
        with_clock s (inject_Z DAY_START_TIME)
          (if String.length (arg_days (args s)) <=? S d then None else Some (S d))
          [] empty_halls
    | None => s
    end
  else
    with_clock s m (current_day s) (outside_people s)
      (people_in_dining_halls s).

(** ** Walking *)

(** What step 2 does to one person while some hall is open: [p'] is [p]
    one step further, at the same speed, toward the destination it had
    or, if it had none, toward one of the open halls. *)
Definition walked (a : Args) (open_dining_halls : list Hall)
    (p p' : Person) : Prop :=
  speed p' = speed p /\
  exists h,
    destination p' = Some h /\
    loc p' = move_towards_fast (loc p) (hall_location h)
               (inject_Z (time_interval a) * speed p)%Q /\
    (destination p = Some h \/
     (destination p = None /\ In h open_dining_halls)).

(** What the spawning loop makes at [l]: a person standing there, no
    slower than 0.2 m/s, bound for an open hall if there is one. *)
Definition newcomer (l : Loc) (open_dining_halls : list Hall) (p : Person)
    : Prop :=
  loc p = l /\
  (1 # 5 <= speed p)%Q /\
  match destination p with
  | None => open_dining_halls = []
  | Some h => In h open_dining_halls
  end.

(** The entry's classroom has no usable location: unknown coordinates or
    a point outside the bounding box. *)
Definition unresolved (ld : LocationData) (course : EndEntry) : Prop :=
  exists raw,
    dict_get String.eqb (location_string course) ld = Some raw /\
    loc_eqb (convert_str_to_loc raw) (0, 0)%Q
      || negb (in_bounds (convert_str_to_loc raw)) = true.

(** The variates one spawned person costs: the speed, and the destination
    when a hall is open. *)
Definition draws_per_spawn (open_dining_halls : list Hall) : nat :=
  match open_dining_halls with
  | [] => 1
  | _ :: _ => 2
  end.

(** ** The driver loop *)

(** Within [n] ticks the loop of [main] is over: a tick has raised, or
    one has returned [None] and left no current day. *)
Definition stopped (n : nat) (s : SimState) : Prop :=
  match run n s with
  | Raise _ => True
  | Ok s' => current_day s' = None
  end.

(** ** The waits held by the halls *)

(** Every wait in a line is positive and at most an hour, every eating
    time left is positive. *)
Definition waits_in_range (halls : HallMap) : Prop :=
  forall h,
    Forall (fun t => 0 < t /\ t <= 60)%Q (in_line (halls h)) /\
    Forall (fun t => 0 < t)%Q (eating (halls h)).

(** The string holds no colon. *)
Fixpoint colon_free (s : string) : bool :=
  match s with
  | EmptyString => true
  | String c s' => negb (Ascii.eqb c ":"%char) && colon_free s'
  end.

(** ** The schedule index *)

(** The entry [main] files for a meeting [t] of the course [c]. *)
Definition entry_of (c : Course) (t : TimingEntry) : EndEntry :=
  {| entry_timing := t;
     location_string := (school t ++ "-" ++ building t)%string;
     people := seats_taken c |}.

(** The number of entries filed, over all buckets. *)
Definition filed (et : EndTimes) : nat :=
  list_sum (map (fun kv => List.length (snd kv)) et).

(** The number of weekday names the meetings of the courses list. *)
Definition meeting_days (courses : list Course) : nat :=
  list_sum
    (map (fun c => list_sum (map (fun t => List.length (days t)) (timing c)))
       courses).

(** The weekday names listed by the slots of a list. *)
Definition slot_days (l : list Slot) : nat :=
  list_sum (map (fun sl => List.length (days (slot_timing sl))) l).


(** The slots a week holds, over all days and classrooms. *)
Definition week_slots (w : ByDay) : nat :=
  list_sum
    (map (fun kv => list_sum (map (fun kv' => List.length (snd kv')) (snd kv)))
       w).

(** A slot made from a meeting of one of the courses. *)
Definition slot_of (courses : list Course) (sl : Slot) : Prop :=
  In (slot_course sl) courses /\ In (slot_timing sl) (timing (slot_course sl)).

(** An entry filed under the end minute [k] of a meeting of one of the
    courses. *)
Definition entry_at (courses : list Course) (k : Z) (e : EndEntry) : Prop :=
  exists c t,
    In c courses /\ In t (timing c) /\ e = entry_of c t /\
    time_to_minutes (end_time t) = Ok k.

(** [x] is in the list the dict holds under the key [k]. *)
Definition filed_under {K V : Type} (key_eqb : K -> K -> bool) (k : K) (x : V)
    (d : list (K * list V)) : Prop :=
  exists v, dict_get key_eqb k d = Some v /\ In x v.

(** The slot [sl] is in the list the week holds under [day] and [room]. *)
Definition filed_on (day room : string) (sl : Slot) (w : ByDay) : Prop :=
  exists rooms,
    dict_get String.eqb day w = Some rooms /\
    filed_under String.eqb room sl rooms.

(** ** The shape of the log *)

(** The ticks of one day at the default interval of one minute. *)
Definition rows_per_day : nat := Z.to_nat (DAY_END_TIME - DAY_START_TIME).

(** The log of a run at one tick per minute: the clock stands on a whole
    minute [k], the days before the current one hold a full day of rows,
    and the current day holds one row per minute from 07:00 to [k]. *)
Definition log_in_step (s : SimState) : Prop :=
  exists (d : nat) (k : Z),
    current_day s = Some d /\
    current_minute s = inject_Z k /\
    (DAY_START_TIME - 1 <= k < DAY_END_TIME)%Z /\
    (d = 0 \/ d < String.length (arg_days (args s))) /\
    (forall d', d' < d -> List.length (nth d' (log s) []) = rows_per_day) /\
    (((k = DAY_START_TIME - 1)%Z /\ d = 0 /\ log s = []) \/
     ((DAY_START_TIME <= k)%Z /\
      List.length (log s) = S d /\
      List.length (nth d (log s) []) = Z.to_nat (k - (DAY_START_TIME - 1)))).

(** * Inputs of the concrete runs *)

(** A generator whose every variate is [z]. *)
Definition constant_stream (z : Q) : Rng := {| draws := fun _ => z; pos := 0 |}.

(** The defaults of the command line, for the given [--days]. *)
Definition default_args (d : string) : Args :=
  {| arg_days := d;
     time_interval := 60;
     eating_time := 3600;
     line_time := 30;
     walk_speed := 4 # 5 |}.

(** A class of five that meets on Tuesdays only and ends at 15:00, an hour
    at which every hall is closed. *)
Definition tuesday_timing : TimingEntry :=
  {| days := ["Tuesday"%string];
     end_time := "15:00:00";
     school := "Pitzer";
     building := "Lincoln" |}.

(** The course record of that class, as the schedule service sends it. *)
Definition tuesday_course : Course :=
  {| seats_taken := 5; timing := [tuesday_timing] |}.

(** Its classroom, inside the bounding box. *)
Definition lincoln : LocationData :=
  [("Pitzer-Lincoln"%string, (Some (341 # 10), Some (- (11771 # 100))))]%Q.

(** A stand-in for the geodesic methods, used where a closed term is
    needed: taxicab metres at 111 km per degree, and a walker who reaches
    the destination when it is within the step and waits otherwise. *)
Definition taxicab_distance (a b : Loc) : Q :=
  ((Qabs (lat a - lat b) + Qabs (lon a - lon b)) * 111000)%Q.

(** The walker of the stand-in. *)
Definition step_or_stay (l dest : Loc) (delta_meters : Q) : Loc :=
  if Qle_bool (taxicab_distance l dest) delta_meters then dest else l.

(** The entry of the schedule index made from that class. *)
Definition tuesday_entry : EndEntry :=
  {| entry_timing := tuesday_timing;
     location_string := "Pitzer-Lincoln";
     people := 5 |}.

(** The rows of [n] ticks during which nobody is anywhere, the first at
    minute [first]. *)
Definition quiet_rows (first : Z) (n : nat) : list Snapshot :=
  map (fun k => empty_snapshot (inject_Z (first + Z.of_nat k))) (seq 0 n).

(** Monday 14:59 of a run configured for Monday alone ([--days M]), 480
    ticks after the start. *)
Definition monday_before_three : SimState :=
  {| end_times := [(900%Z, [tuesday_entry])];
     location_data := lincoln;
     args := default_args "M";
     current_minute := 899;
     current_day := Some 0;
     outside_people := [];
     people_in_dining_halls := empty_halls;
     log := [quiet_rows 420 480];
     rng := constant_stream (1 # 2) |}.

(** Everybody a row counts: outside, in a line, or eating. *)
Definition headcount (row : Snapshot) : nat :=
  outside row
  + list_sum (map (fun c => fst (snd c) + snd (snd c)) (hall_counts row)).

(** A class of three ending at 07:00 in the same classroom. *)
Definition seven_entry : EndEntry :=
  {| entry_timing :=
       {| days := ["Tuesday"%string];
          end_time := "07:00:00";
          school := "Pitzer";
          building := "Lincoln" |};
     location_string := "Pitzer-Lincoln";
     people := 3 |}.

(** The generator of zeros after [k] calls. *)
Definition zeros_from (k : nat) : Rng := {| draws := fun _ => 0%Q; pos := k |}.

(** Monday 21:59 of a two-day run, with whoever is outside and in the
    halls by then, Monday's rows so far, and [k] variates already read. *)
Definition last_minute_of_monday (people : list Person) (halls : HallMap)
    (rows : list Snapshot) (k : nat) : SimState :=
  {| end_times := [(420%Z, [seven_entry])];
     location_data := lincoln;
     args := default_args "MT";
     current_minute := 1319;
     current_day := Some 0;
     outside_people := people;
     people_in_dining_halls := halls;
     log := [rows];
     rng := zeros_from k |}.

(** The person that class puts outside at 07:00 with the variate 0, once
    the destination is drawn among the one open hall. *)
Definition seven_oclock_person : Person :=
  {| loc := (341 # 10, - (11771 # 100))%Q;
     speed := Qmax ((4 # 5) + 0 * 1) (1 # 5);
     destination := Some HochShanahan |}.

(** The same minute with no class ending at 07:00. *)
Definition quiet_last_minute_of_monday : SimState :=
  {| end_times := [(900%Z, [tuesday_entry])];
     location_data := lincoln;
     args := default_args "MT";
     current_minute := 1319;
     current_day := Some 0;
     outside_people := [];
     people_in_dining_halls := empty_halls;
     log := [[empty_snapshot 1319]];
     rng := constant_stream 0 |}.

(** The despawn sub-step as the specification words it: one variate per
    person, in list order, nobody passed over; a draw succeeds, and removes
    its person, when the variate is below [rate] (the way the source turns
    a variate into a Bernoulli draw). *)
Fixpoint despawn_spec (rate : Q) (people : list Person) (r : Rng)
    : list Person * Rng :=
  match people with
  | [] => ([], r)
  | p :: ps =>
      let '(u, r') := random_random r in
      let '(kept, r'') := despawn_spec rate ps r' in
      (if Qlt_bool u rate then kept else p :: kept, r'')
  end.

(** Somebody waiting outside the classroom with nowhere to go. *)
Definition idler : Person := new_person (341 # 10, - (11771 # 100))%Q (4 # 5).

(** Somebody standing at the door of Hoch-Shanahan. *)
Definition at_hoch : Person := new_person (hall_location HochShanahan) (4 # 5).

(** A run for Monday alone after its last tick: no current day is left. *)
Definition after_the_last_day : SimState :=
  {| end_times := [(900%Z, [tuesday_entry])];
     location_data := lincoln;
     args := default_args "M";
     current_minute := 420;
     current_day := None;
     outside_people := [];
     people_in_dining_halls := empty_halls;
     log := [[empty_snapshot 1319]];
     rng := constant_stream 0 |}.

(** Monday 21:59 of a two-day run whose log holds no day yet. *)
Definition monday_without_rows : SimState :=
  {| end_times := [(900%Z, [tuesday_entry])];
     location_data := lincoln;
     args := default_args "MT";
     current_minute := 1319;
     current_day := Some 0;
     outside_people := [];
     people_in_dining_halls := empty_halls;
     log := [];
     rng := constant_stream 0 |}.

(** The command line with [--time-interval 0]. *)
Definition standing_clock_args : Args :=
  {| arg_days := "M";
     time_interval := 0;
     eating_time := 3600;
     line_time := 30;
     walk_speed := 4 # 5 |}.

(** Monday noon of a one-day run, with one person at the door of
    Hoch-Shanahan and one outside the classroom. *)
Definition monday_noon : SimState :=
  {| end_times := [(900%Z, [tuesday_entry])];
     location_data := lincoln;
     args := default_args "M";
     current_minute := 720;
     current_day := Some 0;
     outside_people := [at_hoch; idler];
     people_in_dining_halls := empty_halls;
     log := [quiet_rows 420 301];
     rng := constant_stream (1 # 2) |}.

(** * Properties *)

(** ** Deferred removal by index *)

(** Moves the head of the right-hand list over to the prefix. *)
Ltac shift_head pre x l :=
  replace (pre ++ x :: l) with ((pre ++ [x]) ++ l)
    by (rewrite <- app_assoc; reflexivity).

Lemma list_pop_app {A : Type} (pre : list A) (x : A) (l : list A) :
  list_pop (List.length pre) (pre ++ x :: l) = pre ++ l.
Proof.
  induction pre as [|y pre IH]; simpl; [reflexivity|].
  now rewrite IH.
Qed.

Lemma pop_all_marked {A : Type} (f : A -> bool) (l : list A) :
  forall (pre : list A) (index total_removed : nat),
    index = List.length pre + total_removed ->
    pop_all (marked_from f index l) total_removed (pre ++ l)
    = pre ++ filter (fun x => negb (f x)) l.
Proof.
  induction l as [|x l IH]; intros pre index total_removed Hidx; simpl.
  - reflexivity.
  - destruct (f x) eqn:Hfx; simpl.
    + replace (index - total_removed) with (List.length pre) by lia.
      rewrite list_pop_app.
      apply IH. lia.
    + shift_head pre x l.
      rewrite (IH (pre ++ [x]) (S index) total_removed).
      * rewrite <- app_assoc. reflexivity.
      * rewrite length_app. simpl. lia.
Qed.

Lemma decrement_from_spec (delta : Q) (l : list Q) :
  forall index,
    decrement_from index delta l
    = (map (fun t => (t - delta)%Q) l,
       marked_from expired index (map (fun t => (t - delta)%Q) l)).
Proof.
  induction l as [|t l IH]; intros index; simpl.
  - reflexivity.
  - rewrite IH. unfold expired.
    destruct (Qle_bool (t - delta) 0); reflexivity.
Qed.

(** The list left by the two loops of a service step: the entries have all
    been decremented once, and those still positive remain, in order. *)
Lemma decrement_pop_filter (delta : Q) (l : list Q) :
  pop_all (snd (decrement_from 0 delta l)) 0 (fst (decrement_from 0 delta l))
  = filter alive (map (fun t => (t - delta)%Q) l).
Proof.
  rewrite decrement_from_spec. simpl.
  apply (pop_all_marked expired _ [] 0 0). reflexivity.
Qed.

(** ** The random stream *)

Lemma rng_skip_pos (n : nat) : forall r, pos (rng_skip n r) = pos r + n.
Proof.
  induction n as [|n IH]; intros r; simpl; [lia|].
  rewrite IH. simpl. lia.
Qed.

Lemma rng_skip_draws (n : nat) : forall r, draws (rng_skip n r) = draws r.
Proof.
  induction n as [|n IH]; intros r; simpl; [reflexivity|].
  now rewrite IH.
Qed.

Lemma fresh_eating_length (n : nat) (a : Args) :
  forall r, List.length (fresh_eating n a r) = n.
Proof.
  induction n as [|n IH]; intros r; simpl; [reflexivity|].
  now rewrite IH.
Qed.

Lemma seat_all_marked (a : Args) (l : list Q) :
  forall (pre eat : list Q) (index total_removed : nat) (r : Rng),
    index = List.length pre + total_removed ->
    seat_all (marked_from expired index l) total_removed a (pre ++ l) eat r
    = (pre ++ filter alive l,
       eat ++ fresh_eating (List.length (filter expired l)) a r,
       rng_skip (List.length (filter expired l)) r).
Proof.
  induction l as [|t l IH]; intros pre eat index total_removed r Hidx; simpl.
  - rewrite !app_nil_r. reflexivity.
  - unfold alive at 1. destruct (expired t) eqn:Ht; simpl.
    + replace (index - total_removed) with (List.length pre) by lia.
      rewrite list_pop_app.
      rewrite (IH pre _ (S index) (S total_removed) (rng_next r)) by lia.
      rewrite <- app_assoc. reflexivity.
    + shift_head pre t l.
      rewrite (IH (pre ++ [t]) eat (S index) total_removed r).
      * rewrite <- app_assoc. reflexivity.
      * rewrite length_app. simpl. lia.
Qed.

(** [serve_hall] in closed form. *)
Lemma serve_hall_spec (delta : Q) (a : Args) (q : Queues) (r : Rng) :
  let dec := fun t => (t - delta)%Q in
  let n := List.length (filter expired (map dec (in_line q))) in
  serve_hall delta a q r
  = ({| in_line := filter alive (map dec (in_line q));
        eating := filter alive (map dec (eating q ++ fresh_eating n a r)) |},
     rng_skip n r).
Proof.
  intros dec n. unfold serve_hall.
  rewrite decrement_from_spec.
  pose proof (seat_all_marked a (map dec (in_line q)) [] (eating q) 0 0 r eq_refl)
    as Hseat.
  simpl app in Hseat. fold n in Hseat. subst dec. cbv beta in *.
  rewrite Hseat.
  pose proof (decrement_pop_filter delta (eating q ++ fresh_eating n a r)) as H.
  destruct (decrement_from 0 delta (eating q ++ fresh_eating n a r)) as [eat2 tr].
  simpl in H. rewrite H. reflexivity.
Qed.

Lemma Hall_eqb_eq (a b : Hall) : Hall_eqb a b = true <-> a = b.
Proof. destruct a, b; simpl; split; intro H; try reflexivity; discriminate. Qed.

Lemma Hall_eqb_refl (h : Hall) : Hall_eqb h h = true.
Proof. now apply Hall_eqb_eq. Qed.

Lemma Hall_eqb_neq (a b : Hall) : a <> b -> Hall_eqb a b = false.
Proof.
  intro H. destruct (Hall_eqb a b) eqn:E; [|reflexivity].
  apply Hall_eqb_eq in E. contradiction.
Qed.

Lemma DINING_HALLS_NoDup : NoDup DINING_HALLS.
Proof.
  unfold DINING_HALLS.
  repeat (constructor; [simpl; intuition discriminate|]). constructor.
Qed.

Lemma DINING_HALLS_complete (h : Hall) : In h DINING_HALLS.
Proof. destruct h; simpl; auto 10. Qed.

(** ** Steps 4 and 5 *)

Lemma hall_queues_set (m : HallMap) (h : Hall) (q : Queues) (h' : Hall) :
  set_queues m h q h' = if Hall_eqb h' h then q else m h'.
Proof. destruct h, h'; reflexivity. Qed.

Lemma serve_halls_spec (delta : Q) (a : Args) (h : Hall) (hs : list Hall) :
  forall (halls : HallMap) (r : Rng),
    NoDup hs ->
    exists r_h,
      fst (serve_halls hs delta a halls r) h
      = if existsb (Hall_eqb h) hs
        then fst (serve_hall delta a (halls h) r_h)
        else halls h.
Proof.
  induction hs as [|h0 hs IH]; intros halls r Hnd; simpl.
  - exists r. reflexivity.
  - inversion Hnd as [|? ? Hnotin Hnd']; subst.
    destruct (serve_hall delta a (halls h0) r) as [q r'] eqn:Hq.
    destruct (IH (set_queues halls h0 q) r' Hnd') as [r_h Hr_h].
    destruct (Hall_eqb h h0) eqn:Heq; simpl.
    + apply Hall_eqb_eq in Heq. subst h0.
      exists r. rewrite Hr_h.
      assert (Hex : existsb (Hall_eqb h) hs = false).
      { destruct (existsb (Hall_eqb h) hs) eqn:E; [|reflexivity].
        apply existsb_exists in E. destruct E as [x [Hin Hx]].
        apply Hall_eqb_eq in Hx. subst x. contradiction. }
      rewrite Hex, hall_queues_set, Hall_eqb_refl.
      rewrite Hq. reflexivity.
    + exists r_h. rewrite Hr_h, hall_queues_set, Heq. reflexivity.
Qed.


(** ** Step 3 *)

Lemma time_in_line_value (a : Args) (n : nat) (r : Rng) :
  fst (time_in_line a n r)
  = Qmin (Qmax (inject_Z (Z.of_nat n * line_time a) + rng_peek r * 10) 0 / 60) 60.
Proof. reflexivity. Qed.

Lemma time_in_line_range (a : Args) (n : nat) (r : Rng) :
  (0 <= fst (time_in_line a n r) <= 60)%Q.
Proof.
  rewrite time_in_line_value.
  set (g := (inject_Z (Z.of_nat n * line_time a) + rng_peek r * 10)%Q).
  split.
  - apply Q.min_glb; [|discriminate].
    apply Qle_shift_div_l; [reflexivity|].
    rewrite Qmult_0_l. apply Q.le_max_r.
  - apply Q.le_min_r.
Qed.

Lemma arrive_loop_cons (index : nat) (a : Args) (p : Person)
    (people : list Person) (halls : HallMap) (r : Rng) :
  arrive_loop index a (p :: people) halls r
  = match first_hall p with
    | Some h =>
        let '(t, r') := time_in_line a (List.length (in_line (halls h))) r in
        let '(halls', r'', to_remove) :=
          arrive_loop (S index) a people (push_line halls h t) r' in
        (halls', r'', index :: to_remove)
    | None => arrive_loop (S index) a people halls r
    end.
Proof. reflexivity. Qed.

Lemma arrive_loop_spec (a : Args) (people : list Person) :
  forall (index : nat) (halls : HallMap) (r : Rng),
    snd (arrive_loop index a people halls r) = marked_from arrived index people /\
    forall h,
      let halls' := fst (fst (arrive_loop index a people halls r)) in
      eating (halls' h) = eating (halls h) /\
      exists new,
        in_line (halls' h) = in_line (halls h) ++ new /\
        List.length new = List.length (filter (arrives_at h) people) /\
        new = line_waits a h (List.length (in_line (halls h))) r people /\
        Forall (fun t => 0 <= t <= 60)%Q new.
Proof.
  induction people as [|p people IH]; intros index halls r.
  - simpl. split; [reflexivity|]. intros h. split; [reflexivity|].
    exists []. rewrite app_nil_r. repeat split; constructor.
  - rewrite arrive_loop_cons. cbn [marked_from filter line_waits].
    unfold arrived at 1. unfold arrives_at at 1.
    destruct (first_hall p) as [h0|] eqn:Hfind.
    + destruct (time_in_line a (List.length (in_line (halls h0))) r)
        as [t r'] eqn:Ht.
      assert (Htv : t = wait_of a (List.length (in_line (halls h0))) (rng_peek r))
        by (change (t = fst (time_in_line a (List.length (in_line (halls h0))) r));
            now rewrite Ht).
      assert (Hrv : r' = rng_next r)
        by (change (r' = snd (time_in_line a (List.length (in_line (halls h0))) r));
            now rewrite Ht).
      specialize (IH (S index) (push_line halls h0 t) r').
      destruct (arrive_loop (S index) a people (push_line halls h0 t) r')
        as [[halls' r''] to_remove].
      cbn [fst snd] in IH. destruct IH as [IHidx IHh]. cbn [fst snd].
      split; [now rewrite IHidx|].
      intros h. destruct (IHh h) as [Heat [new [Hline [Hlen [Hpush Hrange]]]]].
      cbv zeta.
      destruct (Hall_eqb h0 h) eqn:Heq.
      * apply Hall_eqb_eq in Heq. subst h0.
        unfold push_line in Heat, Hline, Hpush.
        rewrite hall_queues_set, Hall_eqb_refl in Heat, Hline, Hpush.
        cbn [in_line eating] in Heat, Hline, Hpush.
        split; [exact Heat|].
        exists (t :: new). rewrite <- app_assoc in Hline.
        split; [exact Hline|]. split; [cbn [List.length]; now rewrite Hlen|].
        split.
        -- rewrite length_app in Hpush. cbn [List.length] in Hpush.
           rewrite Nat.add_1_r in Hpush. now rewrite Hpush, Htv, Hrv.
        -- constructor; [|exact Hrange].
           change t with (fst (t, r')). rewrite <- Ht.
           apply time_in_line_range.
      * assert (Hne : Hall_eqb h h0 = false).
        { destruct (Hall_eqb h h0) eqn:E; [|reflexivity].
          apply Hall_eqb_eq in E. subst h. now rewrite Hall_eqb_refl in Heq. }
        unfold push_line in Heat, Hline, Hpush.
        rewrite hall_queues_set, Hne in Heat, Hline, Hpush.
        split; [exact Heat|].
        exists new. rewrite Hrv in Hpush. repeat split; assumption.
    + apply IH.
Qed.

(** The [j]-th wait appended to a line: its base is the length the line
    has by then, its noise one of the variates the arrivals read. *)
Lemma line_waits_nth (a : Args) (h : Hall) (people : list Person) :
  forall (n : nat) (r : Rng) (j : nat) (t : Q),
    nth_error (line_waits a h n r people) j = Some t ->
    exists k,
      k < List.length (filter arrived people) /\
      t = wait_of a (n + j) (draws r (pos r + k)).
Proof.
  induction people as [|p ps IH]; intros n r j t Hj.
  - destruct j; discriminate Hj.
  - cbn [line_waits filter] in *. unfold arrived at 1.
    destruct (first_hall p) as [h0|].
    + destruct (Hall_eqb h0 h).
      * destruct j as [|j].
        -- cbn [nth_error] in Hj. inversion Hj. exists 0.
           cbn [List.length]. split; [lia|].
           now rewrite !Nat.add_0_r.
        -- cbn [nth_error] in Hj. destruct (IH _ _ _ _ Hj) as (k & Hk & Ht).
           exists (S k). cbn [List.length]. split; [lia|].
           rewrite Ht. cbn [rng_next draws pos].
           replace (S n + j) with (n + S j) by lia.
           now replace (S (pos r) + k) with (pos r + S k) by lia.
      * destruct (IH _ _ _ _ Hj) as (k & Hk & Ht).
        exists (S k). cbn [List.length]. split; [lia|].
        rewrite Ht. cbn [rng_next draws pos].
        now replace (S (pos r) + k) with (pos r + S k) by lia.
    + apply (IH _ _ _ _ Hj).
Qed.

(** [arrive_step] in closed form, on the outside list. *)
Lemma arrive_step_outside (a : Args) (people : list Person)
    (halls : HallMap) (r : Rng) :
  fst (fst (arrive_step a people halls r))
  = filter (fun p => negb (arrived p)) people.
Proof.
  unfold arrive_step.
  destruct (arrive_loop_spec a people 0 halls r) as [Hidx _].
  destruct (arrive_loop 0 a people halls r) as [[halls' r'] to_remove].
  simpl in *. subst to_remove.
  apply (pop_all_marked arrived people [] 0 0). reflexivity.
Qed.

Lemma arrive_step_halls (a : Args) (people : list Person)
    (halls : HallMap) (r : Rng) :
  snd (fst (arrive_step a people halls r))
  = fst (fst (arrive_loop 0 a people halls r)).
Proof.
  unfold arrive_step.
  destruct (arrive_loop 0 a people halls r) as [[halls' r'] to_remove].
  reflexivity.
Qed.

(** C8. Every wait appended to a hall's line by the arrival step lies in
    [0, 60] minutes, and its pre-noise base is the length of that line at
    the moment of insertion times [line_time]: the [j]-th wait appended
    to a line of [n] entries is [wait_of] at the length [n + j] and at the
    variate its arrival reads from the generator ([line_waits] gives the
    whole sequence). *)
Theorem arrival_waits_bounded
    (a : Args) (people : list Person) (halls : HallMap) (r : Rng) (h : Hall) :
  let halls' := snd (fst (arrive_step a people halls r)) in
  let n := List.length (in_line (halls h)) in
  let new := line_waits a h n r people in
  in_line (halls' h) = in_line (halls h) ++ new /\
  Forall (fun t => 0 <= t <= 60)%Q new /\
  forall j t,
    nth_error new j = Some t ->
    exists k,
      k < List.length (filter arrived people) /\
      t = Qmin (Qmax (inject_Z (Z.of_nat (n + j) * line_time a)
                      + draws r (pos r + k) * 10) 0 / 60) 60.
Proof.
  intros halls' n new. subst halls' n new. rewrite arrive_step_halls.
  destruct (arrive_loop_spec a people 0 halls r) as [_ Hh].
  destruct (Hh h) as [_ [new [Hline [_ [Hnew Hrange]]]]].
  cbv zeta in Hline. subst new.
  split; [exact Hline|]. split; [exact Hrange|].
  intros j t Hj. exact (line_waits_nth a h people _ r j t Hj).
Qed.

(** C9. The arrival step tests every outside person against the whole
    catalogue, in catalogue order, and never looks at the clock: when [h]
    is the first hall a person [p] is within 100 m of, and [h] is closed at
    minute [m], [p] still leaves the outside list and the line of [h]
    grows by one entry per such person. *)
Theorem arrival_at_closed_hall
    (a : Args) (people : list Person) (halls : HallMap) (r : Rng)
    (m : Q) (p : Person) (h : Hall) :
  In p people ->
  first_hall p = Some h ->
  ~ In h (open_halls m) ->
  let people' := fst (fst (arrive_step a people halls r)) in
  let halls' := snd (fst (arrive_step a people halls r)) in
  people' = filter (fun p => negb (arrived p)) people /\
  ~ In p people' /\
  List.length (in_line (halls' h))
  = List.length (in_line (halls h)) + List.length (filter (arrives_at h) people) /\
  1 <= List.length (filter (arrives_at h) people).
Proof.
  intros Hin Hfirst _ people' halls'. subst people' halls'.
  rewrite arrive_step_outside, arrive_step_halls.
  destruct (arrive_loop_spec a people 0 halls r) as [_ Hh].
  destruct (Hh h) as [_ [new [Hline [Hlen _]]]].
  split; [reflexivity|]. split; [|split].
  - intros Hp. apply filter_In in Hp. destruct Hp as [_ Hp].
    unfold arrived in Hp. rewrite Hfirst in Hp. discriminate.
  - rewrite Hline, length_app, Hlen. reflexivity.
  - assert (Hp : In p (filter (arrives_at h) people)).
    { apply filter_In. split; [exact Hin|].
      unfold arrives_at. rewrite Hfirst. apply Hall_eqb_refl. }
    destruct (filter (arrives_at h) people); [contradiction|simpl; lia].
Qed.

(** ** [random.choices] and [choose_dest] *)

Lemma bisect_loop_bounds (a : list Q) (x : Q) (fuel : nat) :
  forall lo hi, lo <= hi -> lo <= bisect_loop fuel a x lo hi <= hi.
Proof.
  induction fuel as [|fuel IH]; intros lo hi Hle; cbn [bisect_loop]; [lia|].
  destruct (lo <? hi) eqn:Hlt; [|lia].
  apply Nat.ltb_lt in Hlt.
  assert (Hmid : lo <= (lo + hi) / 2 < hi).
  { split.
    - apply Nat.div_le_lower_bound; lia.
    - apply Nat.Div0.div_lt_upper_bound; lia. }
  destruct (Qlt_bool x (nth ((lo + hi) / 2) a 0%Q)).
  - pose proof (IH lo ((lo + hi) / 2) (proj1 Hmid)). lia.
  - pose proof (IH (S ((lo + hi) / 2)) hi (proj2 Hmid)). lia.
Qed.

Lemma accumulate_from_length (ws : list Q) :
  forall acc, List.length (accumulate_from acc ws) = List.length ws.
Proof.
  induction ws as [|w ws IH]; intros acc; simpl; [reflexivity|].
  now rewrite IH.
Qed.

Lemma accumulate_length (ws : list Q) :
  List.length (accumulate ws) = List.length ws.
Proof.
  destruct ws as [|w ws]; simpl; [reflexivity|].
  now rewrite accumulate_from_length.
Qed.

Lemma accumulate_from_last (ws : list Q) :
  forall acc d, (last (acc :: accumulate_from acc ws) d == acc + Qsum ws)%Q.
Proof.
  induction ws as [|w ws IH]; intros acc d.
  - simpl. ring.
  - change (last (acc :: accumulate_from acc (w :: ws)) d)
      with (last ((acc + w)%Q :: accumulate_from (acc + w)%Q ws) d).
    rewrite IH. simpl. ring.
Qed.

Lemma accumulate_last (ws : list Q) :
  (last (accumulate ws) 0 == Qsum ws)%Q.
Proof.
  destruct ws as [|w ws]; [reflexivity|].
  simpl accumulate. rewrite accumulate_from_last. reflexivity.
Qed.

Lemma Qsum_nonneg (ws : list Q) :
  Forall (fun w => 0 <= w)%Q ws -> (0 <= Qsum ws)%Q.
Proof.
  induction 1 as [|w ws Hw _ IH]; simpl; [discriminate|].
  replace 0%Q with (0 + 0)%Q by reflexivity.
  now apply Qplus_le_compat.
Qed.

Lemma Qsum_zero (ws : list Q) :
  Forall (fun w => w == 0)%Q ws -> (Qsum ws == 0)%Q.
Proof.
  induction 1 as [|w ws Hw _ IH]; simpl; [reflexivity|].
  rewrite Hw, IH. reflexivity.
Qed.

Lemma Qsum_pos (ws : list Q) :
  Forall (fun w => 0 <= w)%Q ws -> Exists (fun w => 0 < w)%Q ws ->
  (0 < Qsum ws)%Q.
Proof.
  induction 1 as [|w ws Hw Hws IH]; intros Hex; inversion Hex; subst; simpl.
  - apply Qlt_le_trans with (w + 0)%Q.
    + now rewrite Qplus_0_r.
    + apply Qplus_le_compat; [apply Qle_refl | now apply Qsum_nonneg].
  - apply Qlt_le_trans with (0 + Qsum ws)%Q.
    + rewrite Qplus_0_l. now apply IH.
    + apply Qplus_le_compat; [exact Hw | apply Qle_refl].
Qed.

(** [random.choices] raises exactly when the weights do not sum to a
    positive total; otherwise it returns a member of the population and
    reads one variate. *)
Lemma random_choices_spec {A : Type} (population : list A) (weights : list Q)
    (r : Rng) :
  List.length weights = List.length population ->
  population <> [] ->
  ((Qsum weights <= 0)%Q /\ random_choices population weights r = Raise ValueError)
  \/
  ((0 < Qsum weights)%Q /\
   exists x, In x population /\
             random_choices population weights r = Ok (x, rng_next r)).
Proof.
  intros Hlen Hne. unfold random_choices.
  rewrite accumulate_length, Hlen, Nat.eqb_refl. simpl negb. cbv iota.
  assert (Htot : (last (accumulate weights) 0 + 0 == Qsum weights)%Q)
    by (rewrite accumulate_last; ring).
  destruct (Qle_bool (last (accumulate weights) 0 + 0)%Q 0%Q) eqn:Hle.
  - left. split; [|reflexivity].
    apply Qle_bool_iff in Hle. now rewrite <- Htot.
  - right. split.
    + apply Qnot_le_lt. intros Hc. rewrite <- Htot in Hc.
      apply Qle_bool_iff in Hc. congruence.
    + simpl.
      set (idx := bisect _ _ _ _).
      assert (Hidx : idx < List.length population).
      { subst idx. unfold bisect.
        pose proof (bisect_loop_bounds (accumulate weights)
                      (rng_peek r * (last (accumulate weights) 0 + 0))%Q
                      (S (List.length (accumulate weights))) 0
                      (List.length population - 1) (Nat.le_0_l _)) as Hb.
        destruct population; [contradiction|]. simpl in *. lia. }
      destruct (nth_error population idx) as [x|] eqn:Hnth.
      * exists x. split; [eapply nth_error_In; eassumption|reflexivity].
      * apply nth_error_None in Hnth. lia.
Qed.

Lemma Qsum_pos_exists (ws : list Q) :
  (0 < Qsum ws)%Q -> Exists (fun w => 0 < w)%Q ws.
Proof.
  induction ws as [|w ws IH]; simpl; intros Hpos.
  - discriminate.
  - destruct (Qlt_le_dec 0 w) as [Hw|Hw].
    + now left.
    + right. apply IH.
      apply Qlt_le_trans with (w + Qsum ws)%Q; [exact Hpos|].
      rewrite <- (Qplus_0_l (Qsum ws)) at 2.
      apply Qplus_le_compat; [exact Hw | apply Qle_refl].
Qed.

(** With a positive total of distances, [choose_dest] returns: it reads
    one variate and sets a destination among [choices]. *)
Lemma choose_dest_returns (p : Person) (choices : list Hall) (r : Rng) :
  choices <> [] ->
  (0 < Qsum (dest_weights p choices))%Q ->
  exists h,
    In h choices /\
    choose_dest p choices r = Ok (set_destination p (Some h), rng_next r).
Proof.
  intros Hne Hpos.
  assert (Hlen : List.length (dest_weights p choices) = List.length choices)
    by apply length_map.
  destruct (random_choices_spec choices (dest_weights p choices) r Hlen Hne)
    as [[Hle _]|[_ [h [Hin Hok]]]].
  - exfalso. apply (Qlt_not_le _ _ Hpos Hle).
  - exists h. split; [exact Hin|].
    destruct choices; [contradiction|]. cbn [choose_dest]. now rewrite Hok.
Qed.

(** C10. On a non-empty [choices] whose halls are all at distance zero
    from the person, [choose_dest] raises ([ValueError], from
    [random.choices]) and assigns nothing; on a non-empty [choices] it
    returns exactly when some hall of [choices] is at a strictly positive
    distance. Distances are great-circle lengths, hence never negative. *)
Theorem choose_dest_zero_weights_raises
    (p : Person) (choices : list Hall) (r : Rng) :
  choices <> [] ->
  (forall h, In h choices -> (0 <= get_distance (loc p) (hall_location h))%Q) ->
  ((forall h, In h choices -> (get_distance (loc p) (hall_location h) == 0)%Q) ->
   choose_dest p choices r = Raise ValueError) /\
  ((exists res, choose_dest p choices r = Ok res) <->
   (exists h, In h choices /\ (0 < get_distance (loc p) (hall_location h))%Q)).
Proof.
  intros Hne Hnonneg.
  assert (Hlen : List.length (dest_weights p choices) = List.length choices)
    by apply length_map.
  assert (Hall : Forall (fun w => 0 <= w)%Q (dest_weights p choices)).
  { apply Forall_forall. intros w Hw. apply in_map_iff in Hw.
    destruct Hw as [h [<- Hh]]. now apply Hnonneg. }
  pose proof (random_choices_spec choices (dest_weights p choices) r Hlen Hne)
    as Hspec.
  assert (Hcd : choose_dest p choices r
                = ('(h, r') <- random_choices choices (dest_weights p choices) r ;;
                   Ok (set_destination p (Some h), r'))).
  { destruct choices; [contradiction|reflexivity]. }
  split.
  - intros Hzero.
    assert (Hz : (Qsum (dest_weights p choices) == 0)%Q).
    { apply Qsum_zero. apply Forall_forall. intros w Hw.
      apply in_map_iff in Hw. destruct Hw as [h [<- Hh]]. now apply Hzero. }
    destruct Hspec as [[_ Hraise]|[Hpos _]].
    + rewrite Hcd, Hraise. reflexivity.
    + rewrite Hz in Hpos. discriminate.
  - split.
    + intros [res Hres].
      destruct Hspec as [[_ Hraise]|[Hpos _]].
      * rewrite Hcd, Hraise in Hres. discriminate.
      * apply Qsum_pos_exists in Hpos. apply Exists_exists in Hpos.
        destruct Hpos as [w [Hw Hwpos]]. apply in_map_iff in Hw.
        destruct Hw as [h [<- Hh]]. exists h. now split.
    + intros [h [Hh Hhpos]].
      assert (Hpos : (0 < Qsum (dest_weights p choices))%Q).
      { apply Qsum_pos; [exact Hall|]. apply Exists_exists.
        exists (get_distance (loc p) (hall_location h)). split; [|exact Hhpos].
        apply in_map_iff. exists h. now split. }
      destruct Hspec as [[Hle _]|[_ [x [_ Hok]]]].
      * exfalso. apply (Qlt_not_le _ _ Hpos Hle).
      * rewrite Hcd, Hok. simpl. eexists. reflexivity.
Qed.

(** ** Step 1 *)

Lemma spawn_one_appends (a : Args) (l : Loc) (open_dining_halls : list Hall)
    (people people' : list Person) (r r' : Rng) :
  spawn_one a l open_dining_halls people r = Ok (people', r') ->
  exists person, people' = people ++ [person].
Proof.
  unfold spawn_one. simpl.
  destruct open_dining_halls as [|h hs].
  - intros H. inversion H. eexists. reflexivity.
  - destruct (choose_dest _ _ _) as [[person r2]|e]; simpl; intros H;
      inversion H. eexists. reflexivity.
Qed.

Lemma spawn_many_appends (a : Args) (l : Loc) (open_dining_halls : list Hall)
    (n : nat) :
  forall (people people' : list Person) (r r' : Rng),
    spawn_many n a l open_dining_halls people r = Ok (people', r') ->
    exists new, people' = people ++ new /\ List.length new = n.
Proof.
  induction n as [|n IH]; intros people people' r r'; simpl.
  - intros H. inversion H. exists []. now rewrite app_nil_r.
  - destruct (spawn_one a l open_dining_halls people r) as [[people1 r1]|e]
      eqn:Hone; simpl; [|discriminate].
    intros H. apply spawn_one_appends in Hone. destruct Hone as [person ->].
    apply IH in H. destruct H as [new [-> Hlen]].
    exists (person :: new). rewrite <- app_assoc. simpl. now rewrite Hlen.
Qed.

Lemma spawn_one_returns (a : Args) (l : Loc) (open_dining_halls : list Hall)
    (people : list Person) (r : Rng) :
  can_choose l open_dining_halls ->
  exists person r',
    spawn_one a l open_dining_halls people r = Ok (people ++ [person], r').
Proof.
  intros Hcan. unfold spawn_one, random_gauss.
  destruct open_dining_halls as [|h hs].
  - do 2 eexists. reflexivity.
  - destruct Hcan as [Hnil|Hpos]; [discriminate|].
    set (person := new_person l _). set (r1 := rng_next r).
    destruct (choose_dest_returns person (h :: hs) r1) as [h' [_ Hok]];
      [discriminate | exact Hpos |].
    rewrite Hok. do 2 eexists. reflexivity.
Qed.

Lemma spawn_many_returns (a : Args) (l : Loc) (open_dining_halls : list Hall)
    (n : nat) :
  can_choose l open_dining_halls ->
  forall (people : list Person) (r : Rng),
  exists after r',
    spawn_many n a l open_dining_halls people r = Ok (after, r').
Proof.
  intros Hcan. induction n as [|n IH]; intros people r; cbn [spawn_many].
  - do 2 eexists. reflexivity.
  - destruct (spawn_one_returns a l open_dining_halls people r Hcan)
      as [person [r' Hone]].
    rewrite Hone. cbn [bind]. apply IH.
Qed.

Lemma conversion_rate_pos (m : Q) : (0 < conversion_rate m)%Q.
Proof. unfold conversion_rate. destruct (Qle_bool _ _); reflexivity. Qed.

Lemma py_int_floor (x : Q) : (0 <= Qfloor x)%Z -> py_int x = Qfloor x.
Proof.
  destruct x as [n d]. unfold py_int, Qfloor. simpl. intros H.
  assert (Hn : (0 <= n)%Z).
  { destruct (Z.neg_nonneg_cases n) as [Hneg|]; [|assumption].
    pose proof (Z.div_lt_upper_bound n (Z.pos d) 0 ltac:(lia) ltac:(lia)). lia. }
  apply Z.quot_div_nonneg; lia.
Qed.

Lemma py_int_neg (x : Q) : (x < 0)%Q -> (py_int x <= 0)%Z.
Proof.
  destruct x as [n d]. unfold py_int, Qlt. simpl. intros H.
  assert (Hn : (n < 0)%Z) by lia.
  replace n with (- (- n))%Z by lia.
  rewrite Z.quot_opp_l by lia.
  pose proof (Z.quot_pos (- n) (Z.pos d) ltac:(lia) ltac:(lia)). lia.
Qed.

(** C7. For a spawn event that is processed (its classroom resolves to a
    location inside the bounding box), whenever the spawning returns, the
    persons it appended are [floor(people * conversion_rate)] many when
    that floor is not negative, and none when [people] is negative; and it
    does return when no hall is open or the classroom is at a positive
    total distance from the open halls. *)
Theorem spawn_count_is_floor
    (a : Args) (ld : LocationData) (m : Q) (open_dining_halls : list Hall)
    (course : EndEntry) (before : list Person) (r : Rng) (raw : RawLoc) :
  dict_get String.eqb (location_string course) ld = Some raw ->
  loc_eqb (convert_str_to_loc raw) (0, 0)%Q
    || negb (in_bounds (convert_str_to_loc raw)) = false ->
  let x := (inject_Z (people course) * conversion_rate m)%Q in
  (forall after r',
     spawn_course a ld m open_dining_halls course before r = Ok (after, r') ->
     exists new,
       after = before ++ new /\
       ((0 <= Qfloor x)%Z -> Z.of_nat (List.length new) = Qfloor x) /\
       ((people course < 0)%Z -> new = [])) /\
  (can_choose (convert_str_to_loc raw) open_dining_halls ->
   exists after r',
     spawn_course a ld m open_dining_halls course before r = Ok (after, r')).
Proof.
  intros Hget Hloc x. unfold spawn_course. rewrite Hget, Hloc. split.
  - intros after r' Hspawn.
    apply spawn_many_appends in Hspawn. destruct Hspawn as [new [-> Hlen]].
    exists new. split; [reflexivity|].
    unfold num_spawned in Hlen. fold x in Hlen. split.
    + intros Hfloor. rewrite Hlen. unfold range_len.
      rewrite (py_int_floor x Hfloor). now apply Z2Nat.id.
    + intros Hneg.
      assert (Hx : (x < 0)%Q).
      { subst x. rewrite <- (Qmult_0_l (conversion_rate m)).
        apply Qmult_lt_compat_r; [apply conversion_rate_pos|].
        unfold Qlt. simpl. lia. }
      apply py_int_neg in Hx. unfold range_len in Hlen.
      destruct new; [reflexivity|]. simpl in Hlen. lia.
  - intros Hcan. now apply spawn_many_returns.
Qed.

(** ** The clock *)

(** Steps 1 to 5 never touch the clock, the day or the inputs, and a tick
    that gets that far returns [True]. *)
Lemma run_steps_clock (delta : Q) (s : SimState) (t : Tick) :
  run_steps delta s = Ok t ->
  exists s',
    t = Running s' /\
    current_minute s' = current_minute s /\
    current_day s' = current_day s /\
    args s' = args s /\
    end_times s' = end_times s /\
    location_data s' = location_data s.
Proof.
  unfold run_steps.
  destruct (spawn_step _ _ _ _ _ _ _) as [[people1 r1]|e]; simpl; [|discriminate].
  destruct (move_step _ _ _ _) as [[people2 r2]|e]; simpl; [|discriminate].
  destruct (arrive_step _ _ _ _) as [[people3 halls3] r3].
  destruct (service_step _ _ _ _) as [halls4 r4].
  destruct (append_log _ _ _) as [lg|e]; simpl; [|discriminate].
  intros H. inversion H. eexists. repeat split; reflexivity.
Qed.

(** One tick, on the clock: the new minute is the old one plus the
    interval, or [DAY_START_TIME] when that sum reaches [DAY_END_TIME]. *)
Lemma iterate_clock (s s' : SimState) :
  iterate s = Ok (Running s') ->
  args s' = args s /\
  let m := advance (current_minute s) (time_interval (args s)) in
  current_minute s'
  = if Qle_bool (inject_Z DAY_END_TIME) m then inject_Z DAY_START_TIME else m.
Proof.
  unfold iterate.
  destruct (Qle_bool _ _) eqn:Hend.
  - destruct (get_next_day _ _) as [[[day people] halls]|e]; simpl; [|discriminate].
    destruct day as [d|]; [|discriminate].
    intros H. apply run_steps_clock in H.
    destruct H as [s1 [Ht [Hm [_ [Ha _]]]]]. inversion Ht; subst s1.
    rewrite Hm, Ha. split; reflexivity.
  - intros H. apply run_steps_clock in H.
    destruct H as [s1 [Ht [Hm [_ [Ha _]]]]]. inversion Ht; subst s1.
    rewrite Hm, Ha. split; reflexivity.
Qed.

Lemma advance_eq (q : Q) (z : Z) : (advance q z == q + inject_Z z / 60)%Q.
Proof. apply Qred_correct. Qed.

Lemma interval_at_least_a_minute (z : Z) :
  (60 <= z)%Z -> (1 <= inject_Z z / 60)%Q.
Proof.
  intros Hz. apply Qle_shift_div_l; [reflexivity|].
  unfold Qle. simpl. lia.
Qed.

Lemma tick_clock_in_day (q : Q) (z : Z) :
  (inject_Z (DAY_START_TIME - 1) <= q)%Q -> (60 <= z)%Z ->
  let m := advance q z in
  in_day (if Qle_bool (inject_Z DAY_END_TIME) m then inject_Z DAY_START_TIME else m).
Proof.
  intros Hq Hz m. destruct (Qle_bool _ _) eqn:Hend.
  - split; [apply Qle_refl|reflexivity].
  - split.
    + subst m. rewrite advance_eq.
      apply Qle_trans with (inject_Z (DAY_START_TIME - 1) + 1)%Q;
        [discriminate|].
      apply Qplus_le_compat; [exact Hq | now apply interval_at_least_a_minute].
    + apply Qnot_le_lt. intros Hc. apply Qle_bool_iff in Hc. congruence.
Qed.

Lemma reachable_clock (et : EndTimes) (ld : LocationData) (a : Args)
    (seed : Rng) (s : SimState) :
  (60 <= time_interval a)%Z ->
  reachable (init et ld a seed) s ->
  args s = a /\
  (inject_Z (DAY_START_TIME - 1) <= current_minute s)%Q.
Proof.
  intros Hti. induction 1 as [|s s' Hreach [IHa IHm] Hstep].
  - split; [reflexivity|apply Qle_refl].
  - apply iterate_clock in Hstep. destruct Hstep as [Ha Hm]. simpl in Hm.
    split; [congruence|]. rewrite Hm.
    rewrite <- IHa in Hti.
    destruct (tick_clock_in_day (current_minute s) (time_interval (args s))
                IHm Hti) as [Hlo _].
    apply Qle_trans with (inject_Z DAY_START_TIME); [discriminate|exact Hlo].
Qed.

(** C4, as the code has it. With a tick interval of at least 60 seconds
    (the default), every state returned by a tick from a reachable state
    has its minute in [[DAY_START_TIME, DAY_END_TIME)]. The initial state
    itself sits one minute before [DAY_START_TIME]. *)
Theorem minute_in_day_after_tick
    (et : EndTimes) (ld : LocationData) (a : Args) (seed : Rng)
    (s s' : SimState) :
  (60 <= time_interval a)%Z ->
  reachable (init et ld a seed) s ->
  iterate s = Ok (Running s') ->
  in_day (current_minute s') /\
  current_minute (init et ld a seed) = inject_Z (DAY_START_TIME - 1).
Proof.
  intros Hti Hreach Hstep.
  destruct (reachable_clock et ld a seed s Hti Hreach) as [Ha Hm].
  apply iterate_clock in Hstep. destruct Hstep as [_ Hm']. simpl in Hm'.
  split; [|reflexivity]. rewrite Hm'. apply tick_clock_in_day; [exact Hm|].
  now rewrite Ha.
Qed.

(** ** Day rollover *)

Lemma nth_error_list_set {A : Type} (v : A) (l : list A) :
  forall i, i < List.length l -> nth_error (list_set i v l) i = Some v.
Proof.
  induction l as [|x l IH]; intros i Hi; simpl in Hi; [lia|].
  destruct i as [|i]; simpl; [reflexivity|].
  apply IH. lia.
Qed.

Lemma append_log_ok (d : nat) (snap : Snapshot) (lg : list (list Snapshot)) :
  d <= List.length lg ->
  exists old lg',
    append_log (Some d) snap lg = Ok lg' /\
    nth_error lg' d = Some (old ++ [snap]).
Proof.
  intros Hd. unfold append_log.
  destruct (d =? List.length lg) eqn:Heq.
  - apply Nat.eqb_eq in Heq. subst d.
    rewrite nth_error_app2 by lia. rewrite Nat.sub_diag. simpl.
    exists [], (list_set (List.length lg) [snap] (lg ++ [[]])).
    split; [reflexivity|].
    apply nth_error_list_set. rewrite length_app. simpl. lia.
  - apply Nat.eqb_neq in Heq.
    destruct (nth_error lg d) as [day_log|] eqn:Hnth.
    + exists day_log, (list_set d (day_log ++ [snap]) lg).
      split; [reflexivity|].
      apply nth_error_list_set. lia.
    + apply nth_error_None in Hnth. lia.
Qed.

Lemma service_step_empty (delta : Q) (a : Args) (r : Rng) :
  service_step delta a empty_halls r = (empty_halls, r).
Proof. reflexivity. Qed.

(** C2, as the code has it. On a tick whose clock advance reaches
    [DAY_END_TIME] while another configured day remains, and when no
    schedule bucket is keyed at [DAY_START_TIME] itself, the tick returns
    [True], the day index grows by one, nobody is left outside or in a
    hall, and the row it appends to the new day's log has the minute
    [DAY_START_TIME] and all counts zero. *)
Theorem rollover_snapshot (s : SimState) (d : nat) :
  (inject_Z DAY_END_TIME
   <= current_minute s + inject_Z (time_interval (args s)) / 60)%Q ->
  current_day s = Some d ->
  S d < String.length (arg_days (args s)) ->
  S d <= List.length (log s) ->
  end_times_get (inject_Z DAY_START_TIME) (end_times s) = None ->
  exists s' old,
    iterate s = Ok (Running s') /\
    current_day s' = Some (S d) /\
    current_minute s' = inject_Z DAY_START_TIME /\
    outside_people s' = [] /\
    people_in_dining_halls s' = empty_halls /\
    nth_error (log s') (S d)
    = Some (old ++ [empty_snapshot (inject_Z DAY_START_TIME)]).
Proof.
  intros Hend Hday Hmore Hlog Hnone.
  unfold iterate. rewrite <- advance_eq in Hend.
  apply Qle_bool_iff in Hend. rewrite Hend.
  unfold get_next_day. rewrite Hday.
  assert (Hleb : (String.length (arg_days (args s)) <=? S d) = false)
    by (apply Nat.leb_gt; exact Hmore).
  rewrite Hleb. cbn [bind].
  unfold run_steps. cbn [current_minute end_times with_clock outside_people
                         args location_data rng people_in_dining_halls
                         current_day log].
  unfold spawn_step. rewrite Hnone. cbn [bind].
  unfold move_step. cbn [List.length move_loop bind].
  unfold arrive_step. cbn [arrive_loop pop_all].
  rewrite service_step_empty.
  destruct (append_log_ok (S d)
              (empty_snapshot (inject_Z DAY_START_TIME)) (log s) Hlog)
    as [old [lg' [Happ Hnth]]].
  change (take_snapshot (inject_Z DAY_START_TIME) [] empty_halls)
    with (empty_snapshot (inject_Z DAY_START_TIME)).
  rewrite Happ. cbn [bind].
  eexists. exists old. split; [reflexivity|].
  repeat split; try reflexivity. exact Hnth.
Qed.

(** ** Step 2 with nothing open *)

Lemma list_set_app {A : Type} (pre : list A) (v x : A) (l : list A) :
  list_set (List.length pre) v (pre ++ x :: l) = pre ++ v :: l.
Proof.
  induction pre as [|y pre IH]; cbn [List.length app list_set]; [reflexivity|].
  now rewrite IH.
Qed.

Lemma nth_error_middle {A : Type} (pre : list A) (x : A) (l : list A) :
  nth_error (pre ++ x :: l) (List.length pre) = Some x.
Proof.
  rewrite nth_error_app2 by lia. now rewrite Nat.sub_diag.
Qed.

(** The loop of step 2 while no hall is open, against the pass it
    performs: [fuel] as long as the list is enough. *)
Lemma move_loop_closed (a : Args) (people : list Person) :
  forall (skip : bool) (pre : list Person) (fuel : nat) (r : Rng),
    List.length people <= fuel + (if skip then 1 else 0) ->
    move_loop fuel (List.length pre + (if skip then 1 else 0)) a []
      (pre ++ people) r
    = Ok (pre ++ fst (closed_pass skip a people r),
          snd (closed_pass skip a people r)).
Proof.
  induction people as [|p ps IH]; intros skip pre fuel r Hfuel.
  - simpl. rewrite app_nil_r.
    destruct fuel as [|fuel]; simpl; [reflexivity|].
    assert (Hnone : nth_error pre (List.length pre + (if skip then 1 else 0))
                    = None) by (apply nth_error_None; lia).
    now rewrite Hnone.
  - destruct skip.
    + cbn [closed_pass].
      shift_head pre p ps.
      replace (List.length pre + 1) with (List.length (pre ++ [p]) + 0)
        by (rewrite length_app; simpl; lia).
      rewrite (IH false (pre ++ [p]) fuel r) by (simpl in *; lia).
      destruct (closed_pass false a ps r) as [kept r'].
      simpl. rewrite <- app_assoc. reflexivity.
    + simpl in Hfuel. destruct fuel as [|fuel]; [lia|].
      rewrite Nat.add_0_r. cbn [move_loop closed_pass].
      rewrite nth_error_middle.
      destruct (destination p) as [h|] eqn:Hp.
      * unfold person_move. rewrite Hp. cbn [bind].
        rewrite list_set_app. fold (step_toward a p h).
        shift_head pre (step_toward a p h) ps.
        replace (S (List.length pre))
          with (List.length (pre ++ [step_toward a p h]) + 0)
          by (rewrite length_app; simpl; lia).
        rewrite (IH false (pre ++ [step_toward a p h]) fuel r) by (simpl; lia).
        destruct (closed_pass false a ps r) as [kept r'].
        simpl. rewrite <- app_assoc. reflexivity.
      * unfold random_random. cbv zeta iota beta.
        destruct (Qlt_bool (rng_peek r) CONVERSION_RATE).
        -- rewrite list_pop_app.
           replace (S (List.length pre)) with (List.length pre + 1) by lia.
           apply (IH true pre fuel (rng_next r)). lia.
        -- shift_head pre p ps.
           replace (S (List.length pre)) with (List.length (pre ++ [p]) + 0)
             by (rewrite length_app; simpl; lia).
           rewrite (IH false (pre ++ [p]) fuel (rng_next r)) by (simpl; lia).
           destruct (closed_pass false a ps (rng_next r)) as [kept r'].
           simpl. rewrite <- app_assoc. reflexivity.
Qed.

Lemma move_step_closed (a : Args) (people : list Person) (r : Rng) :
  move_step a [] people r = Ok (closed_pass false a people r).
Proof.
  unfold move_step.
  pose proof (move_loop_closed a people false [] (List.length people) r)
    as Hloop.
  cbn [List.length Nat.add app] in Hloop. rewrite Hloop by lia.
  now destruct (closed_pass false a people r).
Qed.




(** ** Fuel *)

Lemma bisect_loop_S (fuel : nat) (a : list Q) (x : Q) (lo hi : nat) :
  bisect_loop (S fuel) a x lo hi
  = if lo <? hi then
      if Qlt_bool x (nth ((lo + hi) / 2) a 0%Q)
      then bisect_loop fuel a x lo ((lo + hi) / 2)
      else bisect_loop fuel a x (S ((lo + hi) / 2)) hi
    else lo.
Proof. reflexivity. Qed.

Lemma move_loop_S (fuel i : nat) (a : Args) (open_dining_halls : list Hall)
    (people : list Person) (r : Rng) :
  move_loop (S fuel) i a open_dining_halls people r
  = match nth_error people i with
    | None => Ok (people, r)
    | Some person =>
        match destination person, open_dining_halls with
        | None, [] =>
            let '(u, r') := random_random r in
            if Qlt_bool u CONVERSION_RATE
            then move_loop fuel (S i) a open_dining_halls (list_pop i people) r'
            else move_loop fuel (S i) a open_dining_halls people r'
        | None, _ :: _ =>
            '(person1, r') <- choose_dest person open_dining_halls r ;;
            person2 <- person_move person1
                         (inject_Z (time_interval a) * speed person1)%Q ;;
            move_loop fuel (S i) a open_dining_halls (list_set i person2 people) r'
        | Some _, _ =>
            person2 <- person_move person
                         (inject_Z (time_interval a) * speed person)%Q ;;
            move_loop fuel (S i) a open_dining_halls (list_set i person2 people) r
        end
    end.
Proof. reflexivity. Qed.

(** The fuel of the two bounded loops never decides their result. *)
Lemma bisect_loop_fuel (a : list Q) (x : Q) (fuel : nat) :
  forall lo hi,
    hi - lo < fuel ->
    bisect_loop (S fuel) a x lo hi = bisect_loop fuel a x lo hi.
Proof.
  induction fuel as [|fuel IH]; intros lo hi Hfuel; [lia|].
  rewrite (bisect_loop_S (S fuel) a x lo hi), (bisect_loop_S fuel a x lo hi).
  destruct (lo <? hi) eqn:Hlt; [|reflexivity].
  apply Nat.ltb_lt in Hlt.
  assert (Hmid : lo <= (lo + hi) / 2 < hi).
  { split.
    - apply Nat.div_le_lower_bound; lia.
    - apply Nat.Div0.div_lt_upper_bound; lia. }
  destruct (Qlt_bool x (nth ((lo + hi) / 2) a 0%Q)); apply IH; lia.
Qed.

Lemma list_pop_length {A : Type} (l : list A) :
  forall i, List.length (list_pop i l) <= List.length l.
Proof.
  induction l as [|x l IH]; intros i; simpl; [lia|].
  destruct i as [|i]; simpl; [lia|].
  specialize (IH i). lia.
Qed.

Lemma list_set_length {A : Type} (v : A) (l : list A) :
  forall i, List.length (list_set i v l) = List.length l.
Proof.
  induction l as [|x l IH]; intros i; simpl; [reflexivity|].
  destruct i as [|i]; simpl; [reflexivity|].
  now rewrite IH.
Qed.

Lemma move_loop_fuel (a : Args) (open_dining_halls : list Hall) (fuel : nat) :
  forall (i : nat) (people : list Person) (r : Rng),
    List.length people <= fuel + i ->
    move_loop (S fuel) i a open_dining_halls people r
    = move_loop fuel i a open_dining_halls people r.
Proof.
  induction fuel as [|fuel IH]; intros i people r Hfuel.
  - cbn [move_loop].
    assert (Hnone : nth_error people i = None) by (apply nth_error_None; lia).
    now rewrite Hnone.
  - rewrite (move_loop_S (S fuel) i), (move_loop_S fuel i).
    destruct (nth_error people i) as [person|]; [|reflexivity].
    destruct (destination person) as [h|].
    + destruct (person_move _ _) as [person2|e]; cbn [bind]; [|reflexivity].
      apply IH. rewrite list_set_length. lia.
    + destruct open_dining_halls as [|h hs].
      * unfold random_random. cbv zeta iota beta.
        destruct (Qlt_bool _ _); apply IH;
          [pose proof (list_pop_length people i)|]; lia.
      * destruct (choose_dest _ _ _) as [[person1 r']|e]; cbn [bind]; [|reflexivity].
        destruct (person_move _ _) as [person2|e]; cbn [bind]; [|reflexivity].
        apply IH. rewrite list_set_length. lia.
Qed.

(** * Further properties *)

(** ** The anatomy of a tick *)

(** A tick that gets through steps 1 to 5, taken apart. *)
Lemma run_steps_inv (delta : Q) (s : SimState) (t : Tick) :
  run_steps delta s = Ok t ->
  exists people1 r1 people2 r2 lg,
    spawn_step (end_times s) (args s) (location_data s) (current_minute s)
      (open_halls (current_minute s)) (outside_people s) (rng s)
    = Ok (people1, r1) /\
    move_step (args s) (open_halls (current_minute s)) people1 r1
    = Ok (people2, r2) /\
    let arr := arrive_step (args s) people2 (people_in_dining_halls s) r2 in
    let srv := service_step delta (args s) (snd (fst arr)) (snd arr) in
    append_log (current_day s)
      (take_snapshot (current_minute s) (fst (fst arr)) (fst srv)) (log s)
    = Ok lg /\
    t = Running
          {| end_times := end_times s;
             location_data := location_data s;
             args := args s;
             current_minute := current_minute s;
             current_day := current_day s;
             outside_people := fst (fst arr);
             people_in_dining_halls := fst srv;
             log := lg;
             rng := snd srv |}.
Proof.
  unfold run_steps.
  destruct (spawn_step _ _ _ _ _ _ _) as [[people1 r1]|e] eqn:Hspawn;
    cbn [bind]; [|discriminate].
  destruct (move_step _ _ _ _) as [[people2 r2]|e] eqn:Hmove; cbn [bind];
    [|discriminate].
  destruct (arrive_step _ _ _ _) as [[people3 halls3] r3] eqn:Harr.
  destruct (service_step _ _ _ _) as [halls4 r4] eqn:Hsrv.
  destruct (append_log _ _ _) as [lg|e] eqn:Hlog; cbn [bind]; [|discriminate].
  intros H. inversion H; subst t.
  exists people1, r1, people2, r2, lg.
  cbv zeta. rewrite Harr. cbn [fst snd]. rewrite Hsrv. cbn [fst snd].
  split; [reflexivity|]. split; [exact Hmove|]. split; [exact Hlog|reflexivity].
Qed.

Lemma iterate_running_inv (s s' : SimState) :
  iterate s = Ok (Running s') ->
  run_steps
    (advance (current_minute s) (time_interval (args s)) - current_minute s)
    (after_clock s)
  = Ok (Running s').
Proof.
  unfold iterate, after_clock.
  destruct (Qle_bool _ _); [|exact (fun H => H)].
  unfold get_next_day. destruct (current_day s) as [d|]; [|discriminate].
  cbn [bind]. destruct (String.length (arg_days (args s)) <=? S d);
    [discriminate|exact (fun H => H)].
Qed.

(** ** Nobody is lost or doubled on arrival *)

Lemma arrives_somewhere (p : Person) :
  list_sum (map (fun h => if arrives_at h p then 1 else 0) DINING_HALLS)
  = if arrived p then 1 else 0.
Proof.
  unfold arrives_at, arrived.
  destruct (first_hall p) as [h|]; [destruct h|]; reflexivity.
Qed.

Lemma count_arrivals (people : list Person) :
  list_sum (map (fun h => List.length (filter (arrives_at h) people)) DINING_HALLS)
  = List.length (filter arrived people).
Proof.
  induction people as [|p people IH]; [reflexivity|].
  cbn [filter]. pose proof (arrives_somewhere p) as Hp.
  unfold DINING_HALLS in *. cbn [map list_sum] in *.
  destruct (arrived p);
    repeat match goal with
           | |- context [if arrives_at ?h p then _ else _] =>
               destruct (arrives_at h p)
           end;
    cbn [List.length list_sum fold_right] in *; lia.
Qed.

Lemma filter_split_length {A : Type} (f : A -> bool) (l : list A) :
  List.length (filter f l) + List.length (filter (fun x => negb (f x)) l)
  = List.length l.
Proof.
  induction l as [|x l IH]; [reflexivity|].
  cbn [filter]. destruct (f x); cbn [negb List.length]; lia.
Qed.

(** The count behind the arrival step: as many people outside and in
    line after it as before, and the eating lists as they were. *)
Lemma arrival_count
    (a : Args) (people : list Person) (halls : HallMap) (r : Rng) :
  List.length (fst (fst (arrive_step a people halls r)))
  + queued (snd (fst (arrive_step a people halls r)))
  = List.length people + queued halls /\
  forall h,
    eating (snd (fst (arrive_step a people halls r)) h) = eating (halls h).
Proof.
  rewrite arrive_step_outside, arrive_step_halls.
  destruct (arrive_loop_spec a people 0 halls r) as [_ Hh].
  split; [|intros h; apply (Hh h)].
  assert (Hq : queued (fst (fst (arrive_loop 0 a people halls r)))
               = queued halls + List.length (filter arrived people)).
  { rewrite <- count_arrivals. unfold queued, DINING_HALLS.
    cbn [map list_sum fold_right].
    repeat match goal with
           | |- context [in_line (hall_queues ?m ?h)] =>
               match m with
               | halls => fail 1
               | _ =>
                   let new := fresh "new" in
                   let Hl := fresh "Hl" in
                   let Hn := fresh "Hn" in
                   destruct (Hh h) as [_ [new [Hl [Hn _]]]];
                   cbv zeta in Hl; rewrite Hl, length_app, Hn; clear Hl Hn
               end
           end.
    lia. }
  rewrite Hq. pose proof (filter_split_length arrived people). lia.
Qed.

(** X1. The arrival step loses and doubles nobody: every person it takes
    from the outside list is one more entry in exactly one line, so the
    people outside plus the people in line are as many after the step as
    before it, and no eating list is touched. *)
Theorem arrival_conserves_people
    (a : Args) (people : list Person) (halls : HallMap) (r : Rng) :
  let people' := fst (fst (arrive_step a people halls r)) in
  let halls' := snd (fst (arrive_step a people halls r)) in
  List.length people' + queued halls' = List.length people + queued halls /\
  forall h, eating (halls' h) = eating (halls h).
Proof. intros people' halls'. apply arrival_count. Qed.

(** ** The log *)

Lemma list_set_end {A : Type} (v x : A) (l : list A) :
  list_set (List.length l) v (l ++ [x]) = l ++ [v].
Proof.
  induction l as [|y l IH]; cbn [List.length app list_set]; [reflexivity|].
  now rewrite IH.
Qed.

Lemma nth_error_list_set_other {A : Type} (v : A) (l : list A) :
  forall i j, i <> j -> nth_error (list_set i v l) j = nth_error l j.
Proof.
  induction l as [|x l IH]; intros i j Hij; [reflexivity|].
  destruct i as [|i], j as [|j]; cbn [list_set nth_error]; try reflexivity.
  - now contradiction Hij.
  - apply IH. intros ->. now apply Hij.
Qed.

(** What a successful [append_log] did: the day is a number no larger
    than the number of day logs, its log (empty when it had none) got the
    row at its end, and no other day log moved. *)
Lemma append_log_inv (day : option nat) (snap : Snapshot)
    (lg lg' : list (list Snapshot)) :
  append_log day snap lg = Ok lg' ->
  exists d,
    day = Some d /\
    d <= List.length lg /\
    nth_error lg' d = Some (nth d lg [] ++ [snap]) /\
    forall d', d' <> d -> nth_error lg' d' = nth_error lg d'.
Proof.
  unfold append_log. destruct day as [d|]; [|discriminate].
  destruct (d =? List.length lg) eqn:Heq.
  - apply Nat.eqb_eq in Heq. subst d.
    rewrite nth_error_app2 by lia. rewrite Nat.sub_diag. cbn [nth_error app].
    rewrite list_set_end. intros H. inversion H; subst lg'.
    exists (List.length lg). split; [reflexivity|]. split; [lia|]. split.
    + rewrite nth_error_app2 by lia. rewrite Nat.sub_diag.
      rewrite nth_overflow by lia. reflexivity.
    + intros d' Hd'. destruct (Nat.lt_ge_cases d' (List.length lg)) as [Hlt|Hge].
      * now rewrite nth_error_app1.
      * assert (Hn1 : nth_error (lg ++ [[snap]]) d' = None)
          by (apply nth_error_None; rewrite length_app; simpl; lia).
        assert (Hn2 : nth_error lg d' = None) by (apply nth_error_None; lia).
        now rewrite Hn1, Hn2.
  - apply Nat.eqb_neq in Heq.
    destruct (nth_error lg d) as [rows|] eqn:Hnth; [|discriminate].
    intros H. inversion H; subst lg'.
    assert (Hlt : d < List.length lg)
      by (apply nth_error_Some; rewrite Hnth; discriminate).
    exists d. split; [reflexivity|]. split; [lia|]. split.
    + rewrite (nth_error_nth _ _ _ Hnth). now apply nth_error_list_set.
    + intros d' Hd'. apply nth_error_list_set_other. now apply not_eq_sym.
Qed.

(** The row a tick that returns [True] appends, and the rest of the log. *)
Lemma iterate_log (s s' : SimState) :
  iterate s = Ok (Running s') ->
  exists d,
    current_day s' = Some d /\
    d <= List.length (log s) /\
    nth_error (log s') d = Some (nth d (log s) [] ++ [row_of s']) /\
    forall d', d' <> d -> nth_error (log s') d' = nth_error (log s) d'.
Proof.
  intros Hit. apply iterate_running_inv in Hit.
  apply run_steps_inv in Hit.
  destruct Hit as (people1 & r1 & people2 & r2 & lg & _ & _ & Hlog & Hs').
  cbv zeta in Hlog, Hs'. inversion Hs'; subst s'. clear Hs'.
  apply append_log_inv in Hlog. destruct Hlog as (d & Hd & Hle & Hrow & Hrest).
  exists d. unfold row_of. cbn [current_day log current_minute outside_people
                                people_in_dining_halls].
  assert (Hlg : log (after_clock s) = log s).
  { unfold after_clock. destruct (Qle_bool _ _); [|reflexivity].
    destruct (current_day s); reflexivity. }
  rewrite Hlg in *. repeat split; assumption.
Qed.

(** X2. A tick that returns [True] appends exactly one row, to the log of
    the day the state is then in; the row describes the state the tick
    leaves (its minute, its outside count, its queue lengths); the logs of
    the other days are not touched. *)
Theorem tick_logs_one_row (s s' : SimState) :
  iterate s = Ok (Running s') ->
  exists d,
    current_day s' = Some d /\
    d <= List.length (log s) /\
    nth_error (log s') d = Some (nth d (log s) [] ++ [row_of s']) /\
    forall d', d' <> d -> nth_error (log s') d' = nth_error (log s) d'.
Proof. exact (iterate_log s s'). Qed.

(** ** The end of the simulation *)

(** X3. [iterate] returns [None] exactly when the clock advance reaches
    [DAY_END_TIME] on the last configured day; it then leaves the clock at
    [DAY_START_TIME], the day index at [None], nobody outside or in a
    hall, and the log and the generator as they were. *)
Theorem iterate_done_iff (s s' : SimState) :
  iterate s = Ok (Done s') <->
  Qle_bool (inject_Z DAY_END_TIME)
    (advance (current_minute s) (time_interval (args s))) = true /\
  exists d,
    current_day s = Some d /\
    String.length (arg_days (args s)) <= S d /\
    s' = {| end_times := end_times s;
            location_data := location_data s;
            args := args s;
            current_minute := inject_Z DAY_START_TIME;
            current_day := None;
            outside_people := [];
            people_in_dining_halls := empty_halls;
            log := log s;
            rng := rng s |}.
Proof.
  unfold iterate. split.
  - destruct (Qle_bool _ _) eqn:Hend.
    + unfold get_next_day. destruct (current_day s) as [d|]; [|discriminate].
      cbn [bind]. destruct (String.length (arg_days (args s)) <=? S d) eqn:Hlast.
      * intros H. inversion H. split; [reflexivity|].
        exists d. apply Nat.leb_le in Hlast. repeat split. exact Hlast.
      * intros H. apply run_steps_clock in H. destruct H as [s1 [H _]].
        discriminate.
    + intros H. apply run_steps_clock in H. destruct H as [s1 [H _]].
      discriminate.
  - intros [Hend [d [Hday [Hlast ->]]]]. rewrite Hend.
    unfold get_next_day. rewrite Hday. cbn [bind].
    apply Nat.leb_le in Hlast. rewrite Hlast. reflexivity.
Qed.

(** X4. Once the day index is [None] the simulation is over for good:
    every further call of [iterate] raises (a [TypeError], unless the
    spawning or the movement raised first), and never returns. *)
Theorem iterate_after_done_raises (s : SimState) :
  current_day s = None ->
  exists e, iterate s = Raise e.
Proof.
  intros Hday. destruct (iterate s) as [t|e] eqn:Hit; [|now exists e].
  exfalso. unfold iterate in Hit.
  destruct (Qle_bool _ _).
  - unfold get_next_day in Hit. rewrite Hday in Hit. discriminate.
  - apply run_steps_inv in Hit.
    destruct Hit as (people1 & r1 & people2 & r2 & lg & _ & _ & Hlog & _).
    cbv zeta in Hlog. cbn [current_day with_clock] in Hlog.
    rewrite Hday in Hlog. discriminate.
Qed.

(** X5. A tick that ends a day while the log has no row for that day yet
    (the first tick of a run whose interval spans the whole first day)
    raises [IndexError] when another day remains: the new day's index is
    past the end of the log. *)
Theorem rollover_without_a_row_raises (s : SimState) (d : nat) :
  Qle_bool (inject_Z DAY_END_TIME)
    (advance (current_minute s) (time_interval (args s))) = true ->
  current_day s = Some d ->
  S d < String.length (arg_days (args s)) ->
  List.length (log s) < S d ->
  end_times_get (inject_Z DAY_START_TIME) (end_times s) = None ->
  iterate s = Raise IndexError.
Proof.
  intros Hend Hday Hmore Hlog Hnone.
  unfold iterate. rewrite Hend. unfold get_next_day. rewrite Hday.
  assert (Hleb : (String.length (arg_days (args s)) <=? S d) = false)
    by (apply Nat.leb_gt; exact Hmore).
  rewrite Hleb. cbn [bind].
  unfold run_steps. cbn [current_minute end_times with_clock outside_people
                         args location_data rng people_in_dining_halls
                         current_day log].
  unfold spawn_step. rewrite Hnone. cbn [bind].
  unfold move_step. cbn [List.length move_loop bind].
  unfold arrive_step. cbn [arrive_loop pop_all].
  rewrite service_step_empty. unfold append_log.
  assert (Hneq : (S d =? List.length (log s)) = false)
    by (apply Nat.eqb_neq; lia).
  rewrite Hneq.
  assert (Hnth : nth_error (log s) (S d) = None)
    by (apply nth_error_None; lia).
  rewrite Hnth. reflexivity.
Qed.

(** ** Step 2 while a hall is open *)

(** A returning [choose_dest] either had nothing to choose from and did
    nothing, or read one variate and set one of the choices. *)
Lemma choose_dest_ok_inv (p p' : Person) (choices : list Hall) (r r' : Rng) :
  choose_dest p choices r = Ok (p', r') ->
  (choices = [] /\ p' = p /\ r' = r) \/
  (exists h, In h choices /\ p' = set_destination p (Some h) /\ r' = rng_next r).
Proof.
  unfold choose_dest. destruct choices as [|h0 hs].
  - intros H. inversion H. left. now repeat split.
  - unfold random_choices, random_random.
    destruct (negb _); [discriminate|].
    destruct (Qle_bool _ _); [discriminate|].
    destruct (nth_error _ _) as [h|] eqn:Hnth; cbn [bind]; [|discriminate].
    intros H. inversion H. right. exists h.
    split; [eapply nth_error_In; eassumption|]. now split.
Qed.

Lemma move_loop_open (a : Args) (open_dining_halls : list Hall)
    (rest : list Person) :
  open_dining_halls <> [] ->
  forall (pre : list Person) (fuel : nat) (r : Rng) (res : list Person)
         (r' : Rng),
    List.length rest <= fuel ->
    move_loop fuel (List.length pre) a open_dining_halls (pre ++ rest) r
    = Ok (res, r') ->
    exists rest',
      res = pre ++ rest' /\ Forall2 (walked a open_dining_halls) rest rest'.
Proof.
  intros Hopen. induction rest as [|p ps IH]; intros pre fuel r res r' Hfuel.
  - rewrite app_nil_r. destruct fuel as [|fuel]; cbn [move_loop].
    + intros H. inversion H. exists []. rewrite app_nil_r. now split.
    + assert (Hnone : nth_error pre (List.length pre) = None)
        by (apply nth_error_None; lia).
      rewrite Hnone. intros H. inversion H. exists [].
      rewrite app_nil_r. now split.
  - cbn [List.length] in Hfuel. destruct fuel as [|fuel]; [lia|].
    rewrite move_loop_S, nth_error_middle.
    destruct (destination p) as [h|] eqn:Hdest.
    + unfold person_move. rewrite Hdest. cbn [bind].
      rewrite list_set_app. shift_head pre (set_loc p
        (move_towards_fast (loc p) (hall_location h)
           (inject_Z (time_interval a) * speed p))) ps.
      replace (S (List.length pre))
        with (List.length (pre ++ [set_loc p
                (move_towards_fast (loc p) (hall_location h)
                   (inject_Z (time_interval a) * speed p))]))
        by (rewrite length_app; simpl; lia).
      intros H. apply IH in H; [|lia]. destruct H as [rest' [-> Hall]].
      eexists. rewrite <- app_assoc. split; [reflexivity|].
      constructor; [|exact Hall].
      split; [reflexivity|]. exists h. cbn [destination loc set_loc].
      repeat split; auto.
    + destruct open_dining_halls as [|h0 hs]; [contradiction|].
      destruct (choose_dest p (h0 :: hs) r) as [[p1 r1]|e] eqn:Hcd;
        cbn [bind]; [|discriminate].
      apply choose_dest_ok_inv in Hcd.
      destruct Hcd as [[Hnil _]|[h [Hin [-> ->]]]]; [discriminate|].
      unfold person_move. cbn [destination set_destination bind].
      rewrite list_set_app.
      set (p2 := set_loc _ _).
      shift_head pre p2 ps.
      replace (S (List.length pre)) with (List.length (pre ++ [p2]))
        by (rewrite length_app; simpl; lia).
      intros H. apply IH in H; [|lia]. destruct H as [rest' [-> Hall]].
      eexists. rewrite <- app_assoc. split; [reflexivity|].
      constructor; [|exact Hall].
      split; [reflexivity|]. exists h. subst p2.
      cbn [destination loc speed set_loc set_destination].
      repeat split; auto.
Qed.

(** X6. While some hall is open, step 2 removes nobody and leaves nobody
    behind: when it returns, the outside list holds the same people in the
    same order, each with its speed unchanged, each one step of
    [time_interval * speed] metres further toward its destination; a
    destination already set is kept, and whoever had none got one among
    the open halls. *)
Theorem move_step_walks_everyone
    (a : Args) (open_dining_halls : list Hall) (people people' : list Person)
    (r r' : Rng) :
  open_dining_halls <> [] ->
  move_step a open_dining_halls people r = Ok (people', r') ->
  Forall2 (walked a open_dining_halls) people people'.
Proof.
  intros Hopen Hmove. unfold move_step in Hmove.
  destruct (move_loop_open a open_dining_halls people Hopen []
              (List.length people) r people' r' (le_n _) Hmove)
    as [rest' [-> Hall]].
  exact Hall.
Qed.

(** ** Nobody appears from nowhere *)

Lemma move_loop_length (a : Args) (open_dining_halls : list Hall) (fuel : nat) :
  forall (i : nat) (people res : list Person) (r r' : Rng),
    move_loop fuel i a open_dining_halls people r = Ok (res, r') ->
    List.length res <= List.length people.
Proof.
  induction fuel as [|fuel IH]; intros i people res r r'.
  - cbn [move_loop]. intros H. inversion H. lia.
  - rewrite move_loop_S.
    destruct (nth_error people i) as [person|]; [|intros H; inversion H; lia].
    destruct (destination person) as [h|].
    + destruct (person_move _ _) as [person2|e]; cbn [bind]; [|discriminate].
      intros H. apply IH in H. now rewrite list_set_length in H.
    + destruct open_dining_halls as [|h hs].
      * unfold random_random. cbv zeta iota beta.
        destruct (Qlt_bool _ _); intros H; apply IH in H;
          [pose proof (list_pop_length people i)|]; lia.
      * destruct (choose_dest _ _ _) as [[person1 r1]|e]; cbn [bind];
          [|discriminate].
        destruct (person_move _ _) as [person2|e]; cbn [bind]; [|discriminate].
        intros H. apply IH in H. now rewrite list_set_length in H.
Qed.

Lemma filter_length_le {A : Type} (f : A -> bool) (l : list A) :
  List.length (filter f l) <= List.length l.
Proof.
  induction l as [|x l IH]; [apply le_n|].
  cbn [filter]. destruct (f x); cbn [List.length]; lia.
Qed.

Lemma serve_hall_count (delta : Q) (a : Args) (q : Queues) (r : Rng) :
  List.length (in_line (fst (serve_hall delta a q r)))
  + List.length (eating (fst (serve_hall delta a q r)))
  <= List.length (in_line q) + List.length (eating q).
Proof.
  rewrite serve_hall_spec. cbn [fst in_line eating].
  set (dec := fun t => (t - delta)%Q).
  pose proof (filter_split_length expired (map dec (in_line q))) as Hsplit.
  rewrite length_map in Hsplit.
  fold alive in Hsplit.
  change (fun x : Q => negb (expired x)) with alive in Hsplit.
  set (n := List.length (filter expired (map dec (in_line q)))) in *.
  pose proof (filter_length_le alive (map dec (eating q ++ fresh_eating n a r)))
    as Heat.
  rewrite length_map, length_app, fresh_eating_length in Heat.
  lia.
Qed.

Lemma service_step_count (delta : Q) (a : Args) (halls : HallMap) (r : Rng) :
  queued (fst (service_step delta a halls r))
  + seated (fst (service_step delta a halls r))
  <= queued halls + seated halls.
Proof.
  assert (Hh : forall h,
             List.length (in_line (fst (service_step delta a halls r) h))
             + List.length (eating (fst (service_step delta a halls r) h))
             <= List.length (in_line (halls h)) + List.length (eating (halls h))).
  { intros h. unfold service_step.
    destruct (serve_halls_spec delta a h DINING_HALLS halls r DINING_HALLS_NoDup)
      as [r_h Hr_h].
    assert (Hin : existsb (Hall_eqb h) DINING_HALLS = true).
    { apply existsb_exists. exists h. split;
        [apply DINING_HALLS_complete | apply Hall_eqb_refl]. }
    rewrite Hin in Hr_h. rewrite Hr_h. apply serve_hall_count. }
  unfold queued, seated, DINING_HALLS. cbn [map list_sum fold_right].
  pose proof (Hh HochShanahan). pose proof (Hh Malott). pose proof (Hh Collins).
  pose proof (Hh McConnell). pose proof (Hh Frary). pose proof (Hh Frank).
  lia.
Qed.

Lemma seated_ext (halls halls' : HallMap) :
  (forall h, eating (halls' h) = eating (halls h)) -> seated halls' = seated halls.
Proof.
  intros H. unfold seated. apply f_equal. apply map_ext. intros h. now rewrite H.
Qed.

Lemma population_after_clock (s : SimState) :
  population (after_clock s) <= population s.
Proof.
  unfold after_clock. destruct (Qle_bool _ _); [|apply le_n].
  destruct (current_day s); [|apply le_n].
  unfold population. cbn. lia.
Qed.

(** X7. Nobody appears from nowhere: over a tick that returns [True] and
    at whose minute the schedule has no bucket, the number of people in
    the simulation (outside, in line and eating together) never grows. *)
Theorem population_grows_only_by_spawning (s s' : SimState) :
  iterate s = Ok (Running s') ->
  end_times_get (current_minute s') (end_times s) = None ->
  population s' <= population s.
Proof.
  intros Hit Hnone. apply iterate_running_inv in Hit.
  pose proof (run_steps_clock _ _ _ Hit) as (s1 & Hs1 & Hminute & _ & _ & Het & _).
  inversion Hs1; subst s1. clear Hs1.
  apply run_steps_inv in Hit.
  destruct Hit as (people1 & r1 & people2 & r2 & lg & Hspawn & Hmove & _ & Hs').
  cbv zeta in Hs'. inversion Hs' as [Heq]. clear Hs'.
  assert (Hclock_et : end_times (after_clock s) = end_times s).
  { unfold after_clock. destruct (Qle_bool _ _); [|reflexivity].
    destruct (current_day s); reflexivity. }
  unfold spawn_step in Hspawn.
  rewrite <- Hminute, Hclock_et, Hnone in Hspawn.
  inversion Hspawn; subst people1 r1. clear Hspawn.
  apply move_loop_length in Hmove.
  pose proof (arrival_count (args (after_clock s)) people2
                (people_in_dining_halls (after_clock s)) r2) as [Harr Heat].
  pose proof (service_step_count
                (advance (current_minute s) (time_interval (args s))
                 - current_minute s)
                (args (after_clock s))
                (snd (fst (arrive_step (args (after_clock s)) people2
                             (people_in_dining_halls (after_clock s)) r2)))
                (snd (arrive_step (args (after_clock s)) people2
                        (people_in_dining_halls (after_clock s)) r2)))
    as Hsrv.
  apply seated_ext in Heat.
  pose proof (population_after_clock s) as Hclock.
  unfold population in *. cbn [outside_people people_in_dining_halls].
  lia.
Qed.

(** ** Who the spawning loop makes *)

Lemma rng_skip_add (n k : nat) :
  forall r, rng_skip (n + k) r = rng_skip k (rng_skip n r).
Proof.
  induction n as [|n IH]; intros r; [reflexivity|].
  cbn [Nat.add rng_skip]. apply IH.
Qed.

Lemma spawn_one_newcomer (a : Args) (l : Loc) (open_dining_halls : list Hall)
    (people people' : list Person) (r r' : Rng) :
  spawn_one a l open_dining_halls people r = Ok (people', r') ->
  exists person,
    people' = people ++ [person] /\
    newcomer l open_dining_halls person /\
    r' = rng_skip (draws_per_spawn open_dining_halls) r.
Proof.
  unfold spawn_one, random_gauss. cbv zeta iota beta.
  destruct open_dining_halls as [|h hs].
  - intros H. inversion H. eexists. split; [reflexivity|].
    split; [|reflexivity].
    unfold newcomer, new_person. cbn [loc speed destination].
    split; [reflexivity|]. split; [apply Q.le_max_r|reflexivity].
  - destruct (choose_dest _ _ _) as [[person' r2]|e] eqn:Hc; cbn [bind];
      [|discriminate].
    intros H. inversion H. subst people' r'.
    apply choose_dest_ok_inv in Hc.
    destruct Hc as [[Hnil _]|[h' [Hin [Hp Hr]]]]; [discriminate|].
    exists person'. split; [reflexivity|]. subst person' r2.
    split; [|reflexivity].
    unfold newcomer, set_destination, new_person. cbn [loc speed destination].
    split; [reflexivity|]. split; [apply Q.le_max_r|exact Hin].
Qed.

Lemma spawn_many_newcomers (a : Args) (l : Loc) (open_dining_halls : list Hall)
    (n : nat) :
  forall (people people' : list Person) (r r' : Rng),
    spawn_many n a l open_dining_halls people r = Ok (people', r') ->
    exists new,
      people' = people ++ new /\
      List.length new = n /\
      Forall (newcomer l open_dining_halls) new /\
      r' = rng_skip (n * draws_per_spawn open_dining_halls) r.
Proof.
  induction n as [|n IH]; intros people people' r r'.
  - cbn [spawn_many]. intros H. inversion H. exists [].
    rewrite app_nil_r. repeat split. constructor.
  - cbn [spawn_many].
    destruct (spawn_one _ _ _ _ _) as [[people1 r1]|e] eqn:H1; cbn [bind];
      [|discriminate].
    intros H. apply spawn_one_newcomer in H1.
    destruct H1 as (person & Hp1 & Hnew & Hr1).
    apply IH in H. destruct H as (new & Hp' & Hlen & Hall & Hr').
    exists (person :: new). subst people1 people' r1 r'.
    rewrite <- app_assoc. split; [reflexivity|].
    split; [cbn [List.length]; now rewrite Hlen|].
    split; [now constructor|].
    cbn [Nat.mul]. now rewrite rng_skip_add.
Qed.

(** X8. Who the spawning loop makes for one class: whenever the body
    returns, the classroom is a key of [location_data], the people outside
    are the earlier ones followed by the new ones, and every new person
    stands at the classroom, walks at no less than 0.2 m/s and is bound for
    one of the open halls (for none when no hall is open); the loop has
    read one variate per person for the speed and one more for the
    destination when a hall is open. A classroom without coordinates or
    outside the bounding box adds nobody and reads nothing. *)
Theorem spawn_course_makes_newcomers
    (a : Args) (ld : LocationData) (current_minute : Q)
    (open_dining_halls : list Hall) (course : EndEntry)
    (people people' : list Person) (r r' : Rng) :
  spawn_course a ld current_minute open_dining_halls course people r
  = Ok (people', r') ->
  exists raw new,
    dict_get String.eqb (location_string course) ld = Some raw /\
    people' = people ++ new /\
    Forall (newcomer (convert_str_to_loc raw) open_dining_halls) new /\
    r' = rng_skip (List.length new * draws_per_spawn open_dining_halls) r /\
    (unresolved ld course -> new = []).
Proof.
  unfold spawn_course.
  destruct (dict_get String.eqb (location_string course) ld) as [raw|] eqn:Hk;
    [|discriminate].
  cbv zeta.
  destruct (loc_eqb _ _ || negb _) eqn:Hbad.
  - intros H. inversion H. exists raw, []. rewrite app_nil_r.
    repeat split. constructor.
  - intros H. apply spawn_many_newcomers in H.
    destruct H as (new & Hp & Hlen & Hall & Hr).
    exists raw, new. rewrite Hlen. repeat split; try assumption.
    intros [raw' [Hk' Hbad']]. rewrite Hk in Hk'. inversion Hk'. subst raw'.
    rewrite Hbad in Hbad'. discriminate.
Qed.

Lemma spawn_courses_keys (a : Args) (ld : LocationData) (current_minute : Q)
    (open_dining_halls : list Hall) (courses : list EndEntry) :
  forall (people people' : list Person) (r r' : Rng),
    spawn_courses a ld current_minute open_dining_halls courses people r
    = Ok (people', r') ->
    forall course, In course courses ->
      exists raw, dict_get String.eqb (location_string course) ld = Some raw.
Proof.
  induction courses as [|c rest IH]; intros people people' r r' H course Hin.
  - destruct Hin.
  - cbn [spawn_courses] in H.
    destruct (spawn_course _ _ _ _ c _ _) as [[people1 r1]|e] eqn:Hc;
      cbn [bind] in H; [|discriminate].
    destruct Hin as [->|Hin]; [|exact (IH _ _ _ _ H _ Hin)].
    unfold spawn_course in Hc.
    destruct (dict_get String.eqb (location_string course) ld) as [raw|];
      [now exists raw|discriminate].
Qed.

Lemma after_clock_frame (s : SimState) :
  end_times (after_clock s) = end_times s /\
  location_data (after_clock s) = location_data s /\
  args (after_clock s) = args s.
Proof.
  unfold after_clock. destruct (Qle_bool _ _); [|repeat split].
  destruct (current_day s); repeat split.
Qed.

(** X9. A tick returns [True] only if every class filed under the new
    minute has its location string among the keys of [location_data]:
    one missing key anywhere in the bucket and the tick raises. *)
Theorem tick_needs_known_classrooms
    (s s' : SimState) (courses : list EndEntry) (course : EndEntry) :
  iterate s = Ok (Running s') ->
  end_times_get (current_minute s') (end_times s) = Some courses ->
  In course courses ->
  exists raw,
    dict_get String.eqb (location_string course) (location_data s) = Some raw.
Proof.
  intros Hit Hsome Hin. apply iterate_running_inv in Hit.
  pose proof (run_steps_clock _ _ _ Hit) as (s1 & Hs1 & Hminute & _).
  inversion Hs1; subst s1. clear Hs1.
  apply run_steps_inv in Hit.
  destruct Hit as (people1 & r1 & _ & _ & _ & Hspawn & _).
  destruct (after_clock_frame s) as (Het & Hld & _).
  unfold spawn_step in Hspawn.
  rewrite <- Hminute, Het, Hsome, Hld in Hspawn.
  exact (spawn_courses_keys _ _ _ _ _ _ _ _ _ Hspawn _ Hin).
Qed.

(** ** Which hall [choose_dest] picks *)

Lemma Qlt_bool_iff (x y : Q) : Qlt_bool x y = true <-> (x < y)%Q.
Proof.
  unfold Qlt_bool. rewrite negb_true_iff. split.
  - intros H. apply Qnot_le_lt. intros Hle.
    apply Qle_bool_iff in Hle. congruence.
  - intros H. destruct (Qle_bool y x) eqn:Hle; [|reflexivity].
    apply Qle_bool_iff in Hle. exfalso. exact (Qlt_not_le _ _ H Hle).
Qed.

Lemma Qlt_bool_false (x y : Q) : Qlt_bool x y = false <-> (y <= x)%Q.
Proof.
  unfold Qlt_bool. rewrite negb_false_iff. apply Qle_bool_iff.
Qed.

(** [bisect_right] on a slice that is sorted: everything left of the
    result is at most [x], everything from the result on is above [x]. *)
Lemma bisect_loop_sorted (a : list Q) (x : Q) (top : nat) :
  (forall i j, i <= j < top -> (nth i a 0 <= nth j a 0)%Q) ->
  forall fuel lo hi,
    hi - lo < fuel -> lo <= hi <= top ->
    (forall j, j < lo -> (nth j a 0 <= x)%Q) ->
    (forall j, hi <= j < top -> (x < nth j a 0)%Q) ->
    (forall j, j < bisect_loop fuel a x lo hi -> (nth j a 0 <= x)%Q) /\
    (forall j, bisect_loop fuel a x lo hi <= j < top -> (x < nth j a 0)%Q).
Proof.
  intros Hsorted.
  induction fuel as [|fuel IH]; intros lo hi Hfuel Hle Hlow Hhigh; [lia|].
  rewrite bisect_loop_S.
  destruct (lo <? hi) eqn:Hlt.
  - apply Nat.ltb_lt in Hlt.
    assert (Hmid : lo <= (lo + hi) / 2 < hi).
    { split.
      - apply Nat.div_le_lower_bound; lia.
      - apply Nat.Div0.div_lt_upper_bound; lia. }
    set (mid := (lo + hi) / 2) in *.
    destruct (Qlt_bool x (nth mid a 0%Q)) eqn:Hx.
    + apply Qlt_bool_iff in Hx.
      apply IH; [lia|lia|exact Hlow|].
      intros j Hj. apply Qlt_le_trans with (nth mid a 0%Q); [exact Hx|].
      apply Hsorted. lia.
    + apply Qlt_bool_false in Hx.
      apply IH; [lia|lia| |exact Hhigh].
      intros j Hj. apply Qle_trans with (nth mid a 0%Q); [|exact Hx].
      apply Hsorted. lia.
  - apply Nat.ltb_ge in Hlt.
    assert (lo = hi) by lia. subst hi. split; assumption.
Qed.

Lemma accumulate_from_nth (ws : list Q) :
  forall acc i, i < List.length ws ->
    (nth i (accumulate_from acc ws) 0 == acc + Qsum (firstn (S i) ws))%Q.
Proof.
  induction ws as [|w ws IH]; intros acc i Hi; [inversion Hi|].
  destruct i as [|i].
  - cbn [accumulate_from nth firstn Qsum]. ring.
  - cbn [accumulate_from nth]. cbn [List.length] in Hi.
    rewrite IH by lia.
    change (firstn (S (S i)) (w :: ws)) with (w :: firstn (S i) ws).
    cbn [Qsum]. ring.
Qed.

Lemma accumulate_nth (ws : list Q) (i : nat) :
  i < List.length ws ->
  (nth i (accumulate ws) 0 == Qsum (firstn (S i) ws))%Q.
Proof.
  destruct ws as [|w ws]; intros Hi; [inversion Hi|].
  destruct i as [|i].
  - cbn [accumulate nth firstn Qsum]. ring.
  - cbn [accumulate nth]. cbn [List.length] in Hi.
    rewrite accumulate_from_nth by lia.
    change (firstn (S (S i)) (w :: ws)) with (w :: firstn (S i) ws).
    reflexivity.
Qed.

Lemma Qsum_firstn_S (ws : list Q) :
  forall i, i < List.length ws ->
    (Qsum (firstn (S i) ws) == Qsum (firstn i ws) + nth i ws 0)%Q.
Proof.
  induction ws as [|w ws IH]; intros i Hi; [inversion Hi|].
  destruct i as [|i].
  - cbn [firstn Qsum nth]. ring.
  - change (firstn (S (S i)) (w :: ws)) with (w :: firstn (S i) ws).
    change (firstn (S i) (w :: ws)) with (w :: firstn i ws).
    cbn [Qsum nth]. cbn [List.length] in Hi. rewrite IH by lia. ring.
Qed.

Lemma Qsum_firstn_mono (ws : list Q) :
  Forall (fun w => 0 <= w)%Q ws ->
  forall i j, i <= j -> (Qsum (firstn i ws) <= Qsum (firstn j ws))%Q.
Proof.
  induction 1 as [|w ws Hw Hws IH]; intros i j Hij.
  - rewrite !firstn_nil. apply Qle_refl.
  - destruct i as [|i].
    + cbn [firstn Qsum]. apply Qsum_nonneg.
      apply Forall_forall. intros v Hv.
      assert (Hin : In v (w :: ws)).
      { rewrite <- (firstn_skipn j (w :: ws)). apply in_or_app. now left. }
      destruct Hin as [<-|Hin]; [exact Hw|].
      rewrite Forall_forall in Hws. now apply Hws.
    + destruct j as [|j]; [lia|].
      change (firstn (S i) (w :: ws)) with (w :: firstn i ws).
      change (firstn (S j) (w :: ws)) with (w :: firstn j ws).
      cbn [Qsum]. apply Qplus_le_compat; [apply Qle_refl|].
      apply IH. lia.
Qed.

(** [random.choices] by the running sums: with weights that are not
    negative and a variate [u] in [[0, 1)], the element returned is the one
    whose stretch of the running sums holds [u * total]. *)
Lemma random_choices_selects {A : Type} (population : list A)
    (weights : list Q) (r : Rng) :
  List.length weights = List.length population ->
  Forall (fun w => 0 <= w)%Q weights ->
  (0 < Qsum weights)%Q ->
  (0 <= rng_peek r)%Q -> (rng_peek r < 1)%Q ->
  exists i x,
    nth_error population i = Some x /\
    random_choices population weights r = Ok (x, rng_next r) /\
    (Qsum (firstn i weights) <= rng_peek r * Qsum weights)%Q /\
    (rng_peek r * Qsum weights < Qsum (firstn (S i) weights))%Q.
Proof.
  intros Hlen Hnonneg Hpos Hu0 Hu1.
  assert (Hne : population <> []).
  { intros ->. destruct weights; [discriminate Hpos|discriminate Hlen]. }
  unfold random_choices.
  rewrite accumulate_length, Hlen, Nat.eqb_refl. cbn [negb]. cbv iota zeta.
  assert (Htot : (last (accumulate weights) 0 + 0 == Qsum weights)%Q)
    by (rewrite accumulate_last; ring).
  destruct (Qle_bool (last (accumulate weights) 0 + 0)%Q 0%Q) eqn:Hle.
  { apply Qle_bool_iff in Hle. rewrite Htot in Hle.
    exfalso. exact (Qlt_not_le _ _ Hpos Hle). }
  unfold random_random.
  set (x := (rng_peek r * (last (accumulate weights) 0 + 0))%Q).
  assert (Hx : (x == rng_peek r * Qsum weights)%Q)
    by (subst x; now rewrite Htot).
  set (n := List.length population) in *.
  assert (Hn : 0 < n).
  { subst n. destruct population; [contradiction|cbn; lia]. }
  assert (Hsorted : forall i j, i <= j < n ->
             (nth i (accumulate weights) 0 <= nth j (accumulate weights) 0)%Q).
  { intros i j Hij. rewrite !accumulate_nth by lia.
    apply Qsum_firstn_mono; [exact Hnonneg|lia]. }
  assert (Hall : (Qsum (firstn n weights) == Qsum weights)%Q).
  { rewrite firstn_all2 by lia. reflexivity. }
  destruct (bisect_loop_sorted (accumulate weights) x n Hsorted
              (S (List.length (accumulate weights))) 0 (n - 1)) as [Hlow Hhigh].
  - rewrite accumulate_length. lia.
  - lia.
  - intros j Hj. inversion Hj.
  - intros j Hj. assert (j = n - 1) by lia. subst j.
    rewrite accumulate_nth by lia.
    replace (S (n - 1)) with n by lia. rewrite Hall, Hx.
    rewrite <- (Qmult_1_l (Qsum weights)) at 2.
    apply Qmult_lt_compat_r; assumption.
  - fold (bisect (accumulate weights) x 0 (n - 1)) in Hlow, Hhigh.
    pose proof (bisect_loop_bounds (accumulate weights) x
                  (S (List.length (accumulate weights))) 0 (n - 1)
                  (Nat.le_0_l _)) as Hb.
    fold (bisect (accumulate weights) x 0 (n - 1)) in Hb.
    set (k := bisect (accumulate weights) x 0 (n - 1)) in *.
    destruct (nth_error population k) as [y|] eqn:Hnth;
      [|apply nth_error_None in Hnth; fold n in Hnth; lia].
    exists k, y. split; [exact Hnth|]. split; [reflexivity|].
    rewrite <- Hx. split.
    + destruct k as [|k'].
      * cbn [firstn Qsum]. rewrite Hx.
        apply Qmult_le_0_compat; [exact Hu0|apply Qlt_le_weak, Hpos].
      * rewrite <- accumulate_nth by lia. apply Hlow. lia.
    + rewrite <- accumulate_nth by lia. apply Hhigh. lia.
Qed.

(** X10. Which hall [choose_dest] picks: with distances that are not
    negative and sum to a positive total, and a variate [u] in [[0, 1)],
    the destination is the hall of [choices] whose stretch of the running
    sums of the distances holds [u] times the total. A hall at distance
    zero has an empty stretch and is never picked. *)
Theorem choose_dest_picks_by_distance
    (p : Person) (choices : list Hall) (r : Rng) :
  (forall h, In h choices -> (0 <= get_distance (loc p) (hall_location h))%Q) ->
  (0 < Qsum (dest_weights p choices))%Q ->
  (0 <= rng_peek r)%Q -> (rng_peek r < 1)%Q ->
  exists i h,
    nth_error choices i = Some h /\
    choose_dest p choices r = Ok (set_destination p (Some h), rng_next r) /\
    (Qsum (firstn i (dest_weights p choices))
     <= rng_peek r * Qsum (dest_weights p choices))%Q /\
    (rng_peek r * Qsum (dest_weights p choices)
     < Qsum (firstn (S i) (dest_weights p choices)))%Q /\
    (0 < get_distance (loc p) (hall_location h))%Q.
Proof.
  intros Hnonneg Hpos Hu0 Hu1.
  assert (Hlen : List.length (dest_weights p choices) = List.length choices)
    by apply length_map.
  assert (Hall : Forall (fun w => 0 <= w)%Q (dest_weights p choices)).
  { apply Forall_forall. intros w Hw. apply in_map_iff in Hw.
    destruct Hw as [h [<- Hh]]. now apply Hnonneg. }
  destruct (random_choices_selects choices (dest_weights p choices) r
              Hlen Hall Hpos Hu0 Hu1) as (i & h & Hnth & Hok & Hlo & Hhi).
  exists i, h. split; [exact Hnth|].
  split.
  { destruct choices as [|c cs]; [destruct i; discriminate Hnth|].
    cbn [choose_dest]. rewrite Hok. reflexivity. }
  split; [exact Hlo|]. split; [exact Hhi|].
  assert (Hi : i < List.length (dest_weights p choices)).
  { rewrite Hlen. apply nth_error_Some. congruence. }
  rewrite Qsum_firstn_S in Hhi by exact Hi.
  assert (Hw : nth i (dest_weights p choices) 0%Q
               = get_distance (loc p) (hall_location h)).
  { rewrite (nth_indep _ 0%Q
               (get_distance (loc p) (hall_location h))) by exact Hi.
    unfold dest_weights.
    rewrite (map_nth (fun h0 => get_distance (loc p) (hall_location h0))
               choices h i).
    now rewrite (nth_error_nth _ _ _ Hnth). }
  rewrite Hw in Hhi.
  pose proof (Qle_lt_trans _ _ _ Hlo Hhi) as Hlt.
  rewrite <- (Qplus_0_r (Qsum (firstn i (dest_weights p choices)))) in Hlt at 1.
  now apply Qplus_lt_r in Hlt.
Qed.

(** ** The driver loop comes to an end *)

(** What a tick that returns has done to the clock and the day. *)
Lemma iterate_cases (s : SimState) (t : Tick) :
  iterate s = Ok t ->
  let m := advance (current_minute s) (time_interval (args s)) in
  exists d,
    current_day s = Some d /\
    match t with
    | Done s' =>
        Qle_bool (inject_Z DAY_END_TIME) m = true /\
        String.length (arg_days (args s)) <= S d /\
        current_day s' = None
    | Running s' =>
        args s' = args s /\
        ((Qle_bool (inject_Z DAY_END_TIME) m = false /\
          current_day s' = Some d /\ current_minute s' = m) \/
         (Qle_bool (inject_Z DAY_END_TIME) m = true /\
          S d < String.length (arg_days (args s)) /\
          current_day s' = Some (S d) /\
          current_minute s' = inject_Z DAY_START_TIME))
    end.
Proof.
  cbv zeta. unfold iterate.
  destruct (Qle_bool _ _) eqn:Hend.
  - unfold get_next_day. destruct (current_day s) as [d|]; [|discriminate].
    cbn [bind].
    destruct (String.length (arg_days (args s)) <=? S d) eqn:Hlast.
    + intros H. inversion H. exists d. split; [reflexivity|].
      apply Nat.leb_le in Hlast. repeat split. exact Hlast.
    + intros H. apply run_steps_clock in H.
      destruct H as (s1 & -> & Hm & Hd & Ha & _).
      exists d. split; [reflexivity|]. split; [exact Ha|]. right.
      apply Nat.leb_gt in Hlast. repeat split; assumption.
  - intros H. pose proof (run_steps_inv _ _ _ H) as Hinv.
    destruct Hinv as (people1 & r1 & people2 & r2 & lg & _ & _ & Hlog & _).
    cbv zeta in Hlog. cbn [current_day with_clock] in Hlog.
    apply append_log_inv in Hlog. destruct Hlog as (d & Hday & _).
    apply run_steps_clock in H. destruct H as (s1 & -> & Hm & Hd & Ha & _).
    exists d. split; [exact Hday|]. split; [exact Ha|]. left.
    cbn [current_day current_minute with_clock] in Hd, Hm.
    rewrite Hd, Hday. repeat split. exact Hm.
Qed.

Lemma stopped_raise (s : SimState) (e : Exn) :
  iterate s = Raise e -> stopped 1 s.
Proof. unfold stopped. cbn [run]. intros ->. exact I. Qed.

Lemma stopped_done (s s' : SimState) :
  iterate s = Ok (Done s') -> current_day s' = None -> stopped 1 s.
Proof. unfold stopped. cbn [run]. intros ->. cbn [bind]. exact (fun H => H). Qed.

Lemma stopped_running (n : nat) (s s' : SimState) :
  iterate s = Ok (Running s') -> stopped n s' -> stopped (S n) s.
Proof. unfold stopped. cbn [run]. intros ->. cbn [bind]. exact (fun H => H). Qed.

(** A day is over within [k] ticks when [k] intervals reach its end,
    given that the days after it come to an end. *)
Lemma day_stops (R : nat)
    (Hnext : forall s d,
        current_day s = Some d ->
        String.length (arg_days (args s)) - d < R ->
        (0 < time_interval (args s))%Z ->
        exists n, stopped n s) :
  forall (k : nat) (s : SimState) (d : nat),
    current_day s = Some d ->
    String.length (arg_days (args s)) - d <= R ->
    (0 < time_interval (args s))%Z ->
    (inject_Z DAY_END_TIME
     <= current_minute s
        + inject_Z (Z.of_nat k) * (inject_Z (time_interval (args s)) / 60))%Q ->
    exists n, stopped n s.
Proof.
  induction k as [|k IH]; intros s d Hday HR Hti Hk.
  - destruct (iterate s) as [[s'|s']|e] eqn:Hit.
    + pose proof (iterate_cases _ _ Hit) as (d0 & Hd0 & Ha & Hcase).
      rewrite Hday in Hd0. inversion Hd0. subst d0.
      destruct Hcase as [(Hend & _)|(_ & Hlt & Hd' & _)].
      * exfalso.
        assert (Hge : (inject_Z DAY_END_TIME
                       <= advance (current_minute s) (time_interval (args s)))%Q).
        { rewrite advance_eq.
          apply Qle_trans with (current_minute s + 0)%Q.
          - cbn [Z.of_nat] in Hk.
            now rewrite Qmult_0_l in Hk.
          - apply Qplus_le_compat; [apply Qle_refl|].
            apply Qle_shift_div_l; [reflexivity|].
            rewrite Qmult_0_l. change 0%Q with (inject_Z 0).
            rewrite <- Zle_Qle. lia. }
        apply Qle_bool_iff in Hge. congruence.
      * destruct (Hnext s' (S d) Hd') as [n Hn]; [rewrite Ha; lia|now rewrite Ha|].
        exists (S n). exact (stopped_running _ _ _ Hit Hn).
    + pose proof (iterate_cases _ _ Hit) as (d0 & _ & _ & _ & Hnone).
      exists 1. exact (stopped_done _ _ Hit Hnone).
    + exists 1. exact (stopped_raise _ _ Hit).
  - destruct (iterate s) as [[s'|s']|e] eqn:Hit.
    + pose proof (iterate_cases _ _ Hit) as (d0 & Hd0 & Ha & Hcase).
      rewrite Hday in Hd0. inversion Hd0. subst d0.
      destruct Hcase as [(_ & Hd' & Hm')|(_ & Hlt & Hd' & _)].
      * destruct (IH s' d Hd') as [n Hn]; [now rewrite Ha|now rewrite Ha|
                                           |exists (S n);
                                            exact (stopped_running _ _ _ Hit Hn)].
        rewrite Hm', Ha, advance_eq.
        eapply Qle_trans; [exact Hk|].
        rewrite Nat2Z.inj_succ. unfold Z.succ. rewrite inject_Z_plus.
        apply Qle_lteq. right. ring.
      * destruct (Hnext s' (S d) Hd') as [n Hn]; [rewrite Ha; lia|now rewrite Ha|].
        exists (S n). exact (stopped_running _ _ _ Hit Hn).
    + pose proof (iterate_cases _ _ Hit) as (d0 & _ & _ & _ & Hnone).
      exists 1. exact (stopped_done _ _ Hit Hnone).
    + exists 1. exact (stopped_raise _ _ Hit).
Qed.

(** Enough intervals reach the end of the day. *)
Lemma intervals_reach (m : Q) (z : Z) :
  (0 < z)%Z ->
  exists k : nat,
    (inject_Z DAY_END_TIME <= m + inject_Z (Z.of_nat k) * (inject_Z z / 60))%Q.
Proof.
  intros Hz.
  set (x := ((inject_Z DAY_END_TIME - m) / (inject_Z z / 60))%Q).
  exists (Z.to_nat (Qceiling x)).
  assert (Hstep : (0 < inject_Z z / 60)%Q).
  { apply Qlt_shift_div_l; [reflexivity|].
    rewrite Qmult_0_l. change 0%Q with (inject_Z 0).
    rewrite <- Zlt_Qlt. exact Hz. }
  assert (Hx : (x <= inject_Z (Z.of_nat (Z.to_nat (Qceiling x))))%Q).
  { apply Qle_trans with (inject_Z (Qceiling x)); [apply Qle_ceiling|].
    rewrite <- Zle_Qle. lia. }
  apply (Qmult_le_compat_r _ _ (inject_Z z / 60)) in Hx;
    [|now apply Qlt_le_weak].
  unfold x in Hx at 1.
  assert (Hcancel : ((inject_Z DAY_END_TIME - m) / (inject_Z z / 60)
                     * (inject_Z z / 60)
                     == inject_Z DAY_END_TIME - m)%Q).
  { field. intros Hc.
    assert (H60 : (inject_Z z / 60 == 0)%Q) by (rewrite Hc; reflexivity).
    rewrite H60 in Hstep. discriminate. }
  rewrite Hcancel in Hx.
  apply (Qplus_le_compat m m) in Hx; [|apply Qle_refl].
  eapply Qle_trans; [|exact Hx].
  apply Qle_lteq. right. ring.
Qed.

Lemma days_stop (R : nat) :
  forall (s : SimState) (d : nat),
    current_day s = Some d ->
    String.length (arg_days (args s)) - d < R ->
    (0 < time_interval (args s))%Z ->
    exists n, stopped n s.
Proof.
  induction R as [|R IH]; intros s d Hday HR Hti; [lia|].
  destruct (intervals_reach (current_minute s) (time_interval (args s)) Hti)
    as [k Hk].
  apply (day_stops R IH k s d Hday); [lia|exact Hti|exact Hk].
Qed.

(** X11. The driver loop of [main] comes to an end: with a positive
    [--time-interval], from any state that has a current day, some tick
    raises or returns [None] after finitely many ticks. *)
Theorem driver_loop_stops (s : SimState) (d : nat) :
  current_day s = Some d ->
  (0 < time_interval (args s))%Z ->
  exists n, stopped n s.
Proof.
  intros Hday Hti.
  exact (days_stop (S (String.length (arg_days (args s)) - d)) s d Hday
           (Nat.lt_succ_diag_r _) Hti).
Qed.

(** X12. With a [--time-interval] of zero or less the loop never ends in
    the regular way: from a state before the end of the day no tick ever
    returns [None], so the simulation runs on until a tick raises. *)
Theorem driver_loop_never_done (n : nat) :
  forall (s s' : SimState) (d : nat),
    current_day s = Some d ->
    (time_interval (args s) <= 0)%Z ->
    (current_minute s < inject_Z DAY_END_TIME)%Q ->
    run n s = Ok s' ->
    exists d', current_day s' = Some d'.
Proof.
  induction n as [|n IH]; intros s s' d Hday Hti Hm.
  - cbn [run]. intros H. inversion H. subst s'. now exists d.
  - cbn [run].
    assert (Hadv : Qle_bool (inject_Z DAY_END_TIME)
                     (advance (current_minute s) (time_interval (args s)))
                   = false).
    { destruct (Qle_bool _ _) eqn:Hle; [|reflexivity].
      apply Qle_bool_iff in Hle. rewrite advance_eq in Hle.
      exfalso. apply (Qlt_not_le _ _ Hm).
      eapply Qle_trans; [exact Hle|].
      rewrite <- (Qplus_0_r (current_minute s)) at 2.
      apply Qplus_le_compat; [apply Qle_refl|].
      apply Qle_shift_div_r; [reflexivity|].
      rewrite Qmult_0_l. change 0%Q with (inject_Z 0).
      rewrite <- Zle_Qle. exact Hti. }
    destruct (iterate s) as [[s1|s1]|e] eqn:Hit; cbn [bind]; [| |discriminate].
    + pose proof (iterate_cases _ _ Hit) as (d0 & Hd0 & Ha & Hcase).
      destruct Hcase as [(_ & Hd1 & Hm1)|(Hend & _)]; [|congruence].
      apply (IH s1 s' d0 Hd1); [now rewrite Ha|].
      rewrite Hm1, advance_eq.
      eapply Qle_lt_trans; [|exact Hm].
      rewrite <- (Qplus_0_r (current_minute s)) at 2.
      apply Qplus_le_compat; [apply Qle_refl|].
      apply Qle_shift_div_r; [reflexivity|].
      rewrite Qmult_0_l. change 0%Q with (inject_Z 0).
      rewrite <- Zle_Qle. exact Hti.
    + pose proof (iterate_cases _ _ Hit) as (d0 & _ & Hend & _). congruence.
Qed.

(** ** The waits held by the halls stay in range *)

Lemma alive_pos (t : Q) : alive t = true <-> (0 < t)%Q.
Proof.
  unfold alive, expired. rewrite negb_true_iff. split.
  - intros H. apply Qnot_le_lt. intros Hle.
    apply Qle_bool_iff in Hle. congruence.
  - intros H. destruct (Qle_bool t 0) eqn:Hle; [|reflexivity].
    apply Qle_bool_iff in Hle. exfalso. exact (Qlt_not_le _ _ H Hle).
Qed.

Lemma reachable_args (et : EndTimes) (ld : LocationData) (a : Args)
    (seed : Rng) (s : SimState) :
  reachable (init et ld a seed) s -> args s = a.
Proof.
  induction 1 as [|s s' _ IH Hit]; [reflexivity|].
  apply iterate_clock in Hit. destruct Hit as [Ha _]. now rewrite Ha.
Qed.

(** One tick keeps the waits in range when the clock does not run
    backwards. *)
Lemma tick_waits_in_range (s s' : SimState) :
  (0 <= time_interval (args s))%Z ->
  waits_in_range (people_in_dining_halls s) ->
  iterate s = Ok (Running s') ->
  waits_in_range (people_in_dining_halls s').
Proof.
  intros Hti Hs Hit. apply iterate_running_inv in Hit.
  apply run_steps_inv in Hit.
  destruct Hit as (people1 & r1 & people2 & r2 & lg & _ & _ & _ & Hs').
  cbv zeta in Hs'. inversion Hs' as [Heq]. clear Hs' Heq.
  cbn [people_in_dining_halls].
  set (delta := (advance (current_minute s) (time_interval (args s))
                 - current_minute s)%Q).
  assert (Hdelta : (0 <= delta)%Q).
  { subst delta. rewrite advance_eq.
    setoid_replace (current_minute s + inject_Z (time_interval (args s)) / 60
                    - current_minute s)%Q
      with (inject_Z (time_interval (args s)) / 60)%Q by ring.
    apply Qle_shift_div_l; [reflexivity|].
    rewrite Qmult_0_l. change 0%Q with (inject_Z 0).
    rewrite <- Zle_Qle. exact Hti. }
  assert (Hclock : waits_in_range (people_in_dining_halls (after_clock s))).
  { unfold after_clock. destruct (Qle_bool _ _); [|exact Hs].
    destruct (current_day s); [|exact Hs].
    intros h. destruct h; split; constructor. }
  set (halls0 := people_in_dining_halls (after_clock s)) in *.
  set (a := args (after_clock s)).
  intros h.
  rewrite arrive_step_halls.
  destruct (arrive_loop_spec a people2 0 halls0 r2) as [_ Harr].
  destruct (Harr h) as [Heat (new & Hline & _ & _ & Hnew)]. cbv zeta in Heat, Hline.
  unfold service_step.
  destruct (serve_halls_spec delta a h DINING_HALLS
              (fst (fst (arrive_loop 0 a people2 halls0 r2)))
              (snd (arrive_step a people2 halls0 r2)) DINING_HALLS_NoDup)
    as [r_h Hr_h].
  assert (Hin : existsb (Hall_eqb h) DINING_HALLS = true).
  { apply existsb_exists. exists h. split;
      [apply DINING_HALLS_complete | apply Hall_eqb_refl]. }
  rewrite Hin in Hr_h. rewrite Hr_h, serve_hall_spec. cbn [fst in_line eating].
  destruct (Hclock h) as [Hline0 _].
  split.
  - apply Forall_forall. intros t Ht. apply filter_In in Ht.
    destruct Ht as [Ht Halive]. apply alive_pos in Halive.
    split; [exact Halive|].
    apply in_map_iff in Ht. destruct Ht as (t0 & <- & Ht0).
    rewrite Hline in Ht0.
    assert (Ht0' : (t0 <= 60)%Q).
    { apply in_app_or in Ht0. destruct Ht0 as [Hold|Hfresh].
      - rewrite Forall_forall in Hline0. now apply Hline0.
      - rewrite Forall_forall in Hnew. now apply Hnew. }
    apply Qle_trans with (t0 - 0)%Q.
    + apply Qplus_le_compat; [apply Qle_refl|].
      now apply Qopp_le_compat.
    + unfold Qminus. now rewrite Qplus_0_r.
  - apply Forall_forall. intros t Ht. apply filter_In in Ht.
    destruct Ht as [_ Halive]. now apply alive_pos.
Qed.

(** X13. In every state the driver can observe, with a [--time-interval]
    that is not negative, each wait in a line is positive and at most 60
    minutes and each eating time left is positive: an entry that has run
    out is never carried into the next tick. *)
Theorem reachable_waits_in_range (et : EndTimes) (ld : LocationData)
    (a : Args) (seed : Rng) (s : SimState) :
  (0 <= time_interval a)%Z ->
  reachable (init et ld a seed) s ->
  waits_in_range (people_in_dining_halls s).
Proof.
  intros Hti Hreach.
  induction Hreach as [|s s' Hreach IH Hit].
  - intros h. destruct h; split; constructor.
  - apply (tick_waits_in_range s s'); [|exact IH|exact Hit].
    now rewrite (reachable_args _ _ _ _ _ Hreach).
Qed.

(** ** Reading an end time *)

Lemma append_cons_assoc (cur : string) (c : ascii) (s : string) :
  ((cur ++ String c EmptyString) ++ s)%string = (cur ++ String c s)%string.
Proof.
  induction cur as [|x cur IH]; [reflexivity|].
  cbn [String.append]. now rewrite IH.
Qed.

Lemma append_empty_r (s : string) : (s ++ EmptyString)%string = s.
Proof.
  induction s as [|x s IH]; [reflexivity|].
  cbn [String.append]. now rewrite IH.
Qed.

Lemma digit_not_colon (c : ascii) (d : Z) :
  digit_of c = Some d -> Ascii.eqb c ":"%char = false.
Proof.
  intros H. destruct (Ascii.eqb_spec c ":"%char) as [->|]; [|reflexivity].
  vm_compute in H. discriminate.
Qed.

Lemma space_not_colon (c : ascii) :
  is_space c = true -> Ascii.eqb c ":"%char = false.
Proof.
  intros H. destruct (Ascii.eqb_spec c ":"%char) as [->|]; [|reflexivity].
  vm_compute in H. discriminate.
Qed.

Lemma all_space_colon_free (s : string) :
  all_space s = true -> colon_free s = true.
Proof.
  induction s as [|c s IH]; [reflexivity|].
  cbn [all_space colon_free]. intros H. apply andb_true_iff in H.
  destruct H as [Hc Hs]. now rewrite (space_not_colon _ Hc), IH.
Qed.

(** What [digits_from] accepts holds no colon, neither behind one more
    character it accepts. *)
Lemma digits_from_colon_free (s : string) :
  (forall acc z, digits_from acc s = Some z -> colon_free s = true) /\
  (forall c acc z,
     digits_from acc (String c s) = Some z ->
     colon_free (String c s) = true).
Proof.
  induction s as [|c1 s1 [IH1 IH2]].
  - split; [reflexivity|]. intros c acc z. cbn [digits_from].
    destruct (digit_of c) as [d|] eqn:Hd.
    + intros _. cbn [colon_free]. now rewrite (digit_not_colon _ _ Hd).
    + destruct (Ascii.eqb c "_"%char); [discriminate|].
      destruct (all_space (String c EmptyString)) eqn:Hsp; [|discriminate].
      intros _. now apply all_space_colon_free.
  - split; [exact (IH2 c1)|]. intros c acc z.
    change (digits_from acc (String c (String c1 s1)))
      with (match digit_of c with
            | Some d => digits_from (acc * 10 + d)%Z (String c1 s1)
            | None =>
                if Ascii.eqb c "_"%char then
                  match digit_of c1 with
                  | Some d => digits_from (acc * 10 + d)%Z s1
                  | None => None
                  end
                else if all_space (String c (String c1 s1)) then Some acc
                     else None
            end).
    destruct (digit_of c) as [d|] eqn:Hd.
    + intros H. cbn [colon_free]. rewrite (digit_not_colon _ _ Hd).
      exact (IH2 c1 _ _ H).
    + destruct (Ascii.eqb_spec c "_"%char) as [->|Hne].
      * destruct (digit_of c1) as [d1|] eqn:Hd1; [|discriminate].
        intros H. cbn [colon_free]. rewrite (digit_not_colon _ _ Hd1).
        now rewrite (IH1 _ _ H).
      * destruct (all_space (String c (String c1 s1))) eqn:Hsp;
          [|discriminate].
        intros _. now apply all_space_colon_free.
Qed.

Lemma unsigned_colon_free (s : string) (z : Z) :
  unsigned_of_string s = Some z -> colon_free s = true.
Proof.
  destruct s as [|c s]; [discriminate|]. cbn [unsigned_of_string].
  destruct (digit_of c) as [d|] eqn:Hd; [|discriminate].
  intros H. cbn [colon_free]. rewrite (digit_not_colon _ _ Hd).
  exact (proj1 (digits_from_colon_free s) _ _ H).
Qed.

Lemma lstrip_colon_free (s : string) :
  colon_free (skip_blanks s) = true -> colon_free s = true.
Proof.
  induction s as [|c s IH]; [reflexivity|].
  cbn [skip_blanks]. destruct (is_space c) eqn:Hc; [|exact (fun H => H)].
  intros H. cbn [colon_free]. now rewrite (space_not_colon _ Hc), IH.
Qed.

(** A string that [int] reads holds no colon. *)
Lemma int_of_string_colon_free (s : string) (z : Z) :
  int_of_string s = Ok z -> colon_free s = true.
Proof.
  unfold int_of_string. cbv zeta. intros H. apply lstrip_colon_free.
  destruct (skip_blanks s) as [|c rest]; [discriminate|].
  destruct (Ascii.eqb_spec c "+"%char) as [->|Hplus].
  - destruct (unsigned_of_string rest) as [u|] eqn:Hu; [|discriminate].
    cbn [colon_free]. now rewrite (unsigned_colon_free _ _ Hu).
  - destruct (Ascii.eqb_spec c "-"%char) as [->|Hminus].
    + destruct (unsigned_of_string rest) as [u|] eqn:Hu; [|discriminate].
      cbn [colon_free]. now rewrite (unsigned_colon_free _ _ Hu).
    + destruct (unsigned_of_string (String c rest)) as [u|] eqn:Hu;
        [|discriminate].
      exact (unsigned_colon_free _ _ Hu).
Qed.

(** The split runs through a string without a colon. *)
Lemma split_colon_free (s : string) :
  forall (cur rest : string),
    colon_free s = true ->
    split_colon_from cur (s ++ rest) = split_colon_from (cur ++ s) rest.
Proof.
  induction s as [|c s IH]; intros cur rest H.
  - cbn [String.append]. now rewrite append_empty_r.
  - cbn [colon_free] in H. apply andb_true_iff in H. destruct H as [Hc Hs].
    apply negb_true_iff in Hc.
    cbn [String.append split_colon_from]. rewrite Hc.
    rewrite (IH _ rest Hs). now rewrite append_cons_assoc.
Qed.

(** X14. [time_to_minutes] reads the hours and the minutes and nothing
    else: for strings [h] and [m] that [int] reads as [hh] and [mm] it
    returns [60 * hh + mm] on [h:m] and on [h:m:rest], whatever [rest] is
    (the seconds are never looked at, and neither number is checked
    against a range), and on [h] alone, without a colon, it raises
    [IndexError]. *)
Theorem time_to_minutes_hours_and_minutes
    (h m rest : string) (hh mm : Z) :
  int_of_string h = Ok hh ->
  int_of_string m = Ok mm ->
  time_to_minutes (h ++ ":" ++ m ++ ":" ++ rest) = Ok (hh * 60 + mm)%Z /\
  time_to_minutes (h ++ ":" ++ m) = Ok (hh * 60 + mm)%Z /\
  time_to_minutes h = Raise IndexError.
Proof.
  intros Hh Hm.
  pose proof (int_of_string_colon_free _ _ Hh) as Dh.
  pose proof (int_of_string_colon_free _ _ Hm) as Dm.
  assert (S1 : forall tail,
             split_colon (h ++ ":" ++ tail) = h :: split_colon tail).
  { intros tail. unfold split_colon.
    rewrite (split_colon_free _ EmptyString _ Dh).
    reflexivity. }
  assert (S2 : forall tail,
             split_colon (m ++ ":" ++ tail) = m :: split_colon tail).
  { intros tail. unfold split_colon.
    rewrite (split_colon_free _ EmptyString _ Dm).
    reflexivity. }
  assert (S3 : split_colon m = [m]).
  { unfold split_colon. rewrite <- (append_empty_r m) at 1.
    rewrite (split_colon_free _ EmptyString _ Dm). reflexivity. }
  assert (S4 : split_colon h = [h]).
  { unfold split_colon. rewrite <- (append_empty_r h) at 1.
    rewrite (split_colon_free _ EmptyString _ Dh). reflexivity. }
  unfold time_to_minutes. repeat split.
  - rewrite S1, S2. unfold index_str. cbn [nth_error bind].
    rewrite Hh. cbn [bind]. rewrite Hm. reflexivity.
  - rewrite S1, S3. unfold index_str. cbn [nth_error bind].
    rewrite Hh. cbn [bind]. rewrite Hm. reflexivity.
  - rewrite S4. unfold index_str. cbn [nth_error bind].
    rewrite Hh. reflexivity.
Qed.

(** ** What [main] files in [end_times] *)

Lemma list_sum_cons (x : nat) (l : list nat) :
  list_sum (x :: l) = x + list_sum l.
Proof. reflexivity. Qed.

Lemma list_sum_nil : list_sum [] = 0.
Proof. reflexivity. Qed.

Ltac sums :=
  cbn [fold_left map snd List.length];
  rewrite ?list_sum_cons, ?list_sum_nil.

Section DictMeasure.
Context {K V : Type}.
Variable key_eqb : K -> K -> bool.
Variable mu : V -> nat.

(** What an update adds to the sum of [mu] over the values of a dict. *)
Lemma dict_upd_measure (k : K) (f : V -> V) (dflt : V) (n : nat) :
  (forall v, mu (f v) = mu v + n) -> mu dflt = 0 ->
  forall d,
    list_sum (map (fun kv => mu (snd kv)) (dict_upd key_eqb k f dflt d))
    = list_sum (map (fun kv => mu (snd kv)) d) + n.
Proof.
  intros Hf Hd.
  induction d as [|[k' v] d IH].
  - cbn [dict_upd]. sums. rewrite Hf, Hd. lia.
  - cbn [dict_upd]. destruct (key_eqb k k'); sums; [rewrite Hf|rewrite IH]; lia.
Qed.
End DictMeasure.

Section DictForall.
Context {K V : Type}.
Variable key_eqb : K -> K -> bool.
Variable P : K -> V -> Prop.

Lemma dict_upd_Forall (k : K) (f : V -> V) (dflt : V) :
  (forall k' v, key_eqb k k' = true -> P k' v -> P k' (f v)) ->
  P k (f dflt) ->
  forall d,
    Forall (fun kv => P (fst kv) (snd kv)) d ->
    Forall (fun kv => P (fst kv) (snd kv)) (dict_upd key_eqb k f dflt d).
Proof.
  intros Hf Hd. induction d as [|[k' v] d IH]; intros Hall.
  - cbn [dict_upd]. constructor; [exact Hd|constructor].
  - inversion Hall as [|? ? Hhead Htail]; subst. cbn [dict_upd].
    destruct (key_eqb k k') eqn:Hk.
    + constructor; [|exact Htail]. cbn [fst snd] in *. now apply Hf.
    + constructor; [exact Hhead|]. now apply IH.
Qed.
End DictForall.

Lemma slot_days_app (l l' : list Slot) :
  slot_days (l ++ l') = slot_days l + slot_days l'.
Proof.
  unfold slot_days. now rewrite map_app, list_sum_app.
Qed.

(** Step one keeps the weekday names: one slot per meeting. *)
Lemma schedule_by_classroom_days (courses : list Course) :
  list_sum (map (fun kv => slot_days (snd kv)) (schedule_by_classroom courses))
  = meeting_days courses.
Proof.
  unfold schedule_by_classroom, meeting_days.
  assert (Hin : forall c ts acc,
             list_sum (map (fun kv => slot_days (snd kv))
                         (fold_left (add_slot c) ts acc))
             = list_sum (map (fun kv => slot_days (snd kv)) acc)
               + list_sum (map (fun t => List.length (days t)) ts)).
  { intros c ts. induction ts as [|t ts IH]; intros acc.
    - sums. lia.
    - sums. rewrite IH.
      unfold add_slot.
      rewrite (dict_upd_measure String.eqb slot_days (building t) _ []
                 (List.length (days t))).
      + lia.
      + intros v. rewrite slot_days_app. unfold slot_days at 2.
        sums. cbn [slot_timing]. lia.
      + reflexivity. }
  assert (Hout : forall cs acc,
             list_sum (map (fun kv => slot_days (snd kv))
                         (fold_left
                            (fun acc c => fold_left (add_slot c) (timing c) acc)
                            cs acc))
             = list_sum (map (fun kv => slot_days (snd kv)) acc)
               + list_sum
                   (map (fun c =>
                           list_sum (map (fun t => List.length (days t))
                                       (timing c))) cs)).
  { induction cs as [|c cs IH]; intros acc.
    - sums. lia.
    - sums. rewrite IH, Hin. lia. }
  rewrite Hout. reflexivity.
Qed.

Lemma add_day_slots (classroom : string) (sl : Slot) (acc : ByDay)
    (day : string) :
  week_slots (add_day classroom sl acc day) = week_slots acc + 1.
Proof.
  unfold week_slots, add_day.
  apply (dict_upd_measure String.eqb
           (fun rooms : list (string * list Slot) =>
              list_sum (map (fun kv' => List.length (snd kv')) rooms))).
  - intros rooms.
    apply (dict_upd_measure String.eqb (fun l : list Slot => List.length l)).
    + intros l. rewrite length_app. reflexivity.
    + reflexivity.
  - reflexivity.
Qed.

(** Step two files every slot once per weekday name it lists. *)
Lemma group_by_day_slots (by_classroom : list (string * list Slot)) :
  week_slots (group_by_day by_classroom)
  = list_sum (map (fun kv => slot_days (snd kv)) by_classroom).
Proof.
  unfold group_by_day.
  assert (Hdays : forall classroom sl ds acc,
             week_slots (fold_left (add_day classroom sl) ds acc)
             = week_slots acc + List.length ds).
  { intros classroom sl ds. induction ds as [|d ds IH]; intros acc.
    - cbn [fold_left List.length]. lia.
    - cbn [fold_left List.length]. rewrite IH, add_day_slots. lia. }
  assert (Hslots : forall classroom slots acc,
             week_slots
               (fold_left
                  (fun acc sl =>
                     fold_left (add_day classroom sl) (days (slot_timing sl)) acc)
                  slots acc)
             = week_slots acc + slot_days slots).
  { intros classroom slots. induction slots as [|sl slots IH]; intros acc.
    - unfold slot_days. sums. lia.
    - cbn [fold_left]. rewrite IH, Hdays. unfold slot_days. sums. lia. }
  assert (Hrooms : forall rooms acc,
             week_slots
               (fold_left
                  (fun acc '(classroom, slots) =>
                     fold_left
                       (fun acc sl =>
                          fold_left (add_day classroom sl)
                            (days (slot_timing sl)) acc)
                       slots acc)
                  rooms acc)
             = week_slots acc
               + list_sum (map (fun kv => slot_days (snd kv)) rooms)).
  { induction rooms as [|[classroom slots] rooms IH]; intros acc.
    - sums. lia.
    - sums. rewrite IH, Hslots. lia. }
  rewrite Hrooms. reflexivity.
Qed.

Lemma insert_slot_length (sl : Slot) (l : list Slot) :
  List.length (insert_slot sl l) = S (List.length l).
Proof.
  induction l as [|x l IH]; [reflexivity|].
  cbn [insert_slot]. destruct (String.leb _ _); cbn [List.length]; [|rewrite IH];
    reflexivity.
Qed.

Lemma sort_slots_length (l : list Slot) :
  List.length (sort_slots l) = List.length l.
Proof.
  unfold sort_slots. induction l as [|x l IH]; [reflexivity|].
  cbn [fold_right List.length]. now rewrite insert_slot_length, IH.
Qed.

Lemma schedule_by_day_slots (courses : list Course) :
  week_slots (schedule_by_day courses) = meeting_days courses.
Proof.
  rewrite <- schedule_by_classroom_days, <- group_by_day_slots.
  unfold schedule_by_day, week_slots.
  induction (group_by_day (schedule_by_classroom courses))
    as [|[day rooms] w IH]; [reflexivity|].
  sums. rewrite IH. f_equal.
  clear IH. induction rooms as [|[room l] rooms IH]; [reflexivity|].
  sums. now rewrite IH, sort_slots_length.
Qed.

(** Step three, on one list of slots: it returns only if the index so
    far was there, and then files one entry per slot. *)
Lemma add_end_time_fold (slots : list Slot) :
  forall (acc : Result EndTimes) (et : EndTimes),
    fold_left add_end_time slots acc = Ok et ->
    exists et0, acc = Ok et0 /\ filed et = filed et0 + List.length slots.
Proof.
  induction slots as [|sl slots IH]; intros acc et H.
  - cbn [fold_left] in H. exists et. split; [exact H|cbn [List.length]; lia].
  - cbn [fold_left] in H. apply IH in H. destruct H as (et1 & H1 & Hn).
    unfold add_end_time in H1.
    destruct acc as [et0|e]; cbn [bind] in H1; [|discriminate].
    destruct (time_to_minutes _) as [tm|e]; cbn [bind] in H1; [|discriminate].
    inversion H1. subst et1. exists et0. split; [reflexivity|].
    rewrite Hn. unfold filed.
    rewrite (dict_upd_measure Z.eqb (fun l : list EndEntry => List.length l)
               tm _ [] 1).
    + cbn [List.length]. lia.
    + intros l. rewrite length_app. reflexivity.
    + reflexivity.
Qed.

Lemma build_rooms_fold (rooms : list (string * list Slot)) :
  forall (acc : Result EndTimes) (et : EndTimes),
    fold_left (fun acc '(_, slots) => fold_left add_end_time slots acc) rooms acc
    = Ok et ->
    exists et0,
      acc = Ok et0 /\
      filed et
      = filed et0 + list_sum (map (fun kv => List.length (snd kv)) rooms).
Proof.
  induction rooms as [|[room slots] rooms IH]; intros acc et H.
  - cbn [fold_left] in H. exists et. split; [exact H|]. sums. lia.
  - cbn [fold_left] in H. apply IH in H. destruct H as (et1 & H1 & Hn).
    apply add_end_time_fold in H1. destruct H1 as (et0 & H0 & Hm).
    exists et0. split; [exact H0|]. sums. lia.
Qed.

Lemma build_week_fold (w : ByDay) :
  forall (acc : Result EndTimes) (et : EndTimes),
    fold_left
      (fun acc '(_, rooms) =>
         fold_left (fun acc '(_, slots) => fold_left add_end_time slots acc)
           rooms acc)
      w acc
    = Ok et ->
    exists et0, acc = Ok et0 /\ filed et = filed et0 + week_slots w.
Proof.
  induction w as [|[day rooms] w IH]; intros acc et H.
  - cbn [fold_left] in H. exists et. split; [exact H|].
    unfold week_slots. sums. lia.
  - cbn [fold_left] in H. apply IH in H. destruct H as (et1 & H1 & Hn).
    apply build_rooms_fold in H1. destruct H1 as (et0 & H0 & Hm).
    exists et0. split; [exact H0|].
    unfold week_slots in *. sums. lia.
Qed.

(** X15. What [main] files in [end_times]: whenever the index is built,
    it holds one entry for every weekday name listed by every meeting of
    every course, no more and no fewer. A meeting that lists two days is
    filed twice under its end minute. *)
Theorem build_end_times_files_every_day
    (courses : list Course) (et : EndTimes) :
  build_end_times courses = Ok et ->
  filed et = meeting_days courses.
Proof.
  unfold build_end_times. intros H.
  apply build_week_fold in H. destruct H as (et0 & H0 & Hn).
  inversion H0. subst et0. rewrite Hn, schedule_by_day_slots.
  reflexivity.
Qed.

(** ** Where the entries of [end_times] come from *)

Lemma Forall_snoc {A : Type} (P : A -> Prop) (l : list A) (x : A) :
  Forall P l -> P x -> Forall P (l ++ [x]).
Proof.
  intros Hl Hx. apply Forall_app. split; [exact Hl|]. now constructor.
Qed.

Lemma schedule_by_classroom_slots (courses : list Course) :
  Forall (fun kv => Forall (slot_of courses) (snd kv))
    (schedule_by_classroom courses).
Proof.
  unfold schedule_by_classroom.
  assert (Hin : forall c, In c courses ->
             forall ts, incl ts (timing c) ->
             forall acc,
               Forall (fun kv => Forall (slot_of courses) (snd kv)) acc ->
               Forall (fun kv => Forall (slot_of courses) (snd kv))
                 (fold_left (add_slot c) ts acc)).
  { intros c Hc ts. induction ts as [|t ts IH]; intros Hts acc Hacc.
    - exact Hacc.
    - cbn [fold_left]. apply IH; [intros x Hx; apply Hts; now right|].
      unfold add_slot.
      apply (dict_upd_Forall String.eqb
               (fun (_ : string) l => Forall (slot_of courses) l)).
      + intros k' v _ Hv. apply Forall_snoc; [exact Hv|].
        split; [exact Hc|apply Hts; now left].
      + apply (Forall_snoc _ []); [constructor|].
        split; [exact Hc|apply Hts; now left].
      + exact Hacc. }
  assert (Hout : forall cs, incl cs courses ->
             forall acc,
               Forall (fun kv => Forall (slot_of courses) (snd kv)) acc ->
               Forall (fun kv => Forall (slot_of courses) (snd kv))
                 (fold_left
                    (fun acc c => fold_left (add_slot c) (timing c) acc)
                    cs acc)).
  { induction cs as [|c cs IH]; intros Hcs acc Hacc.
    - exact Hacc.
    - cbn [fold_left]. apply IH; [intros x Hx; apply Hcs; now right|].
      apply Hin; [apply Hcs; now left|apply incl_refl|exact Hacc]. }
  apply Hout; [apply incl_refl|constructor].
Qed.

Lemma group_by_day_slots_of (courses : list Course)
    (by_classroom : list (string * list Slot)) :
  Forall (fun kv => Forall (slot_of courses) (snd kv)) by_classroom ->
  Forall (fun kv =>
            Forall (fun kv' => Forall (slot_of courses) (snd kv')) (snd kv))
    (group_by_day by_classroom).
Proof.
  set (inv := Forall (fun kv : string * list (string * list Slot) =>
                        Forall (fun kv' => Forall (slot_of courses) (snd kv'))
                          (snd kv))).
  assert (Hday : forall classroom sl day acc,
             slot_of courses sl -> inv acc ->
             inv (add_day classroom sl acc day)).
  { intros classroom sl day acc Hsl Hacc. unfold add_day.
    apply (dict_upd_Forall String.eqb
             (fun (_ : string) rooms =>
                Forall (fun kv' : string * list Slot =>
                          Forall (slot_of courses) (snd kv')) rooms)).
    - intros k' rooms _ Hrooms.
      apply (dict_upd_Forall String.eqb
               (fun (_ : string) l => Forall (slot_of courses) l)).
      + intros k'' l _ Hl. now apply Forall_snoc.
      + apply (Forall_snoc _ []); [constructor|exact Hsl].
      + exact Hrooms.
    - apply (dict_upd_Forall String.eqb
               (fun (_ : string) l => Forall (slot_of courses) l)).
      + intros k'' l _ Hl. now apply Forall_snoc.
      + apply (Forall_snoc _ []); [constructor|exact Hsl].
      + constructor.
    - exact Hacc. }
  assert (Hdays : forall classroom sl ds acc,
             slot_of courses sl -> inv acc ->
             inv (fold_left (add_day classroom sl) ds acc)).
  { intros classroom sl ds. induction ds as [|d ds IH]; intros acc Hsl Hacc.
    - exact Hacc.
    - cbn [fold_left]. apply IH; [exact Hsl|]. now apply Hday. }
  assert (Hslots : forall classroom slots acc,
             Forall (slot_of courses) slots -> inv acc ->
             inv (fold_left
                    (fun acc sl =>
                       fold_left (add_day classroom sl)
                         (days (slot_timing sl)) acc)
                    slots acc)).
  { intros classroom slots.
    induction slots as [|sl slots IH]; intros acc Hs Hacc.
    - exact Hacc.
    - inversion Hs; subst. cbn [fold_left]. apply IH; [assumption|].
      now apply Hdays. }
  intros Hbc. unfold group_by_day.
  assert (Hrooms : forall rooms acc,
             Forall (fun kv => Forall (slot_of courses) (snd kv)) rooms ->
             inv acc ->
             inv (fold_left
                    (fun acc '(classroom, slots) =>
                       fold_left
                         (fun acc sl =>
                            fold_left (add_day classroom sl)
                              (days (slot_timing sl)) acc)
                         slots acc)
                    rooms acc)).
  { induction rooms as [|[classroom slots] rooms IH]; intros acc Hr Hacc.
    - exact Hacc.
    - inversion Hr; subst. cbn [fold_left]. apply IH; [assumption|].
      now apply Hslots. }
  apply Hrooms; [exact Hbc|].
  unfold inv, empty_week. repeat constructor.
Qed.

Lemma insert_slot_Forall (P : Slot -> Prop) (sl : Slot) (l : list Slot) :
  P sl -> Forall P l -> Forall P (insert_slot sl l).
Proof.
  intros Hsl. induction l as [|x l IH]; intros Hl.
  - now constructor.
  - cbn [insert_slot]. destruct (String.leb _ _).
    + now constructor.
    + inversion Hl; subst. constructor; [assumption|]. now apply IH.
Qed.

Lemma sort_slots_Forall (P : Slot -> Prop) (l : list Slot) :
  Forall P l -> Forall P (sort_slots l).
Proof.
  unfold sort_slots. induction 1 as [|x l Hx Hl IH]; [constructor|].
  cbn [fold_right]. now apply insert_slot_Forall.
Qed.

Lemma schedule_by_day_slots_of (courses : list Course) :
  Forall (fun kv =>
            Forall (fun kv' => Forall (slot_of courses) (snd kv')) (snd kv))
    (schedule_by_day courses).
Proof.
  unfold schedule_by_day.
  pose proof (group_by_day_slots_of courses _
                (schedule_by_classroom_slots courses)) as H.
  induction H as [|[day rooms] w Hrooms _ IH]; [constructor|].
  cbn [map]. constructor; [|exact IH]. cbn [snd] in *.
  induction Hrooms as [|[room l] rooms Hl _ IHr]; [constructor|].
  cbn [map]. constructor; [|exact IHr]. cbn [snd] in *.
  now apply sort_slots_Forall.
Qed.

Lemma add_end_time_entries (courses : list Course) (slots : list Slot) :
  forall (acc : Result EndTimes) (et : EndTimes),
    fold_left add_end_time slots acc = Ok et ->
    Forall (slot_of courses) slots ->
    exists et0,
      acc = Ok et0 /\
      (Forall (fun kv => Forall (entry_at courses (fst kv)) (snd kv)) et0 ->
       Forall (fun kv => Forall (entry_at courses (fst kv)) (snd kv)) et).
Proof.
  induction slots as [|sl slots IH]; intros acc et H Hs.
  - cbn [fold_left] in H. exists et. split; [exact H|exact (fun X => X)].
  - inversion Hs as [|? ? Hsl Hrest]; subst.
    cbn [fold_left] in H. destruct (IH _ _ H Hrest) as (et1 & H1 & Hinv).
    unfold add_end_time in H1.
    destruct acc as [et0|e]; cbn [bind] in H1; [|discriminate].
    destruct (time_to_minutes _) as [tm|e] eqn:Htm; cbn [bind] in H1;
      [|discriminate].
    inversion H1. subst et1. exists et0. split; [reflexivity|].
    intros H0. apply Hinv.
    assert (He : entry_at courses tm
                   {| entry_timing := slot_timing sl;
                      location_string :=
                        (school (slot_timing sl) ++ "-"
                         ++ building (slot_timing sl))%string;
                      people := seats_taken (slot_course sl) |}).
    { exists (slot_course sl), (slot_timing sl). destruct Hsl as [Hc Ht].
      repeat split; assumption. }
    apply (dict_upd_Forall Z.eqb
             (fun k (l : list EndEntry) => Forall (entry_at courses k) l)).
    + intros k' v Hk Hv. apply Z.eqb_eq in Hk. subst k'.
      now apply Forall_snoc.
    + apply (Forall_snoc _ []); [constructor|exact He].
    + exact H0.
Qed.

Lemma build_rooms_entries (courses : list Course)
    (rooms : list (string * list Slot)) :
  forall (acc : Result EndTimes) (et : EndTimes),
    fold_left (fun acc '(_, slots) => fold_left add_end_time slots acc) rooms acc
    = Ok et ->
    Forall (fun kv' => Forall (slot_of courses) (snd kv')) rooms ->
    exists et0,
      acc = Ok et0 /\
      (Forall (fun kv => Forall (entry_at courses (fst kv)) (snd kv)) et0 ->
       Forall (fun kv => Forall (entry_at courses (fst kv)) (snd kv)) et).
Proof.
  induction rooms as [|[room slots] rooms IH]; intros acc et H Hr.
  - cbn [fold_left] in H. exists et. split; [exact H|exact (fun X => X)].
  - inversion Hr as [|? ? Hslots Hrest]; subst.
    cbn [fold_left] in H. destruct (IH _ _ H Hrest) as (et1 & H1 & Hinv).
    destruct (add_end_time_entries courses _ _ _ H1 Hslots)
      as (et0 & H0 & Hinv0).
    exists et0. split; [exact H0|]. intros X. apply Hinv, Hinv0, X.
Qed.

Lemma build_week_entries (courses : list Course) (w : ByDay) :
  forall (acc : Result EndTimes) (et : EndTimes),
    fold_left
      (fun acc '(_, rooms) =>
         fold_left (fun acc '(_, slots) => fold_left add_end_time slots acc)
           rooms acc)
      w acc
    = Ok et ->
    Forall (fun kv =>
              Forall (fun kv' => Forall (slot_of courses) (snd kv')) (snd kv))
      w ->
    exists et0,
      acc = Ok et0 /\
      (Forall (fun kv => Forall (entry_at courses (fst kv)) (snd kv)) et0 ->
       Forall (fun kv => Forall (entry_at courses (fst kv)) (snd kv)) et).
Proof.
  induction w as [|[day rooms] w IH]; intros acc et H Hw.
  - cbn [fold_left] in H. exists et. split; [exact H|exact (fun X => X)].
  - inversion Hw as [|? ? Hrooms Hrest]; subst.
    cbn [fold_left] in H. destruct (IH _ _ H Hrest) as (et1 & H1 & Hinv).
    destruct (build_rooms_entries courses _ _ _ H1 Hrooms)
      as (et0 & H0 & Hinv0).
    exists et0. split; [exact H0|]. intros X. apply Hinv, Hinv0, X.
Qed.

Lemma end_times_get_In (m : Q) (et : EndTimes) (bucket : list EndEntry) :
  end_times_get m et = Some bucket ->
  exists k, In (k, bucket) et /\ (m == inject_Z k)%Q.
Proof.
  induction et as [|[k b] et IH]; [discriminate|].
  cbn [end_times_get]. destruct (Qeq_bool m (inject_Z k)) eqn:Hk.
  - intros H. inversion H. subst b. exists k. split; [now left|].
    now apply Qeq_bool_iff.
  - intros H. destruct (IH H) as (k' & Hin & Hm). exists k'.
    split; [now right|exact Hm].
Qed.

(** X16. Where the entries of [end_times] come from: in the index that
    [main] builds, every entry of the bucket found at minute [m] is made
    from a meeting of one of the courses, carries that course's
    [seats_taken] and the meeting's school and building joined by a
    hyphen, and the meeting's end time reads as [m]. The weekday is no
    part of it. *)
Theorem end_times_bucket_sound
    (courses : list Course) (et : EndTimes) (m : Q)
    (bucket : list EndEntry) (e : EndEntry) :
  build_end_times courses = Ok et ->
  end_times_get m et = Some bucket ->
  In e bucket ->
  exists c t k,
    In c courses /\ In t (timing c) /\ e = entry_of c t /\
    time_to_minutes (end_time t) = Ok k /\ (m == inject_Z k)%Q.
Proof.
  unfold build_end_times. intros Hbuild Hget Hin.
  destruct (build_week_entries courses _ _ _ Hbuild
              (schedule_by_day_slots_of courses)) as (et0 & H0 & Hinv).
  inversion H0. subst et0.
  specialize (Hinv (Forall_nil _)).
  destruct (end_times_get_In _ _ _ Hget) as (k & Hk & Hm).
  rewrite Forall_forall in Hinv. specialize (Hinv _ Hk). cbn [fst snd] in Hinv.
  rewrite Forall_forall in Hinv. destruct (Hinv _ Hin) as (c & t & Hc & Ht & He & Htm).
  exists c, t, k. repeat split; assumption.
Qed.

(** ** Locations on the screen *)

Lemma py_int_nonneg (x : Q) : (0 <= x)%Q -> py_int x = Qfloor x.
Proof.
  intros Hx. apply py_int_floor.
  change 0%Z with (Qfloor 0). now apply Qfloor_resp_le.
Qed.

Lemma py_int_opp (x : Q) : py_int (- x) = (- py_int x)%Z.
Proof.
  destruct x as [n d]. unfold py_int. cbn [Qopp Qnum Qden].
  apply Z.quot_opp_l. discriminate.
Qed.

(** [int] on floats never reverses an order. *)
Lemma py_int_mono (x y : Q) : (x <= y)%Q -> (py_int x <= py_int y)%Z.
Proof.
  intros Hxy.
  destruct (Qlt_le_dec x 0) as [Hx|Hx]; destruct (Qlt_le_dec y 0) as [Hy|Hy].
  - assert (Hx' : (0 <= - x)%Q) by lra.
    assert (Hy' : (0 <= - y)%Q) by lra.
    pose proof (py_int_nonneg _ Hx') as Ex.
    pose proof (py_int_nonneg _ Hy') as Ey.
    rewrite py_int_opp in Ex, Ey.
    assert (Hle : (Qfloor (- y) <= Qfloor (- x))%Z)
      by (apply Qfloor_resp_le; lra).
    lia.
  - pose proof (py_int_neg _ Hx).
    rewrite (py_int_nonneg _ Hy).
    assert (0 <= Qfloor y)%Z
      by (change 0%Z with (Qfloor 0); now apply Qfloor_resp_le).
    lia.
  - lra.
  - rewrite (py_int_nonneg _ Hx), (py_int_nonneg _ Hy).
    now apply Qfloor_resp_le.
Qed.

Lemma in_bounds_iff (l : Loc) :
  in_bounds l = true <->
  (-(11771845 # 100000) <= lon l /\ lon l <= -(11770245 # 100000) /\
   3409391 # 100000 <= lat l /\ lat l <= 3410705 # 100000)%Q.
Proof.
  unfold in_bounds, BOUNDING_BOX. cbv iota beta zeta.
  rewrite !andb_true_iff, !Qle_bool_iff.
  split; [intros [[[H0 H1] H2] H3]|intros (H0 & H1 & H2 & H3)]; auto.
Qed.

(** X17. A location inside the bounding box is drawn on the screen:
    both pixel coordinates of [convert_loc_to_coords] lie between 0 and
    800. *)
Theorem convert_loc_to_coords_on_screen (l : Loc) :
  in_bounds l = true ->
  (0 <= fst (convert_loc_to_coords l) <= SCREEN_WIDTH)%Z /\
  (0 <= snd (convert_loc_to_coords l) <= SCREEN_HEIGHT)%Z.
Proof.
  intros Hin. apply in_bounds_iff in Hin.
  destruct Hin as (H0 & H1 & H2 & H3).
  unfold convert_loc_to_coords, BOUNDING_BOX, SCREEN_WIDTH, SCREEN_HEIGHT.
  cbv iota beta zeta. cbn [fst snd].
  set (u := ((lon l - _) / _ * inject_Z 800)%Q).
  set (v := ((lat l - _) / _ * inject_Z 800)%Q).
  assert (Hu : (0 <= u /\ u <= 800)%Q).
  { subst u. change (inject_Z 800) with 800%Q.
    setoid_replace ((lon l - - (11771845 # 100000))
                    / (- (11770245 # 100000) - - (11771845 # 100000)) * 800)%Q
      with ((lon l + (11771845 # 100000)) * 50000)%Q by field.
    split; lra. }
  assert (Hv : (0 <= v /\ v <= 800)%Q).
  { subst v. change (inject_Z 800) with 800%Q.
    setoid_replace ((lat l - (3409391 # 100000))
                    / ((3410705 # 100000) - (3409391 # 100000)) * 800)%Q
      with ((lat l - (3409391 # 100000)) * (80000000 # 1314))%Q by field.
    split; lra. }
  destruct Hu as [Hu0 Hu1]. destruct Hv as [Hv0 Hv1].
  rewrite (py_int_nonneg u Hu0), (py_int_nonneg v Hv0).
  assert (Gu : (Qfloor 0 <= Qfloor u <= Qfloor 800)%Z)
    by (split; apply Qfloor_resp_le; assumption).
  assert (Gv : (Qfloor 0 <= Qfloor v <= Qfloor 800)%Z)
    by (split; apply Qfloor_resp_le; assumption).
  change (Qfloor 0) with 0%Z in Gu, Gv.
  change (Qfloor 800) with 800%Z in Gu, Gv.
  lia.
Qed.

(** X18. The screen keeps the orientation of the map: a location farther
    east is never drawn farther left, and a location farther north is
    never drawn lower (the vertical pixel coordinate grows downwards). *)
Theorem convert_loc_to_coords_orientation (l l' : Loc) :
  ((lon l <= lon l')%Q ->
   (fst (convert_loc_to_coords l) <= fst (convert_loc_to_coords l'))%Z) /\
  ((lat l <= lat l')%Q ->
   (snd (convert_loc_to_coords l') <= snd (convert_loc_to_coords l))%Z).
Proof.
  unfold convert_loc_to_coords, BOUNDING_BOX, SCREEN_WIDTH, SCREEN_HEIGHT.
  cbv iota beta zeta. cbn [fst snd]. change (inject_Z 800) with 800%Q.
  split; intros Hle.
  - apply py_int_mono.
    setoid_replace ((lon l - - (11771845 # 100000))
                    / (- (11770245 # 100000) - - (11771845 # 100000)) * 800)%Q
      with ((lon l + (11771845 # 100000)) * 50000)%Q by field.
    setoid_replace ((lon l' - - (11771845 # 100000))
                    / (- (11770245 # 100000) - - (11771845 # 100000)) * 800)%Q
      with ((lon l' + (11771845 # 100000)) * 50000)%Q by field.
    lra.
  - assert (H : (py_int ((lat l - (3409391 # 100000))
                         / ((3410705 # 100000) - (3409391 # 100000)) * 800)
                 <= py_int ((lat l' - (3409391 # 100000))
                            / ((3410705 # 100000) - (3409391 # 100000)) * 800))%Z).
    { apply py_int_mono.
      setoid_replace ((lat l - (3409391 # 100000))
                      / ((3410705 # 100000) - (3409391 # 100000)) * 800)%Q
        with ((lat l - (3409391 # 100000)) * (80000000 # 1314))%Q by field.
      setoid_replace ((lat l' - (3409391 # 100000))
                      / ((3410705 # 100000) - (3409391 # 100000)) * 800)%Q
        with ((lat l' - (3409391 # 100000)) * (80000000 # 1314))%Q by field.
      lra. }
    lia.
Qed.

(** ** The opening hours of the catalogue *)

(** A window given in hours, read against a clock in minutes. *)
Lemma within_minutes (m lo hi : Q) :
  within (m / 60) (lo, hi) = true <-> (lo * 60 <= m /\ m <= hi * 60)%Q.
Proof.
  unfold within. cbn [fst snd].
  rewrite andb_true_iff, !Qle_bool_iff.
  assert (Hm : (m / 60 * 60 == m)%Q) by (field; discriminate).
  split; intros [H1 H2]; split; lra.
Qed.

Lemma is_open_iff (m : Q) (h : Hall) :
  is_open m h = true <->
  (fst (breakfast (hall_timing h)) * 60 <= m
   /\ m <= snd (breakfast (hall_timing h)) * 60)%Q \/
  (fst (lunch (hall_timing h)) * 60 <= m
   /\ m <= snd (lunch (hall_timing h)) * 60)%Q \/
  (fst (dinner (hall_timing h)) * 60 <= m
   /\ m <= snd (dinner (hall_timing h)) * 60)%Q.
Proof.
  unfold is_open. cbv zeta.
  rewrite <- !within_minutes.
  rewrite <- !surjective_pairing.
  destruct (within _ (breakfast _)); [tauto|].
  destruct (within _ (lunch _)); [tauto|].
  destruct (within _ (dinner _)); [tauto|].
  split; [discriminate|]. intros [H|[H|H]]; discriminate.
Qed.

Lemma open_halls_nil_iff (m : Q) :
  open_halls m = [] <-> forall h, is_open m h = false.
Proof.
  unfold open_halls. split.
  - intros H h. destruct (is_open m h) eqn:Ho; [|reflexivity].
    assert (Hin : In h (filter (is_open m) DINING_HALLS)).
    { apply filter_In. split; [apply DINING_HALLS_complete|exact Ho]. }
    rewrite H in Hin. destruct Hin.
  - intros H. unfold DINING_HALLS. cbn [filter]. now rewrite !H.
Qed.

(** X19. When no hall is open: by the timings of the catalogue and
    [is_open], the list of open halls is empty exactly before 07:00,
    strictly between 14:00 and 16:30, and after 19:30. At every other
    minute, the window bounds included, some hall is open. *)
Theorem open_halls_empty_iff (m : Q) :
  open_halls m = [] <->
  (m < 420 \/ (840 < m /\ m < 990) \/ 1170 < m)%Q.
Proof.
  rewrite open_halls_nil_iff. split.
  - intros H.
    assert (Hhoch := H HochShanahan). assert (Hcol := H Collins).
    assert (Hfrank := H Frank). assert (Hmal := H Malott).
    assert (N : forall h, is_open m h = false -> ~ is_open m h = true)
      by (intros h E; rewrite E; discriminate).
    apply N in Hhoch, Hcol, Hfrank, Hmal.
    rewrite is_open_iff in Hhoch, Hcol, Hfrank, Hmal.
    cbn [hall_timing breakfast lunch dinner fst snd] in *.
    destruct (Qlt_le_dec m 420) as [|H420]; [tauto|].
    destruct (Qlt_le_dec 1170 m) as [|H1170]; [tauto|].
    destruct (Qlt_le_dec 840 m) as [H840|H840];
      destruct (Qlt_le_dec m 990) as [H990|H990]; [tauto| | |].
    + exfalso. apply Hcol. right. right. split; lra.
    + destruct (Qlt_le_dec 540 m) as [H540|H540].
      * destruct (Qlt_le_dec 630 m) as [H630|H630].
        -- destruct (Qlt_le_dec 810 m) as [H810|H810].
           ++ exfalso. apply Hmal. right. left. split; lra.
           ++ exfalso. apply Hfrank. right. left. split; lra.
        -- exfalso. apply Hcol. left. split; lra.
      * exfalso. apply Hhoch. left. split; lra.
    + lra.
  - intros Hm h.
    destruct (is_open m h) eqn:Ho; [|reflexivity].
    exfalso. apply is_open_iff in Ho.
    destruct h; cbn [hall_timing breakfast lunch dinner fst snd] in Ho; lra.
Qed.

(** ** Every meeting is found at its end minute *)

Section DictLookup.
Context {K V : Type}.
Variable key_eqb : K -> K -> bool.
Hypothesis key_eqb_spec : forall a b, key_eqb a b = true <-> a = b.

Lemma dict_get_upd (k k' : K) (f : V -> V) (dflt : V) (d : list (K * V)) :
  dict_get key_eqb k' (dict_upd key_eqb k f dflt d)
  = if key_eqb k' k
    then Some (f (match dict_get key_eqb k d with
                  | Some v => v
                  | None => dflt
                  end))
    else dict_get key_eqb k' d.
Proof.
  induction d as [|[k0 v] d IH].
  - cbn [dict_upd dict_get]. destruct (key_eqb k' k); reflexivity.
  - cbn [dict_upd dict_get].
    destruct (key_eqb k k0) eqn:Hk0.
    + apply key_eqb_spec in Hk0. subst k0. cbn [dict_get].
      destruct (key_eqb k' k); reflexivity.
    + cbn [dict_get]. destruct (key_eqb k' k0) eqn:Hk'.
      * apply key_eqb_spec in Hk'. subst k0.
        destruct (key_eqb k' k) eqn:Hkk; [|reflexivity].
        apply key_eqb_spec in Hkk. subst k'.
        assert (Hrefl : key_eqb k k = true) by now apply key_eqb_spec.
        congruence.
      * exact IH.
Qed.

Lemma dict_get_In (k : K) (v : V) (d : list (K * V)) :
  dict_get key_eqb k d = Some v -> In (k, v) d.
Proof.
  induction d as [|[k0 v0] d IH]; [discriminate|].
  cbn [dict_get]. destruct (key_eqb k k0) eqn:Hk.
  - apply key_eqb_spec in Hk. subst k0. intros H. inversion H. now left.
  - intros H. right. now apply IH.
Qed.
End DictLookup.

Section DictFiling.
Context {K V : Type}.
Variable key_eqb : K -> K -> bool.
Hypothesis key_eqb_spec : forall a b, key_eqb a b = true <-> a = b.

(** Appending under a key loses nothing that was filed. *)
Lemma filed_under_keeps (k k' : K) (x y : V) (d : list (K * list V)) :
  filed_under key_eqb k' x d ->
  filed_under key_eqb k' x (dict_upd key_eqb k (fun l => l ++ [y]) [] d).
Proof.
  intros (v & Hget & Hin). unfold filed_under.
  rewrite (dict_get_upd key_eqb key_eqb_spec).
  destruct (key_eqb k' k) eqn:Hk.
  - apply key_eqb_spec in Hk. subst k'. rewrite Hget.
    eexists. split; [reflexivity|]. apply in_or_app. now left.
  - exists v. now split.
Qed.

(** Appending under a key files the new element there. *)
Lemma filed_under_new (k : K) (y : V) (d : list (K * list V)) :
  filed_under key_eqb k y (dict_upd key_eqb k (fun l => l ++ [y]) [] d).
Proof.
  unfold filed_under. rewrite (dict_get_upd key_eqb key_eqb_spec).
  assert (Hrefl : key_eqb k k = true) by now apply key_eqb_spec.
  rewrite Hrefl. eexists. split; [reflexivity|].
  apply in_or_app. right. now left.
Qed.
End DictFiling.

Lemma string_eqb_spec (a b : string) : String.eqb a b = true <-> a = b.
Proof. apply String.eqb_eq. Qed.

Lemma schedule_by_classroom_complete
    (courses : list Course) (c : Course) (t : TimingEntry) :
  In c courses -> In t (timing c) ->
  filed_under String.eqb (building t) {| slot_course := c; slot_timing := t |}
    (schedule_by_classroom courses).
Proof.
  set (x := {| slot_course := c; slot_timing := t |}).
  assert (Hkeep : forall c0 ts acc,
             filed_under String.eqb (building t) x acc ->
             filed_under String.eqb (building t) x
               (fold_left (add_slot c0) ts acc)).
  { intros c0 ts. induction ts as [|t0 ts IH]; intros acc Hacc; [exact Hacc|].
    cbn [fold_left]. apply IH. unfold add_slot.
    now apply (filed_under_keeps String.eqb string_eqb_spec). }
  assert (Hin : forall ts acc,
             In t ts ->
             filed_under String.eqb (building t) x
               (fold_left (add_slot c) ts acc)).
  { induction ts as [|t0 ts IH]; intros acc Ht; [destruct Ht|].
    cbn [fold_left]. destruct Ht as [->|Ht]; [|now apply IH].
    apply Hkeep. unfold add_slot.
    apply (filed_under_new String.eqb string_eqb_spec). }
  assert (Hkeep' : forall cs acc,
             filed_under String.eqb (building t) x acc ->
             filed_under String.eqb (building t) x
               (fold_left (fun acc c0 => fold_left (add_slot c0) (timing c0) acc)
                  cs acc)).
  { induction cs as [|c0 cs IH]; intros acc Hacc; [exact Hacc|].
    cbn [fold_left]. apply IH. now apply Hkeep. }
  intros Hc Ht. unfold schedule_by_classroom.
  generalize (@nil (string * list Slot)).
  induction courses as [|c0 cs IH]; intros acc; [destruct Hc|].
  cbn [fold_left]. destruct Hc as [->|Hc]; [|now apply IH].
  apply Hkeep'. now apply Hin.
Qed.

Lemma add_day_keeps (classroom : string) (sl0 : Slot) (acc : ByDay)
    (day0 day room : string) (sl : Slot) :
  filed_on day room sl acc ->
  filed_on day room sl (add_day classroom sl0 acc day0).
Proof.
  intros (rooms & Hget & Hfiled). unfold filed_on, add_day.
  rewrite (dict_get_upd String.eqb string_eqb_spec).
  destruct (String.eqb day day0) eqn:Hd.
  - apply String.eqb_eq in Hd. subst day0. rewrite Hget.
    eexists. split; [reflexivity|].
    now apply (filed_under_keeps String.eqb string_eqb_spec).
  - exists rooms. now split.
Qed.

Lemma add_day_new (classroom : string) (sl : Slot) (acc : ByDay)
    (day : string) :
  filed_on day classroom sl (add_day classroom sl acc day).
Proof.
  unfold filed_on, add_day.
  rewrite (dict_get_upd String.eqb string_eqb_spec), String.eqb_refl.
  eexists. split; [reflexivity|].
  apply (filed_under_new String.eqb string_eqb_spec).
Qed.

Lemma group_by_day_complete (by_classroom : list (string * list Slot))
    (room day : string) (slots : list Slot) (sl : Slot) :
  In (room, slots) by_classroom -> In sl slots ->
  In day (days (slot_timing sl)) ->
  filed_on day room sl (group_by_day by_classroom).
Proof.
  assert (Kdays : forall classroom sl0 ds acc,
             filed_on day room sl acc ->
             filed_on day room sl (fold_left (add_day classroom sl0) ds acc)).
  { intros classroom sl0 ds. induction ds as [|d ds IH]; intros acc Hacc;
      [exact Hacc|].
    cbn [fold_left]. apply IH. now apply add_day_keeps. }
  assert (Ndays : forall ds acc,
             In day ds ->
             filed_on day room sl (fold_left (add_day room sl) ds acc)).
  { induction ds as [|d ds IH]; intros acc Hd; [destruct Hd|].
    cbn [fold_left]. destruct Hd as [->|Hd]; [|now apply IH].
    apply Kdays. apply add_day_new. }
  assert (Kslots : forall classroom ss acc,
             filed_on day room sl acc ->
             filed_on day room sl
               (fold_left
                  (fun acc sl0 =>
                     fold_left (add_day classroom sl0)
                       (days (slot_timing sl0)) acc)
                  ss acc)).
  { intros classroom ss. induction ss as [|s0 ss IH]; intros acc Hacc;
      [exact Hacc|].
    cbn [fold_left]. apply IH. now apply Kdays. }
  assert (Nslots : forall ss acc,
             In sl ss -> In day (days (slot_timing sl)) ->
             filed_on day room sl
               (fold_left
                  (fun acc sl0 =>
                     fold_left (add_day room sl0) (days (slot_timing sl0)) acc)
                  ss acc)).
  { induction ss as [|s0 ss IH]; intros acc Hs Hd; [destruct Hs|].
    cbn [fold_left]. destruct Hs as [->|Hs]; [|now apply IH].
    apply Kslots. now apply Ndays. }
  assert (Krooms : forall rs acc,
             filed_on day room sl acc ->
             filed_on day room sl
               (fold_left
                  (fun acc '(classroom, ss) =>
                     fold_left
                       (fun acc sl0 =>
                          fold_left (add_day classroom sl0)
                            (days (slot_timing sl0)) acc)
                       ss acc)
                  rs acc)).
  { induction rs as [|[classroom ss] rs IH]; intros acc Hacc; [exact Hacc|].
    cbn [fold_left]. apply IH. now apply Kslots. }
  intros Hroom Hsl Hday. unfold group_by_day.
  generalize empty_week.
  induction by_classroom as [|[classroom ss] rs IH]; intros acc;
    [destruct Hroom|].
  cbn [fold_left]. destruct Hroom as [Heq|Hroom]; [|now apply IH].
  inversion Heq. subst classroom ss.
  apply Krooms. now apply Nslots.
Qed.

Lemma insert_slot_In (sl x : Slot) (l : list Slot) :
  In x (insert_slot sl l) <-> x = sl \/ In x l.
Proof.
  induction l as [|y l IH].
  - cbn [insert_slot In]. intuition congruence.
  - cbn [insert_slot]. destruct (String.leb _ _).
    + cbn [In]. intuition congruence.
    + cbn [In]. rewrite IH. intuition congruence.
Qed.

Lemma sort_slots_In (x : Slot) (l : list Slot) :
  In x (sort_slots l) <-> In x l.
Proof.
  unfold sort_slots. induction l as [|y l IH]; [reflexivity|].
  cbn [fold_right In]. rewrite insert_slot_In, IH. intuition congruence.
Qed.

Lemma dict_get_map_values {V W : Type} (g : V -> W) (k : string)
    (d : list (string * V)) :
  dict_get String.eqb k (map (fun '(k0, v) => (k0, g v)) d)
  = option_map g (dict_get String.eqb k d).
Proof.
  induction d as [|[k0 v] d IH]; [reflexivity|].
  cbn [map dict_get]. destruct (String.eqb k k0); [reflexivity|exact IH].
Qed.

Lemma schedule_by_day_complete (courses : list Course) (c : Course)
    (t : TimingEntry) (day : string) :
  In c courses -> In t (timing c) -> In day (days t) ->
  filed_on day (building t) {| slot_course := c; slot_timing := t |}
    (schedule_by_day courses).
Proof.
  intros Hc Ht Hday.
  destruct (schedule_by_classroom_complete courses c t Hc Ht)
    as (slots & Hget & Hin).
  apply (dict_get_In String.eqb string_eqb_spec) in Hget.
  destruct (group_by_day_complete _ _ day _ _ Hget Hin Hday)
    as (rooms & Hrooms & l & Hl & Hsl).
  unfold schedule_by_day, filed_on, filed_under.
  rewrite (dict_get_map_values
             (fun rooms0 : list (string * list Slot) =>
                map (fun '(room, l0) => (room, sort_slots l0)) rooms0)).
  rewrite Hrooms. cbn [option_map]. eexists. split; [reflexivity|].
  rewrite (dict_get_map_values sort_slots), Hl. cbn [option_map].
  eexists. split; [reflexivity|]. now apply sort_slots_In.
Qed.

Lemma z_eqb_spec (a b : Z) : Z.eqb a b = true <-> a = b.
Proof. apply Z.eqb_eq. Qed.

(** Step three, forwards: when it returns, nothing filed before is lost
    and every slot of the list is filed under the minute its end time
    reads as. *)
Lemma add_end_time_complete (slots : list Slot) :
  forall (acc : Result EndTimes) (et : EndTimes),
    fold_left add_end_time slots acc = Ok et ->
    exists et0,
      acc = Ok et0 /\
      (forall k x, filed_under Z.eqb k x et0 -> filed_under Z.eqb k x et) /\
      (forall sl, In sl slots ->
         exists k,
           time_to_minutes (end_time (slot_timing sl)) = Ok k /\
           filed_under Z.eqb k (entry_of (slot_course sl) (slot_timing sl)) et).
Proof.
  induction slots as [|sl0 slots IH]; intros acc et H.
  - cbn [fold_left] in H. exists et. split; [exact H|].
    split; [exact (fun _ _ X => X)|]. intros sl [].
  - cbn [fold_left] in H. destruct (IH _ _ H) as (et1 & H1 & Hkeep & Hnew).
    unfold add_end_time in H1.
    destruct acc as [et0|e]; cbn [bind] in H1; [|discriminate].
    destruct (time_to_minutes _) as [tm|e] eqn:Htm; cbn [bind] in H1;
      [|discriminate].
    inversion H1. subst et1. exists et0. split; [reflexivity|]. split.
    + intros k x Hx. apply Hkeep.
      now apply (filed_under_keeps Z.eqb z_eqb_spec).
    + intros sl [->|Hsl]; [|now apply Hnew].
      exists tm. split; [exact Htm|]. apply Hkeep.
      apply (filed_under_new Z.eqb z_eqb_spec).
Qed.

Lemma build_rooms_complete (rooms : list (string * list Slot)) :
  forall (acc : Result EndTimes) (et : EndTimes),
    fold_left (fun acc '(_, slots) => fold_left add_end_time slots acc) rooms acc
    = Ok et ->
    exists et0,
      acc = Ok et0 /\
      (forall k x, filed_under Z.eqb k x et0 -> filed_under Z.eqb k x et) /\
      (forall room l sl, In (room, l) rooms -> In sl l ->
         exists k,
           time_to_minutes (end_time (slot_timing sl)) = Ok k /\
           filed_under Z.eqb k (entry_of (slot_course sl) (slot_timing sl)) et).
Proof.
  induction rooms as [|[room0 l0] rooms IH]; intros acc et H.
  - cbn [fold_left] in H. exists et. split; [exact H|].
    split; [exact (fun _ _ X => X)|]. intros room l sl [].
  - cbn [fold_left] in H. destruct (IH _ _ H) as (et1 & H1 & Hkeep & Hnew).
    destruct (add_end_time_complete _ _ _ H1) as (et0 & H0 & Hkeep0 & Hnew0).
    exists et0. split; [exact H0|]. split.
    + intros k x Hx. now apply Hkeep, Hkeep0.
    + intros room l sl [Heq|Hin] Hsl; [|now apply (Hnew room l)].
      inversion Heq. subst room0 l0.
      destruct (Hnew0 sl Hsl) as (k & Hk & Hf).
      exists k. split; [exact Hk|now apply Hkeep].
Qed.

Lemma build_week_complete (w : ByDay) :
  forall (acc : Result EndTimes) (et : EndTimes),
    fold_left
      (fun acc '(_, rooms) =>
         fold_left (fun acc '(_, slots) => fold_left add_end_time slots acc)
           rooms acc)
      w acc
    = Ok et ->
    exists et0,
      acc = Ok et0 /\
      (forall k x, filed_under Z.eqb k x et0 -> filed_under Z.eqb k x et) /\
      (forall day rooms room l sl,
         In (day, rooms) w -> In (room, l) rooms -> In sl l ->
         exists k,
           time_to_minutes (end_time (slot_timing sl)) = Ok k /\
           filed_under Z.eqb k (entry_of (slot_course sl) (slot_timing sl)) et).
Proof.
  induction w as [|[day0 rooms0] w IH]; intros acc et H.
  - cbn [fold_left] in H. exists et. split; [exact H|].
    split; [exact (fun _ _ X => X)|]. intros day rooms room l sl [].
  - cbn [fold_left] in H. destruct (IH _ _ H) as (et1 & H1 & Hkeep & Hnew).
    destruct (build_rooms_complete _ _ _ H1) as (et0 & H0 & Hkeep0 & Hnew0).
    exists et0. split; [exact H0|]. split.
    + intros k x Hx. now apply Hkeep, Hkeep0.
    + intros day rooms room l sl [Heq|Hin] Hroom Hsl;
        [|now apply (Hnew day rooms room l)].
      inversion Heq. subst day0 rooms0.
      destruct (Hnew0 room l sl Hroom Hsl) as (k & Hk & Hf).
      exists k. split; [exact Hk|now apply Hkeep].
Qed.

Lemma end_times_get_int (k : Z) (et : EndTimes) :
  end_times_get (inject_Z k) et = dict_get Z.eqb k et.
Proof.
  induction et as [|[k0 b] et IH]; [reflexivity|].
  cbn [end_times_get dict_get]. rewrite IH.
  assert (Heq : Qeq_bool (inject_Z k) (inject_Z k0) = Z.eqb k k0).
  { destruct (Z.eqb_spec k k0) as [->|Hne].
    - apply Qeq_bool_iff. reflexivity.
    - destruct (Qeq_bool _ _) eqn:Hq; [|reflexivity].
      apply Qeq_bool_iff in Hq. unfold Qeq in Hq. cbn in Hq. lia. }
  now rewrite Heq.
Qed.

(** X20. Every meeting is found at its end minute: whenever [main] builds
    the index, each meeting that lists at least one weekday has its end
    time read without an error, and the bucket looked up at that minute
    holds the meeting's entry, whichever weekdays it lists. *)
Theorem end_times_bucket_complete
    (courses : list Course) (et : EndTimes) (c : Course) (t : TimingEntry) :
  build_end_times courses = Ok et ->
  In c courses -> In t (timing c) -> days t <> [] ->
  exists k bucket,
    time_to_minutes (end_time t) = Ok k /\
    end_times_get (inject_Z k) et = Some bucket /\
    In (entry_of c t) bucket.
Proof.
  intros Hbuild Hc Ht Hdays.
  destruct (days t) as [|day ds] eqn:Hd; [contradiction|].
  assert (Hday : In day (days t)) by (rewrite Hd; now left).
  destruct (schedule_by_day_complete courses c t day Hc Ht Hday)
    as (rooms & Hrooms & l & Hl & Hsl).
  apply (dict_get_In String.eqb string_eqb_spec) in Hrooms, Hl.
  unfold build_end_times in Hbuild.
  destruct (build_week_complete _ _ _ Hbuild) as (et0 & _ & _ & Hnew).
  destruct (Hnew _ _ _ _ _ Hrooms Hl Hsl) as (k & Hk & bucket & Hget & Hin).
  cbn [slot_course slot_timing] in Hk, Hin.
  exists k, bucket. rewrite end_times_get_int. repeat split; assumption.
Qed.

(** ** The rows of a finished run *)

Lemma Qred_inject_Z (z : Z) : Qred (inject_Z z) = inject_Z z.
Proof.
  unfold Qred, inject_Z.
  pose proof (Z.ggcd_gcd z 1) as Hg.
  pose proof (Z.ggcd_correct_divisors z 1) as Hd.
  destruct (Z.ggcd z 1) as [g [aa bb]]. cbn [fst snd] in *.
  rewrite Z.gcd_1_r in Hg. subst g. destruct Hd as [Ha Hb].
  rewrite Z.mul_1_l in Ha, Hb. subst z bb. reflexivity.
Qed.

(** One tick of a minute on a whole minute. *)
Lemma advance_minute (k : Z) : advance (inject_Z k) 60 = inject_Z (k + 1).
Proof.
  unfold advance. rewrite <- (Qred_inject_Z (k + 1)).
  apply Qred_complete. rewrite inject_Z_plus.
  change (inject_Z 60 / 60)%Q with (60 / 60)%Q.
  change (inject_Z 1) with 1%Q. field.
Qed.

Lemma nth_by_error {A : Type} (l l' : list A) (n : nat) (d : A) :
  nth_error l n = nth_error l' n -> nth n l d = nth n l' d.
Proof.
  intros H. destruct (nth_error l' n) as [x|] eqn:Hx.
  - rewrite (nth_error_nth _ _ _ H). symmetry. now apply nth_error_nth.
  - rewrite (nth_error_nth_None _ _ _ H). symmetry.
    now apply nth_error_nth_None.
Qed.

(** The length of the log after a tick, from the rows it holds. *)
Lemma log_length_after (lg lg' : list (list Snapshot)) (d : nat)
    (row : list Snapshot) :
  d <= List.length lg ->
  nth_error lg' d = Some row ->
  (forall d', d' <> d -> nth_error lg' d' = nth_error lg d') ->
  List.length lg' = Nat.max (List.length lg) (S d).
Proof.
  intros Hd Hrow Hrest.
  assert (Hlow : S d <= List.length lg').
  { apply nth_error_Some. congruence. }
  assert (Hlow' : List.length lg <= List.length lg').
  { destruct (Nat.le_gt_cases (List.length lg) (List.length lg'))
      as [|Hgt]; [assumption|].
    assert (Hne : List.length lg' <> d) by lia.
    pose proof (Hrest _ Hne) as Heq.
    assert (Hnone : nth_error lg' (List.length lg') = None)
      by (apply nth_error_None; lia).
    assert (Hsome : nth_error lg (List.length lg') <> None)
      by (apply nth_error_Some; lia).
    congruence. }
  assert (Hup : List.length lg' <= Nat.max (List.length lg) (S d)).
  { destruct (Nat.le_gt_cases (List.length lg')
                (Nat.max (List.length lg) (S d))) as [|Hgt]; [assumption|].
    set (n := Nat.max (List.length lg) (S d)) in *.
    assert (Hne : n <> d) by lia.
    pose proof (Hrest _ Hne) as Heq.
    assert (Hnone : nth_error lg n = None) by (apply nth_error_None; lia).
    assert (Hsome : nth_error lg' n <> None) by (apply nth_error_Some; lia).
    congruence. }
  lia.
Qed.

Lemma tick_log_in_step (s s' : SimState) :
  time_interval (args s) = 60%Z ->
  log_in_step s ->
  iterate s = Ok (Running s') ->
  log_in_step s'.
Proof.
  intros Hti (d & k & Hday & Hmin & Hk & Hdays & Hfull & Hcur) Hit.
  pose proof (iterate_cases _ _ Hit) as (d0 & Hd0 & Ha & Hcase).
  cbv zeta in Hcase.
  rewrite Hday in Hd0. inversion Hd0. subst d0. clear Hd0.
  rewrite Hmin, Hti, advance_minute in Hcase.
  destruct (iterate_log _ _ Hit) as (d1 & Hd1 & Hle & Hrow & Hrest).
  pose proof (log_length_after _ _ _ _ Hle Hrow Hrest) as Hlen.
  assert (Hnew : nth d1 (log s') [] = nth d1 (log s) [] ++ [row_of s'])
    by now apply nth_error_nth.
  assert (Hold : forall d', d' <> d1 -> nth d' (log s') [] = nth d' (log s) []).
  { intros d' Hne. apply nth_by_error. now apply Hrest. }
  unfold rows_per_day, DAY_START_TIME, DAY_END_TIME in *.
  destruct Hcase as [(Hend & Hd' & Hm')|(Hend & Hlt & Hd' & Hm')].
  - assert (Hk1 : (k + 1 < 1320)%Z).
    { destruct (Z.lt_ge_cases (k + 1) 1320) as [|Hge]; [assumption|].
      exfalso.
      assert (Hq : (inject_Z (22 * 60) <= inject_Z (k + 1))%Q)
        by (rewrite <- Zle_Qle; lia).
      apply Qle_bool_iff in Hq. congruence. }
    rewrite Hd' in Hd1. inversion Hd1. subst d1. clear Hd1.
    exists d, (k + 1)%Z. rewrite Ha.
    unfold rows_per_day, DAY_START_TIME, DAY_END_TIME in *.
    split; [exact Hd'|]. split; [exact Hm'|]. split; [lia|].
    split; [exact Hdays|]. split.
    + intros d' Hlt'. rewrite Hold by lia. now apply Hfull.
    + right. split; [lia|].
      destruct Hcur as [(Hk0 & Hd00 & Hlog)|(Hk0 & Hlog & Hrows)].
      * subst d. rewrite Hlog in *. cbn [List.length] in Hlen.
        split; [lia|]. rewrite Hnew. cbn [nth app List.length]. lia.
      * split; [lia|]. rewrite Hnew, length_app, Hrows. cbn [List.length]. lia.
  - assert (Hk1 : (1320 <= k + 1)%Z).
    { apply Qle_bool_iff in Hend. now rewrite <- Zle_Qle in Hend. }
    rewrite Hd' in Hd1. inversion Hd1. subst d1. clear Hd1.
    destruct Hcur as [(Hk0 & _)|(Hk0 & Hlog & Hrows)]; [lia|].
    exists (S d), (7 * 60)%Z. rewrite Ha.
    unfold rows_per_day, DAY_START_TIME, DAY_END_TIME in *.
    split; [exact Hd'|]. split; [exact Hm'|]. split; [lia|].
    split; [right; exact Hlt|]. split.
    + intros d' Hlt'. rewrite Hold by lia.
      destruct (Nat.eq_dec d' d) as [->|Hne].
      * rewrite Hrows. lia.
      * apply Hfull. lia.
    + right. split; [lia|]. split; [lia|].
      rewrite Hnew, length_app, (nth_overflow (log s)) by lia.
      reflexivity.
Qed.

Lemma reachable_log_in_step (et : EndTimes) (ld : LocationData) (a : Args)
    (seed : Rng) (s : SimState) :
  time_interval a = 60%Z ->
  reachable (init et ld a seed) s ->
  log_in_step s.
Proof.
  intros Hti Hreach. induction Hreach as [|s s' Hreach IH Hit].
  - exists 0, (DAY_START_TIME - 1)%Z. cbn [init current_day current_minute log].
    split; [reflexivity|]. split; [reflexivity|].
    split; [unfold DAY_START_TIME, DAY_END_TIME; lia|].
    split; [now left|]. split; [intros d' Hd'; inversion Hd'|].
    left. repeat split.
  - apply (tick_log_in_step s s'); [|exact IH|exact Hit].
    now rewrite (reachable_args _ _ _ _ _ Hreach).
Qed.

Lemma iterate_done_log (s s' : SimState) :
  iterate s = Ok (Done s') -> log s' = log s.
Proof.
  unfold iterate. destruct (Qle_bool _ _).
  - unfold get_next_day. destruct (current_day s) as [d|]; [|discriminate].
    cbn [bind]. destruct (String.length (arg_days (args s)) <=? S d).
    + intros H. inversion H. reflexivity.
    + intros H. apply run_steps_clock in H. destruct H as (s1 & H & _).
      discriminate.
  - intros H. apply run_steps_clock in H. destruct H as (s1 & H & _).
    discriminate.
Qed.

(** X21. The rows of a finished run: at the default interval of 60
    seconds, when a tick returns [None] the log holds one list per
    simulated day (one list for an empty [--days]), and every one of
    them has 900 rows, one per minute from 07:00 to 21:59. *)
Theorem finished_run_has_full_days (et : EndTimes) (ld : LocationData)
    (a : Args) (seed : Rng) (s s' : SimState) :
  time_interval a = 60%Z ->
  reachable (init et ld a seed) s ->
  iterate s = Ok (Done s') ->
  List.length (log s') = Nat.max 1 (String.length (arg_days a)) /\
  forall d, d < List.length (log s') ->
    List.length (nth d (log s') []) = rows_per_day.
Proof.
  intros Hti Hreach Hit.
  pose proof (reachable_args _ _ _ _ _ Hreach) as Hargs.
  destruct (reachable_log_in_step _ _ _ _ _ Hti Hreach)
    as (d & k & Hday & Hmin & Hk & Hdays & Hfull & Hcur).
  pose proof (iterate_cases _ _ Hit) as (d0 & Hd0 & Hend & Hlast & _).
  cbv zeta in Hend.
  rewrite Hday in Hd0. inversion Hd0. subst d0. clear Hd0.
  rewrite Hmin, Hargs, Hti, advance_minute in Hend.
  rewrite Hargs in Hlast, Hdays.
  rewrite (iterate_done_log _ _ Hit).
  unfold rows_per_day, DAY_START_TIME, DAY_END_TIME in *.
  assert (Hk1 : (1320 <= k + 1)%Z).
  { apply Qle_bool_iff in Hend. now rewrite <- Zle_Qle in Hend. }
  destruct Hcur as [(Hk0 & _)|(Hk0 & Hlog & Hrows)]; [lia|].
  split; [lia|].
  intros d' Hd'. destruct (Nat.eq_dec d' d) as [->|Hne].
  - rewrite Hrows. lia.
  - apply Hfull. lia.
Qed.

(** ** Runs and reachable states *)

Lemma reachable_from_tick (s0 s1 s : SimState) :
  iterate s0 = Ok (Running s1) -> reachable s1 s -> reachable s0 s.
Proof.
  intros Hit Hreach. induction Hreach as [|s s' _ IH Hstep].
  - eapply reach_tick; [apply reach_init|exact Hit].
  - eapply reach_tick; [exact IH|exact Hstep].
Qed.

(** A run that ends with a current day has met no [None]: its last state
    is one the driver observes. *)
Lemma run_reachable (n : nat) :
  forall s0 s,
    run n s0 = Ok s -> current_day s <> None -> reachable s0 s.
Proof.
  induction n as [|n IH]; intros s0 s Hrun Hday.
  - cbn [run] in Hrun. inversion Hrun. apply reach_init.
  - cbn [run] in Hrun.
    destruct (iterate s0) as [[s1|s1]|e] eqn:Hit; cbn [bind] in Hrun;
      [| |discriminate].
    + apply (reachable_from_tick _ _ _ Hit). now apply IH.
    + inversion Hrun. subst s1.
      pose proof (iterate_cases _ _ Hit) as (d & _ & _ & _ & Hnone).
      contradiction.
Qed.

(** ** The pass of step 2 while no hall is open *)

(** X22. Step 2 while no hall is open, exactly as the loop runs: it
    never raises, and it is the pass [closed_pass] over the outside list.
    A person bound for a hall walks one step; a person without a
    destination reads one variate and is deleted when it is below
    [CONVERSION_RATE]; and because the deletion happens inside the loop
    over the same list, the person behind a deleted one is stepped over:
    no variate and no step for them in this tick. *)
Theorem closed_hours_pass (a : Args) (people : list Person) (r : Rng) :
  move_step a [] people r = Ok (closed_pass false a people r).
Proof. apply move_step_closed. Qed.

End Simulation.

(** * Concrete runs *)

(** ** Inputs *)

Example is_open_breakfast_start : is_open 420 HochShanahan = true.
Proof. reflexivity. Qed.

Example open_halls_seven : open_halls 420 = [HochShanahan].
Proof. reflexivity. Qed.

Example open_halls_three_pm : open_halls 900 = [].
Proof. reflexivity. Qed.

Example open_halls_eight_pm : open_halls 1200 = [].
Proof. reflexivity. Qed.

Example time_to_minutes_three_pm : time_to_minutes "15:00:00" = Ok 900%Z.
Proof. reflexivity. Qed.

Example time_to_minutes_malformed : time_to_minutes "1500" = Raise IndexError.
Proof. reflexivity. Qed.

(** [int] strips blanks, takes a sign and single underscores between
    digits, and refuses the rest. *)
Example time_to_minutes_as_int_reads :
  time_to_minutes " 7:05:00" = Ok 425%Z /\
  time_to_minutes "-1:30" = Ok (-30)%Z /\
  time_to_minutes "1_0:0 " = Ok 600%Z /\
  time_to_minutes "7:0_" = Raise ValueError /\
  time_to_minutes "7:+ 5" = Raise ValueError /\
  time_to_minutes ":30" = Raise ValueError.
Proof. repeat split. Qed.

Example py_int_truncates : py_int (- (8 # 5)) = (-1)%Z /\ py_int (6 # 5) = 1%Z.
Proof. split; reflexivity. Qed.

(** ** The schedule index forgets the weekday *)

(** A class that meets on two days is filed twice under its end minute,
    once per weekday of the fold. *)
Example two_day_class_filed_twice :
  let t := {| days := ["Tuesday"; "Thursday"]%string;
              end_time := "14:30:00";
              school := "Pitzer";
              building := "Lincoln" |} in
  let e := {| entry_timing := t;
              location_string := "Pitzer-Lincoln";
              people := 24 |} in
  build_end_times [{| seats_taken := 24; timing := [t] |}]
  = Ok [(870%Z, [e; e])].
Proof. reflexivity. Qed.

(** C1, on the code. The schedule index built from a class that meets on
    Tuesdays only files it under minute 900 with no weekday attached. A
    run configured for Monday alone ([--days M]) is, after 480 ticks, at
    Monday 14:59 with nobody anywhere; the next tick spawns two persons
    from the Tuesday class: whatever the geodesic functions, it returns
    [True] on day 0 and the row it logs for minute 900 counts two people. *)
Theorem tuesday_class_spawns_on_monday :
  build_end_times [tuesday_course] = Ok [(900%Z, [tuesday_entry])] /\
  ~ In "Monday"%string (days (entry_timing tuesday_entry)) /\
  forall (get_distance : Loc -> Loc -> Q)
         (move_towards_fast : Loc -> Loc -> Q -> Loc),
    run get_distance move_towards_fast 480
      (init [(900%Z, [tuesday_entry])] lincoln (default_args "M")
         (constant_stream (1 # 2)))
    = Ok monday_before_three /\
    exists s' row,
      iterate get_distance move_towards_fast monday_before_three
      = Ok (Running s') /\
      current_day s' = Some 0 /\
      log s' = [quiet_rows 420 480 ++ [row]] /\
      minute row = 900%Q /\
      headcount row = 2.
Proof.
  split; [reflexivity|]. split.
  { simpl. intros [H|[]]. discriminate. }
  intros gd mv. split; [vm_compute; reflexivity|].
  unfold iterate.
  change (Qle_bool (inject_Z DAY_END_TIME)
            (advance (current_minute monday_before_three)
               (time_interval (args monday_before_three))))
    with false.
  cbv iota. unfold run_steps.
  cbv beta iota zeta delta [with_clock monday_before_three end_times args
    location_data current_minute outside_people rng people_in_dining_halls
    current_day log].
  change (open_halls (advance 899 (time_interval (default_args "M"))))
    with (@nil Hall).
  set (spawned := spawn_step gd _ _ _ _ _ _ _).
  vm_compute in spawned. subst spawned. cbn [bind]. cbv iota beta.
  set (moved := move_step gd mv _ _ _ _).
  vm_compute in moved. subst moved. cbn [bind]. cbv iota beta.
  unfold arrive_step. rewrite arrive_loop_cons.
  destruct (first_hall gd _) as [h|] eqn:Hfirst.
  - destruct h;
      cbn -[arrive_loop first_hall service_step append_log take_snapshot];
      rewrite arrive_loop_cons, Hfirst;
      do 2 eexists; (split; [reflexivity|]); repeat split; reflexivity.
  - rewrite arrive_loop_cons, Hfirst.
    do 2 eexists. (split; [reflexivity|]). repeat split; reflexivity.
Qed.

(** ** Day rollover with a class ending at 07:00 *)

Lemma choose_dest_singleton (get_distance : Loc -> Loc -> Q) (p : Person)
    (h : Hall) (r : Rng) :
  choose_dest get_distance p [h] r
  = if Qle_bool (get_distance (loc p) (hall_location h) + 0) 0
    then Raise ValueError
    else Ok (set_destination p (Some h), rng_next r).
Proof.
  unfold choose_dest, random_choices. simpl.
  destruct (Qle_bool _ _); reflexivity.
Qed.

Lemma app_singleton_inv {A : Type} (old : list A) (x y : A) :
  old ++ [x] = [y] -> x = y.
Proof.
  intros H. change [y] with ([] ++ [y]) in H.
  apply app_inj_tail in H. now destruct H.
Qed.

Lemma spawn_at_seven (get_distance : Loc -> Loc -> Q) (k : nat) :
  spawn_step get_distance [(420%Z, [seven_entry])] (default_args "MT") lincoln
    (inject_Z DAY_START_TIME) [HochShanahan] [] (zeros_from k)
  = if Qle_bool (get_distance (341 # 10, - (11771 # 100))%Q
                   (hall_location HochShanahan) + 0) 0
    then Raise ValueError
    else Ok ([seven_oclock_person], zeros_from (S (S k))).
Proof.
  unfold spawn_step. cbn -[choose_dest spawn_course].
  unfold spawn_course. cbn -[choose_dest spawn_many].
  change (Pos.to_nat 1) with 1. cbn -[choose_dest].
  rewrite choose_dest_singleton.
  destruct (Qle_bool _ _); reflexivity.
Qed.

(** C2, refuted as stated. At Monday 21:59 of a two-day run the clock
    advance reaches [DAY_END_TIME] and Tuesday remains; the tick resets the
    populations and then goes on to spawn the 07:00 class, so whatever the
    geodesic functions are and whoever was around before the tick, it
    either raises or logs a row that counts the spawned person (outside,
    or in the hall it entered). *)
Lemma rollover_row_not_empty :
  (forall people halls rows k,
     let s := last_minute_of_monday people halls rows k in
     Qle_bool (inject_Z DAY_END_TIME)
       (advance (current_minute s) (time_interval (args s))) = true /\
     current_day s = Some 0 /\
     1 < String.length (arg_days (args s))) /\
  ~ exists (get_distance : Loc -> Loc -> Q)
           (move_towards_fast : Loc -> Loc -> Q -> Loc)
           (people : list Person) (halls : HallMap) (rows : list Snapshot)
           (k : nat) (s' : SimState) (old : list Snapshot),
      iterate get_distance move_towards_fast
        (last_minute_of_monday people halls rows k)
      = Ok (Running s') /\
      nth_error (log s') 1
      = Some (old ++ [empty_snapshot (inject_Z DAY_START_TIME)]).
Proof.
  split.
  { intros people halls rows k s. repeat split. simpl. lia. }
  intros (gd & mv & people & halls & rows & k & s' & old & Hit & Hlog).
  unfold iterate in Hit.
  change (Qle_bool (inject_Z DAY_END_TIME)
            (advance (current_minute (last_minute_of_monday people halls rows k))
               (time_interval (args (last_minute_of_monday people halls rows k)))))
    with true in Hit.
  cbv iota in Hit.
  change (get_next_day (args (last_minute_of_monday people halls rows k))
            (current_day (last_minute_of_monday people halls rows k)))
    with (Ok (Some 1, @nil Person, empty_halls)) in Hit.
  cbn [bind] in Hit. cbv iota beta in Hit.
  unfold run_steps in Hit.
  cbv beta iota zeta delta [with_clock last_minute_of_monday end_times args
    location_data current_minute outside_people rng people_in_dining_halls
    current_day log] in Hit.
  change (open_halls (inject_Z DAY_START_TIME)) with [HochShanahan] in Hit.
  rewrite spawn_at_seven in Hit.
  destruct (Qle_bool _ _); [discriminate|].
  cbn [bind] in Hit. cbv iota beta in Hit.
  unfold move_step in Hit.
  cbn [List.length move_loop nth_error seven_oclock_person destination
       person_move bind list_set] in Hit.
  unfold arrive_step in Hit. rewrite arrive_loop_cons in Hit.
  destruct (first_hall gd _) as [h|]; [destruct h|];
    vm_compute in Hit; inversion Hit; subst s';
    cbn [log nth_error] in Hlog; inversion Hlog as [Heq];
    symmetry in Heq; apply app_singleton_inv in Heq;
    vm_compute in Heq; discriminate Heq.
Qed.

Lemma rollover_snapshot_witness :
  exists s' old,
    iterate taxicab_distance step_or_stay quiet_last_minute_of_monday
    = Ok (Running s') /\
    current_day s' = Some 1 /\
    current_minute s' = inject_Z DAY_START_TIME /\
    outside_people s' = [] /\
    people_in_dining_halls s' = empty_halls /\
    nth_error (log s') 1
    = Some (old ++ [empty_snapshot (inject_Z DAY_START_TIME)]).
Proof.
  apply (rollover_snapshot taxicab_distance step_or_stay
           quiet_last_minute_of_monday 0).
  - vm_compute. discriminate.
  - reflexivity.
  - simpl. lia.
  - simpl. lia.
  - reflexivity.
Defined.

(** ** The clock at start-up *)

(** C4, refuted as stated. The initial state is reachable (it is where
    every run starts) and its minute is [DAY_START_TIME - 1]. *)
Lemma initial_minute_before_day :
  ~ exists (get_distance : Loc -> Loc -> Q)
           (move_towards_fast : Loc -> Loc -> Q -> Loc),
      forall et ld a seed s,
        reachable get_distance move_towards_fast (init et ld a seed) s ->
        in_day (current_minute s).
Proof.
  intros (gd & mv & H).
  destruct (H [] [] (default_args "MTWRF") (constant_stream 0) _
              (reach_init gd mv _)) as [Hlo _].
  vm_compute in Hlo. apply Hlo. reflexivity.
Qed.

Lemma minute_in_day_after_tick_witness :
  exists s',
    iterate taxicab_distance step_or_stay
      (init [(900%Z, [tuesday_entry])] lincoln (default_args "MTWRF")
         (constant_stream 0))
    = Ok (Running s') /\
    in_day (current_minute s').
Proof.
  eexists. split.
  - vm_compute. reflexivity.
  - eapply (minute_in_day_after_tick taxicab_distance step_or_stay
              [(900%Z, [tuesday_entry])] lincoln (default_args "MTWRF")
              (constant_stream 0)).
    + simpl. lia.
    + apply reach_init.
    + vm_compute. reflexivity.
Defined.

(** ** Despawning *)

(** At 20:00 every hall is closed and the dinner rate is the one in force
    for spawning; a variate of 9/20 lies between the two rates. The person
    stays: the comparison is with [CONVERSION_RATE]. *)
Example despawn_at_eight_pm :
  forall gd mv,
    move_step gd mv (default_args "M") (open_halls 1200) [idler]
      (constant_stream (9 # 20))
    = Ok ([idler], rng_next (constant_stream (9 # 20))) /\
    despawn_spec (conversion_rate 1200) [idler] (constant_stream (9 # 20))
    = ([], rng_next (constant_stream (9 # 20))).
Proof. intros gd mv. split; reflexivity. Qed.

(** At 15:00, with two people and variates that would remove both, only
    one variate is read: the second person is stepped over. *)
Example despawn_steps_over :
  forall gd mv,
    move_step gd mv (default_args "M") (open_halls 900) [idler; idler]
      (constant_stream 0)
    = Ok ([idler], rng_next (constant_stream 0)).
Proof. intros gd mv. reflexivity. Qed.


(** With no hall open, a walker alone reads no variate and walks, and a
    walker right behind a removed person is passed over: no step. *)
Example walker_alone_and_walker_passed_over :
  forall gd mv,
    move_step gd mv (default_args "M") (open_halls 900) [seven_oclock_person]
      (constant_stream 0)
    = Ok ([step_toward mv (default_args "M") seven_oclock_person HochShanahan],
          constant_stream 0) /\
    move_step gd mv (default_args "M") (open_halls 900)
      [idler; seven_oclock_person] (constant_stream 0)
    = Ok ([seven_oclock_person], rng_next (constant_stream 0)).
Proof. intros gd mv. split; reflexivity. Qed.


(** ** Spawning *)

Lemma spawn_count_is_floor_witness :
  (forall after r',
     spawn_course taxicab_distance (default_args "M") lincoln 900
       (open_halls 900) tuesday_entry [idler] (constant_stream 0)
     = Ok (after, r') ->
     exists new,
       after = [idler] ++ new /\
       ((0 <= Qfloor (inject_Z 5 * conversion_rate 900))%Z ->
        Z.of_nat (List.length new) = Qfloor (inject_Z 5 * conversion_rate 900)) /\
       ((5 < 0)%Z -> new = [])) /\
  (can_choose taxicab_distance (341 # 10, - (11771 # 100))%Q (open_halls 900) ->
   exists after r',
     spawn_course taxicab_distance (default_args "M") lincoln 900
       (open_halls 900) tuesday_entry [idler] (constant_stream 0)
     = Ok (after, r')).
Proof.
  apply (spawn_count_is_floor taxicab_distance (default_args "M") lincoln 900
           (open_halls 900) tuesday_entry [idler] (constant_stream 0)
           (Some (341 # 10), Some (- (11771 # 100)))%Q).
  - reflexivity.
  - reflexivity.
Defined.

(** An overbooked class passes a negative head-count: nobody is spawned. *)
Example negative_headcount_spawns_nobody :
  forall gd r,
    spawn_course gd (default_args "M") lincoln 900 (open_halls 900)
      {| entry_timing := tuesday_timing;
         location_string := "Pitzer-Lincoln";
         people := -4 |} [] r
    = Ok ([], r).
Proof. intros gd r. reflexivity. Qed.

(** ** Arriving at a closed hall *)

(** Two people at the door of Hoch-Shanahan, the line empty, every
    variate one half, 30 s per person in line: the waits are
    (0 * 30 + 5) / 60 and (1 * 30 + 5) / 60 minutes. *)
Example arrival_waits_two_at_the_door :
  map Qred
    (in_line
       (snd (fst (arrive_step taxicab_distance (default_args "M")
                    [at_hoch; idler; at_hoch] empty_halls
                    (constant_stream (1 # 2))))
          HochShanahan))
  = [1 # 12; 7 # 12]%Q.
Proof. reflexivity. Qed.

Lemma arrival_at_closed_hall_witness :
  let step := arrive_step taxicab_distance (default_args "M") [at_hoch]
                empty_halls (constant_stream 0) in
  is_open 600 HochShanahan = false /\
  fst (fst step)
  = filter (fun p => negb (arrived taxicab_distance p)) [at_hoch] /\
  ~ In at_hoch (fst (fst step)) /\
  List.length (in_line (snd (fst step) HochShanahan))
  = 0 + List.length (filter (arrives_at taxicab_distance HochShanahan) [at_hoch]) /\
  1 <= List.length (filter (arrives_at taxicab_distance HochShanahan) [at_hoch]).
Proof.
  split; [reflexivity|].
  apply (arrival_at_closed_hall taxicab_distance (default_args "M") [at_hoch]
           empty_halls (constant_stream 0) 600 at_hoch HochShanahan).
  - left. reflexivity.
  - reflexivity.
  - vm_compute. intros H. repeat (destruct H as [H|H]; [discriminate H|]).
    exact H.
Defined.

(** ** Choosing among halls all at distance zero *)

Lemma choose_dest_zero_weights_witness :
  choose_dest taxicab_distance at_hoch [HochShanahan] (constant_stream 0)
  = Raise ValueError.
Proof.
  apply (choose_dest_zero_weights_raises taxicab_distance at_hoch
           [HochShanahan] (constant_stream 0)).
  - discriminate.
  - intros h [<-|[]]. vm_compute. discriminate.
  - intros h [<-|[]]. reflexivity.
Defined.

(** ** Further concrete runs *)

Lemma tick_logs_one_row_witness :
  exists s',
    iterate taxicab_distance step_or_stay quiet_last_minute_of_monday
    = Ok (Running s') /\
    exists d,
      current_day s' = Some d /\
      d <= List.length (log quiet_last_minute_of_monday) /\
      nth_error (log s') d
      = Some (nth d (log quiet_last_minute_of_monday) [] ++ [row_of s']) /\
      forall d', d' <> d ->
        nth_error (log s') d' = nth_error (log quiet_last_minute_of_monday) d'.
Proof.
  eexists. split.
  - vm_compute. reflexivity.
  - eapply (tick_logs_one_row taxicab_distance step_or_stay
              quiet_last_minute_of_monday).
    vm_compute. reflexivity.
Defined.

Lemma iterate_after_done_raises_witness :
  exists e, iterate taxicab_distance step_or_stay after_the_last_day = Raise e.
Proof.
  eapply (iterate_after_done_raises taxicab_distance step_or_stay
            after_the_last_day).
  reflexivity.
Defined.

Lemma rollover_without_a_row_raises_witness :
  iterate taxicab_distance step_or_stay monday_without_rows = Raise IndexError.
Proof.
  eapply (rollover_without_a_row_raises taxicab_distance step_or_stay
            monday_without_rows 0).
  - vm_compute. reflexivity.
  - reflexivity.
  - cbn. lia.
  - cbn. lia.
  - reflexivity.
Defined.

Lemma move_step_walks_everyone_witness :
  exists people' r',
    move_step taxicab_distance step_or_stay (default_args "M") [HochShanahan]
      [idler; seven_oclock_person] (constant_stream 0)
    = Ok (people', r') /\
    Forall2 (walked step_or_stay (default_args "M") [HochShanahan])
      [idler; seven_oclock_person] people'.
Proof.
  eexists. eexists. split.
  - vm_compute. reflexivity.
  - eapply (move_step_walks_everyone taxicab_distance step_or_stay
               (default_args "M") [HochShanahan] [idler; seven_oclock_person]
               _ (constant_stream 0)).
    + discriminate.
    + vm_compute. reflexivity.
Defined.

Lemma population_grows_only_by_spawning_witness :
  exists s',
    iterate taxicab_distance step_or_stay monday_noon = Ok (Running s') /\
    population s' <= population monday_noon.
Proof.
  eexists. split.
  - vm_compute. reflexivity.
  - eapply (population_grows_only_by_spawning taxicab_distance step_or_stay).
    + vm_compute. reflexivity.
    + vm_compute. reflexivity.
Defined.

Lemma spawn_course_makes_newcomers_witness :
  exists people' r',
    spawn_course taxicab_distance (default_args "M") lincoln 420
      [HochShanahan] seven_entry [idler] (constant_stream 0)
    = Ok (people', r') /\
    exists raw new,
      dict_get String.eqb (location_string seven_entry) lincoln = Some raw /\
      people' = [idler] ++ new /\
      Forall (newcomer (convert_str_to_loc raw) [HochShanahan]) new /\
      r' = rng_skip (List.length new * draws_per_spawn [HochShanahan])
             (constant_stream 0) /\
      (unresolved lincoln seven_entry -> new = []).
Proof.
  eexists. eexists. split.
  - vm_compute. reflexivity.
  - eapply (spawn_course_makes_newcomers taxicab_distance (default_args "M")
              lincoln 420 [HochShanahan] seven_entry [idler] _
              (constant_stream 0)).
    vm_compute. reflexivity.
Defined.

Lemma tick_needs_known_classrooms_witness :
  exists s',
    iterate taxicab_distance step_or_stay
      (init [(420%Z, [seven_entry])] lincoln (default_args "M")
         (constant_stream 0))
    = Ok (Running s') /\
    exists raw,
      dict_get String.eqb (location_string seven_entry) lincoln = Some raw.
Proof.
  eexists. split.
  - vm_compute. reflexivity.
  - eapply (tick_needs_known_classrooms taxicab_distance step_or_stay
              (init [(420%Z, [seven_entry])] lincoln (default_args "M")
                 (constant_stream 0)) _ [seven_entry] seven_entry).
    + vm_compute. reflexivity.
    + vm_compute. reflexivity.
    + now left.
Defined.

Lemma choose_dest_picks_by_distance_witness :
  exists i h,
    nth_error [HochShanahan; Frank] i = Some h /\
    choose_dest taxicab_distance idler [HochShanahan; Frank]
      (constant_stream (1 # 2))
    = Ok (set_destination idler (Some h), rng_next (constant_stream (1 # 2))) /\
    (Qsum (firstn i (dest_weights taxicab_distance idler [HochShanahan; Frank]))
     <= rng_peek (constant_stream (1 # 2))
        * Qsum (dest_weights taxicab_distance idler [HochShanahan; Frank]))%Q /\
    (rng_peek (constant_stream (1 # 2))
     * Qsum (dest_weights taxicab_distance idler [HochShanahan; Frank])
     < Qsum (firstn (S i)
               (dest_weights taxicab_distance idler [HochShanahan; Frank])))%Q /\
    (0 < taxicab_distance (loc idler) (hall_location h))%Q.
Proof.
  eapply (choose_dest_picks_by_distance taxicab_distance idler
            [HochShanahan; Frank] (constant_stream (1 # 2))).
  - intros h [<-|[<-|[]]]; vm_compute; discriminate.
  - vm_compute. reflexivity.
  - vm_compute. discriminate.
  - vm_compute. reflexivity.
Defined.

Lemma driver_loop_stops_witness :
  exists n,
    stopped taxicab_distance step_or_stay n
      (init [(900%Z, [tuesday_entry])] lincoln (default_args "MT")
         (constant_stream 0)).
Proof.
  eapply (driver_loop_stops taxicab_distance step_or_stay
            (init [(900%Z, [tuesday_entry])] lincoln (default_args "MT")
               (constant_stream 0)) 0).
  - reflexivity.
  - reflexivity.
Defined.

Lemma driver_loop_never_done_witness :
  exists s',
    run taxicab_distance step_or_stay 5
      (init [] lincoln standing_clock_args (constant_stream 0))
    = Ok s' /\
    exists d', current_day s' = Some d'.
Proof.
  eexists. split.
  - vm_compute. reflexivity.
  - eapply (driver_loop_never_done taxicab_distance step_or_stay 5
              (init [] lincoln standing_clock_args (constant_stream 0)) _ 0).
    + reflexivity.
    + vm_compute. discriminate.
    + vm_compute. reflexivity.
    + vm_compute. reflexivity.
Defined.

Lemma reachable_waits_in_range_witness :
  exists s',
    iterate taxicab_distance step_or_stay
      (init [(900%Z, [tuesday_entry])] lincoln (default_args "M")
         (constant_stream 0))
    = Ok (Running s') /\
    waits_in_range (people_in_dining_halls s').
Proof.
  eexists. split.
  - vm_compute. reflexivity.
  - eapply (reachable_waits_in_range taxicab_distance step_or_stay
              [(900%Z, [tuesday_entry])] lincoln (default_args "M")
              (constant_stream 0)).
    + vm_compute. discriminate.
    + eapply reach_tick; [apply reach_init|]. vm_compute. reflexivity.
Defined.

Lemma time_to_minutes_hours_and_minutes_witness :
  time_to_minutes ("15" ++ ":" ++ "30" ++ ":" ++ "59") = Ok (15 * 60 + 30)%Z /\
  time_to_minutes ("15" ++ ":" ++ "30") = Ok (15 * 60 + 30)%Z /\
  time_to_minutes "15" = Raise IndexError.
Proof.
  eapply (time_to_minutes_hours_and_minutes "15" "30" "59" 15 30);
     reflexivity.
Defined.

Lemma build_end_times_files_every_day_witness :
  exists et,
    build_end_times [tuesday_course] = Ok et /\
    filed et = meeting_days [tuesday_course].
Proof.
  eexists. split.
  - vm_compute. reflexivity.
  - apply build_end_times_files_every_day. vm_compute. reflexivity.
Defined.

Lemma end_times_bucket_sound_witness :
  exists et bucket,
    build_end_times [tuesday_course] = Ok et /\
    end_times_get 900 et = Some bucket /\
    exists c t k,
      In c [tuesday_course] /\ In t (timing c) /\
      tuesday_entry = entry_of c t /\
      time_to_minutes (end_time t) = Ok k /\ (900 == inject_Z k)%Q.
Proof.
  eexists. eexists. split; [vm_compute; reflexivity|].
  split; [vm_compute; reflexivity|].
  eapply (end_times_bucket_sound [tuesday_course] _ 900 _ tuesday_entry).
  - vm_compute. reflexivity.
  - vm_compute. reflexivity.
  - now left.
Defined.

Lemma convert_loc_to_coords_on_screen_witness :
  (0 <= fst (convert_loc_to_coords (hall_location Frank)) <= SCREEN_WIDTH)%Z /\
  (0 <= snd (convert_loc_to_coords (hall_location Frank)) <= SCREEN_HEIGHT)%Z.
Proof.
  eapply (convert_loc_to_coords_on_screen (hall_location Frank)).
  reflexivity.
Defined.

Lemma convert_loc_to_coords_orientation_witness :
  (fst (convert_loc_to_coords (hall_location Frank))
   <= fst (convert_loc_to_coords (hall_location HochShanahan)))%Z /\
  (snd (convert_loc_to_coords (hall_location HochShanahan))
   <= snd (convert_loc_to_coords (hall_location Frank)))%Z.
Proof.
  destruct (convert_loc_to_coords_orientation (hall_location Frank)
              (hall_location HochShanahan)) as [Heast Hnorth].
  split; [apply Heast|apply Hnorth]; vm_compute; discriminate.
Defined.

Lemma end_times_bucket_complete_witness :
  exists et k bucket,
    build_end_times [tuesday_course] = Ok et /\
    time_to_minutes (end_time tuesday_timing) = Ok k /\
    end_times_get (inject_Z k) et = Some bucket /\
    In (entry_of tuesday_course tuesday_timing) bucket.
Proof.
  eexists.
  assert (Hbuild : build_end_times [tuesday_course]
                   = Ok [(900%Z, [tuesday_entry])])
    by (vm_compute; reflexivity).
  destruct (end_times_bucket_complete [tuesday_course] _ tuesday_course
              tuesday_timing Hbuild) as (k & bucket & H).
  - now left.
  - now left.
  - discriminate.
  - exists k, bucket. split; [exact Hbuild|exact H].
Defined.

Lemma finished_run_has_full_days_witness :
  exists s s',
    run taxicab_distance step_or_stay 900
      (init [(900%Z, [tuesday_entry])] lincoln (default_args "M")
         (constant_stream 0))
    = Ok s /\
    iterate taxicab_distance step_or_stay s = Ok (Done s') /\
    List.length (log s') = Nat.max 1 (String.length "M") /\
    forall d, d < List.length (log s') ->
      List.length (nth d (log s') []) = rows_per_day.
Proof.
  eexists. eexists. split; [vm_compute; reflexivity|].
  split; [vm_compute; reflexivity|].
  eapply (finished_run_has_full_days taxicab_distance step_or_stay
            [(900%Z, [tuesday_entry])] lincoln (default_args "M")
            (constant_stream 0)).
  - reflexivity.
  - eapply (run_reachable taxicab_distance step_or_stay 900).
    + vm_compute. reflexivity.
    + vm_compute. discriminate.
  - vm_compute. reflexivity.
Defined.
